(** * node-modbus-serial: the Modbus RTU client engine and the buffered RTU port

    A shallow embedding of [ports/rtubufferedport.js] (class [RTUBufferedPort])
    and of [index.js] (class [ModbusRTU] with its frame decoders, the
    transaction bookkeeping, the timeout and the receive procedure), followed
    by the properties checked against the written specification.

    Conventions of the embedding:
    - a Node [Buffer] is a [list Z] of bytes; [data[k]] out of range is
      [None] (JavaScript's [undefined]); the [readUIntN] / [writeUIntN]
      methods raise [RangeError] out of range, which is [None] of the option
      monad in pure code and [Thrown RangeError] in stateful code;
    - JavaScript numbers are integers of [Z] (the code adds, multiplies and
      compares them; its few divisions are written out where they occur);
    - objects that are shared and mutated (the transaction objects captured
      by timers and by callbacks) live in an explicit heap and are named by
      their index;
    - a function passed by the caller is opaque: calling it is recorded in
      the log [calls] of the engine. *)

From Stdlib Require Import ZArith String Ascii DecimalString.
From stdpp Require Import gmap strings list fin_maps.
Import ListNotations.

Local Open Scope Z_scope.

(** ** Node buffers *)

Abbreviation Buffer := (list Z).

Definition blen (b : Buffer) : Z := Z.of_nat (List.length b).

(** [data[k]]: [undefined] outside the buffer. *)
Definition buf_get (b : Buffer) (k : Z) : option Z :=
  if k <? 0 then None else b !! Z.to_nat k.

(** [Array.prototype.slice] index clamping: a negative index counts from the
    end, and everything is clamped to [0, length]. *)
Definition clamp_index (len k : Z) : Z :=
  if k <? 0 then Z.max (len + k) 0 else Z.min k len.

(** [buf.slice(start, end)]. *)
Definition slice (b : Buffer) (start end_ : Z) : Buffer :=
  let s := clamp_index (blen b) start in
  let e := clamp_index (blen b) end_ in
  take (Z.to_nat (e - s)) (drop (Z.to_nat s) b).

(** [buf.slice(start)]. *)
Definition slice_from (b : Buffer) (start : Z) : Buffer :=
  drop (Z.to_nat (clamp_index (blen b) start)) b.

Definition in_range (b : Buffer) (offset width : Z) : bool :=
  (0 <=? offset) && (offset + width <=? blen b).

Definition readUInt8 (b : Buffer) (offset : Z) : option Z :=
  if in_range b offset 1 then buf_get b offset else None.

Definition readInt8 (b : Buffer) (offset : Z) : option Z :=
  v ← readUInt8 b offset;
  Some (if v <? 128 then v else v - 256).

Definition readUInt16BE (b : Buffer) (offset : Z) : option Z :=
  if in_range b offset 2 then
    hi ← buf_get b offset; lo ← buf_get b (offset + 1);
    Some (hi * 256 + lo)
  else None.

Definition readUInt16LE (b : Buffer) (offset : Z) : option Z :=
  if in_range b offset 2 then
    lo ← buf_get b offset; hi ← buf_get b (offset + 1);
    Some (hi * 256 + lo)
  else None.

Definition readInt16BE (b : Buffer) (offset : Z) : option Z :=
  v ← readUInt16BE b offset;
  Some (if v <? 32768 then v else v - 65536).

Definition readUInt32BE (b : Buffer) (offset : Z) : option Z :=
  if in_range b offset 4 then
    b0 ← buf_get b offset; b1 ← buf_get b (offset + 1);
    b2 ← buf_get b (offset + 2); b3 ← buf_get b (offset + 3);
    Some (((b0 * 256 + b1) * 256 + b2) * 256 + b3)
  else None.

(** [Buffer.alloc(n)]: [n] zero bytes. *)
Definition alloc (n : Z) : Buffer := replicate (Z.to_nat n) 0.

Definition put (b : Buffer) (offset v : Z) : Buffer :=
  <[Z.to_nat offset := v]> b.

(** The writers raise [RangeError] when the value does not fit or the bytes
    fall outside the buffer. *)
Definition writeUInt8 (v offset : Z) (b : Buffer) : option Buffer :=
  if (0 <=? v) && (v <=? 255) && in_range b offset 1
  then Some (put b offset v) else None.

Definition writeUInt16BE (v offset : Z) (b : Buffer) : option Buffer :=
  if (0 <=? v) && (v <=? 65535) && in_range b offset 2
  then Some (put (put b offset (v / 256)) (offset + 1) (v mod 256)) else None.

Definition writeUInt16LE (v offset : Z) (b : Buffer) : option Buffer :=
  if (0 <=? v) && (v <=? 65535) && in_range b offset 2
  then Some (put (put b offset (v mod 256)) (offset + 1) (v / 256)) else None.

Definition writeUInt32BE (v offset : Z) (b : Buffer) : option Buffer :=
  if (0 <=? v) && (v <=? 4294967295) && in_range b offset 4
  then Some (put (put (put (put b offset (v / 16777216))
                            (offset + 1) (v / 65536 mod 256))
                       (offset + 2) (v / 256 mod 256))
                  (offset + 3) (v mod 256))
  else None.

(** [buf.toString("ascii", start, end)]: each byte is masked to seven bits. *)
Definition ascii_of_byte (b : Z) : ascii := ascii_of_N (Z.to_N (Z.land b 127)).

Definition toString_ascii (b : Buffer) (start end_ : Z) : string :=
  string_of_list_ascii (List.map ascii_of_byte (slice b start end_)).

(** Decimal rendering of a number in a string concatenation. *)
Definition string_of_Z (z : Z) : string := NilZero.string_of_int (Z.to_int z).

(** ** CRC-16 *)

Fixpoint crc_shift (n : nat) (crc : Z) : Z :=
  match n with
  | O => crc
  | S n' =>
      let odd := Z.land crc 1 in
      let crc' := Z.shiftr crc 1 in
      crc_shift n' (if odd =? 0 then crc' else Z.lxor crc' 0xA001)
  end.

(** Modelled from the spec: [utils/crc16.js] is not among the sources. The
    specification describes it as the standard Modbus CRC-16: initial register
    0xFFFF, polynomial 0xA001, taken byte-wise and LSB-first, returned as an
    unsigned 16-bit number whose low byte goes first on the wire. *)
Definition crc16 (data : Buffer) : Z :=
  List.fold_left (fun crc b => crc_shift 8 (Z.lxor crc b)) data 0xFFFF.

(** ** ports/rtubufferedport.js: constants *)

Definition EXCEPTION_LENGTH : Z := 5.
Definition MIN_DATA_LENGTH : Z := 6.
Definition MAX_BUFFER_LENGTH : Z := 256.
Definition CRC_LENGTH : Z := 2.
Definition READ_FILE_RECORD_FUNCTION_CODE : Z := 20.
Definition READ_DEVICE_IDENTIFICATION_FUNCTION_CODE : Z := 43.
Definition READ_COMPRESSED_FUNCTION_CODE : Z := 65.
Definition BITS_TO_NUM_OF_OBJECTS : Z := 7.
Definition BYTES_TO_READ_FILE_TOTAL_LENGTH : Z := 3.

(** The field [_length] of the port holds a number or the string
    [LENGTH_UNKNOWN]. *)
Inductive explen : Type :=
| Known (n : Z)
| LENGTH_UNKNOWN.

(** [parseInt((length - 1) / 8 + 1)]: the quotient is an exact multiple of
    1/8, and [parseInt] drops its fraction (truncation toward zero). *)
Definition parseInt_eighths (length : Z) : Z := Z.quot (length - 1 + 8) 8.

(** The result object of [calculateFC43Length]. *)
Record fc43_length : Type := {
  hasAllData : bool;
  bufLength : option Z
}.

(** The [for] loop of [calculateFC43Length]; [n] counts the objects still to
    walk, the result is [currentByte] and [hasAllData]. *)
Fixpoint fc43_walk (n : nat) (buffer : Buffer) (bufferLength currentByte : Z)
  : Z * bool :=
  match n with
  | O => (currentByte, true)
  | S n' =>
      if bufferLength <? currentByte then (currentByte, false)
      else
        match buf_get buffer (currentByte + 1) with
        | None => (currentByte, false)
        | Some objLength =>
            if objLength =? 0 then (currentByte, false)
            else fc43_walk n' buffer bufferLength (currentByte + 2 + objLength)
        end
  end.

Definition calculateFC43Length (buffer : Buffer) (numObjects i bufferLength : Z)
  : fc43_length :=
  let '(currentByte, all) :=
    if 0 <? numObjects
    then fc43_walk (Z.to_nat numObjects) buffer bufferLength (8 + i)
    else (8 + i, true) in
  let all := if bufferLength <? currentByte + CRC_LENGTH then false else all in
  {| hasAllData := all;
     bufLength := if all then Some (currentByte + CRC_LENGTH) else None |}.

(** The state of an [RTUBufferedPort]. The serial port [_client] is the
    outside world: [client_isOpen] is its [isOpen] flag and [client_written]
    the buffers handed to its [write], oldest first. [data_listener] tells
    whether the engine's [_onReceive] is registered for the port's "data"
    event; the two transaction ids are the fields the engine keeps on its
    port. *)
Record RTUBufferedPort : Type := {
  _buffer : Buffer;
  _id : Z;
  _cmd : Z;
  _length : explen;
  client_isOpen : bool;
  client_written : list Buffer;
  data_listener : bool;
  _transactionIdRead : Z;
  _transactionIdWrite : Z
}.

Definition set_buffer (b : Buffer) (p : RTUBufferedPort) : RTUBufferedPort :=
  {| _buffer := b; _id := _id p; _cmd := _cmd p; _length := _length p;
     client_isOpen := client_isOpen p; client_written := client_written p;
     data_listener := data_listener p;
     _transactionIdRead := _transactionIdRead p;
     _transactionIdWrite := _transactionIdWrite p |}.

(** The expected answer length computed by [write] from the request. *)
Definition answer_length (data : Buffer) (cmd : Z) : option explen :=
  if (cmd =? 1) || (cmd =? 2) then
    length ← readUInt16BE data 4;
    Some (Known (3 + parseInt_eighths length + 2))
  else if (cmd =? 3) || (cmd =? 4) then
    length ← readUInt16BE data 4;
    Some (Known (3 + 2 * length + 2))
  else if (cmd =? 5) || (cmd =? 6) || (cmd =? 15) || (cmd =? 16) then
    Some (Known (6 + 2))
  else if cmd =? READ_FILE_RECORD_FUNCTION_CODE then Some LENGTH_UNKNOWN
  else if cmd =? READ_DEVICE_IDENTIFICATION_FUNCTION_CODE then Some LENGTH_UNKNOWN
  else if cmd =? READ_COMPRESSED_FUNCTION_CODE then
    length ← readUInt8 data 2;
    Some (Known (4 + 2 * length + 2))
  else Some (Known 0).

(** [RTUBufferedPort.prototype.write]; [None] is a [RangeError] of a read
    (it cannot occur: the buffer has six bytes or more at the reads). *)
Definition write (data : Buffer) (p : RTUBufferedPort) : option RTUBufferedPort :=
  if blen data <? MIN_DATA_LENGTH then Some p
  else
    id ← buf_get data 0;
    cmd ← buf_get data 1;
    len ← answer_length data cmd;
    Some {| _buffer := _buffer p; _id := id; _cmd := cmd; _length := len;
            client_isOpen := client_isOpen p;
            client_written := client_written p ++ [data];
            data_listener := data_listener p;
            _transactionIdRead := _transactionIdRead p;
            _transactionIdWrite := _transactionIdWrite p |}.

(** What one round of the scanning loop of [onData] decides. *)
Inductive scan_result : Type :=
| Emit (start length : Z)   (* [self._emitData(start, length); return] *)
| Return                    (* [return] *)
| Break                     (* [break] *)
| Continue.                 (* next offset *)

(** The body of the [for] loop of [onData] at offset [i]; [buffer] is
    [self._buffer] and [bufferLength] its (capped) length. *)
Definition scan_body (p : RTUBufferedPort) (buffer : Buffer)
    (bufferLength i : Z) : scan_result :=
  let unitId := buf_get buffer i in
  let functionCode := buf_get buffer (i + 1) in
  if negb (bool_decide (unitId = Some (_id p))) then Continue
  else
    let is_cmd := bool_decide (functionCode = Some (_cmd p)) in
    let tail :=
      if bool_decide (functionCode = Some (Z.land 0x7f (_cmd p)))
      then Break else Continue in
    if is_cmd && (_cmd p =? READ_DEVICE_IDENTIFICATION_FUNCTION_CODE) then
      if bufferLength <=? BITS_TO_NUM_OF_OBJECTS + i then Return
      else
        (* an [undefined] count fails [numObjects > 0], as 0 does *)
        let numObjects := default 0 (buf_get buffer (7 + i)) in
        let result := calculateFC43Length buffer numObjects i bufferLength in
        match hasAllData result, bufLength result with
        | true, Some l => Emit i l
        | _, _ => tail
        end
    else if is_cmd && (_cmd p =? READ_FILE_RECORD_FUNCTION_CODE) then
      if bufferLength <=? BYTES_TO_READ_FILE_TOTAL_LENGTH + i then Return
      else
        match buf_get buffer (BYTES_TO_READ_FILE_TOTAL_LENGTH - 1 + i) with
        | None => tail
        | Some responseDataLength =>
            let calculatedExpectedLength :=
              1 + 1 + 1 + responseDataLength + CRC_LENGTH in
            if calculatedExpectedLength <=? bufferLength
            then Emit i calculatedExpectedLength
            else tail
        end
    else
      match _length p with
      | Known expectedLength =>
          if is_cmd && (i + expectedLength <=? bufferLength)
          then Emit i expectedLength
          else if bool_decide (functionCode = Some (Z.lor 0x80 (_cmd p)))
                  && (i + EXCEPTION_LENGTH <=? bufferLength)
          then Emit i EXCEPTION_LENGTH
          else tail
      | LENGTH_UNKNOWN =>
          if bool_decide (functionCode = Some (Z.lor 0x80 (_cmd p)))
             && (i + EXCEPTION_LENGTH <=? bufferLength)
          then Emit i EXCEPTION_LENGTH
          else tail
      end.

(** The loop [for (let i = 0; i <= maxOffset; i++)], with [n] rounds left.
    The result is the frame to emit, if any. *)
Fixpoint scan_loop (n : nat) (p : RTUBufferedPort) (buffer : Buffer)
    (bufferLength i : Z) : option (Z * Z) :=
  match n with
  | O => None
  | S n' =>
      match scan_body p buffer bufferLength i with
      | Emit start length => Some (start, length)
      | Return => None
      | Break => None
      | Continue => scan_loop n' p buffer bufferLength (i + 1)
      end
  end.

(** The first part of [onData]: the chunk is appended; then either the
    handler returns at the length check, or the buffer is capped and the
    loop looks for a frame. The result is the port with its new buffer and
    the arguments of [_emitData], if it is called. *)
Definition onData_scan (data : Buffer) (p : RTUBufferedPort)
  : RTUBufferedPort * option (Z * Z) :=
  let p1 := set_buffer (_buffer p ++ data) p in
  let expectedLength := _length p1 in
  let bufferLength := blen (_buffer p1) in
  let too_short :=
    match expectedLength with
    | Known n => n <? MIN_DATA_LENGTH
    | LENGTH_UNKNOWN => false
    end in
  if too_short || (bufferLength <? EXCEPTION_LENGTH) then (p1, None)
  else
    let p2 :=
      if MAX_BUFFER_LENGTH <? bufferLength
      then set_buffer (slice_from (_buffer p1) (- MAX_BUFFER_LENGTH)) p1
      else p1 in
    let bufferLength :=
      if MAX_BUFFER_LENGTH <? bufferLength then MAX_BUFFER_LENGTH
      else bufferLength in
    let maxOffset := bufferLength - EXCEPTION_LENGTH in
    (p2, scan_loop (Z.to_nat (maxOffset + 1)) p2 (_buffer p2) bufferLength 0).

(** ** index.js: errors, results and callbacks *)

Definition PORT_NOT_OPEN_MESSAGE : string := "Port Not Open".
Definition BAD_ADDRESS_MESSAGE : string := "Bad Client Address".
Definition TRANSACTION_TIMED_OUT_MESSAGE : string := "Timed out".
Definition BROADCAST_ADDRESS : Z := 0.

Definition modbusErrorMessages : list string := [
  "Unknown error";
  "Illegal function (device does not support this read/write function)";
  "Illegal data address (register not supported by device)";
  "Illegal data value (value cannot be written to this register)";
  "Slave device failure (device reports internal error)";
  "Acknowledge (requested data will be available later)";
  "Slave device busy (retry request again later)";
  "Negative acknowledge (device cannot perform action)";
  "Memory parity error (failed to read from memory)";
  "Gateway path unavailable";
  "Gateway target device failed to respond"
]%string.

(** The constructor of an error object. *)
Inductive error_name : Type :=
| PortNotOpenError
| BadAddressError
| BroadcastNotAllowedError
| TransactionTimedOutError
| Error.

(** An error object as the callback receives it. *)
Record error : Type := {
  name : error_name;
  message : string;
  modbusCode : option Z;
  modbusRequest : option Buffer;
  modbusResponses : option (list Buffer)
}.

Definition new_error (n : error_name) (msg : string) : error :=
  {| name := n; message := msg; modbusCode := None;
     modbusRequest := None; modbusResponses := None |}.

Definition new_PortNotOpenError : error :=
  new_error PortNotOpenError PORT_NOT_OPEN_MESSAGE.
Definition new_BadAddressError : error :=
  new_error BadAddressError BAD_ADDRESS_MESSAGE.
Definition new_BroadcastNotAllowedError : error :=
  new_error BroadcastNotAllowedError "Function does not allow broadcast requests".
Definition new_TransactionTimedOutError : error :=
  new_error TransactionTimedOutError TRANSACTION_TIMED_OUT_MESSAGE.

(** The payload of FC20: an ASCII string or the raw bytes. *)
Inductive file_payload : Type :=
| Ascii (s : string)
| Bytes (b : Buffer).

(** The result objects built by the decoders. *)
Inductive response : Type :=
| ResEmpty
| ResCoils (data : list bool) (buffer : Buffer)
| ResRegisters (data : list Z) (buffer : Buffer)
| ResCoil (address : Z) (state : bool)
| ResRegister (address value : Z)
| ResStatus (data : Z)
| ResMultiple (address length : Z)
| ResFile (data : file_payload) (length : Z)
| ResDeviceId (data : gmap Z string) (conformityLevel : Z)
| ResCompressed (data : list Z) (errorFlags : Z) (buffer : Buffer).

(** A result object with the two fields the receive procedure adds in debug
    mode. *)
Record result : Type := {
  value : response;
  request_of : option Buffer;
  responses_of : option (list Buffer)
}.

Definition plain (v : response) : result :=
  {| value := v; request_of := None; responses_of := None |}.

(** The functions stored in the field [next] of a transaction: a function
    of the caller, or the closure [cb] that [_readFC43] builds. The closure
    holds the object map [result] of the response just decoded and the
    function [next] of the running [_onReceive], which in turn holds the
    transaction [tx] it was called for. *)
Inductive callback : Type :=
| UserCallback (k : nat)
| FC43Merge (result : gmap Z string) (tx : nat).

(** One call of a caller's function: [k(err, res)]. *)
Record call : Type := {
  callee : nat;
  err : option error;
  res : option result
}.

(** ** index.js: the decoders *)

(** The eight pushes of the inner loop of [_readFC2]: [(reg & 1) === 1],
    then [reg >> 1]. *)
Fixpoint bits_of (n : nat) (reg : Z) : list bool :=
  match n with
  | O => []
  | S n' => (Z.land reg 1 =? 1) :: bits_of n' (Z.shiftr reg 1)
  end.

(** The outer loop of [_readFC2], with [n] bytes left from index [i]; an
    [undefined] byte behaves as 0 under [&] and [>>]. *)
Fixpoint coils_from (n : nat) (data : Buffer) (i : Z) : list bool :=
  match n with
  | O => []
  | S n' => bits_of 8 (default 0 (buf_get data (i + 3))) ++ coils_from n' data (i + 1)
  end.

Definition _readFC2 (data : Buffer) : option response :=
  length ← readUInt8 data 2;
  Some (ResCoils (coils_from (Z.to_nat length) data 0) (slice data 3 (3 + length))).

(** The loop [for (i = 0; i < length; i += step)] pushing [read(i + base)];
    [n] bounds the number of rounds. *)
Fixpoint read_each (n : nat) (read : Z → option Z) (step base length i : Z)
  : option (list Z) :=
  match n with
  | O => Some []
  | S n' =>
      if i <? length then
        reg ← read (i + base);
        rest ← read_each n' read step base length (i + step);
        Some (reg :: rest)
      else Some []
  end.

Definition _readFC3or4 (data : Buffer) : option response :=
  length ← readUInt8 data 2;
  contents ← read_each (Z.to_nat length) (readUInt16BE data) 2 3 length 0;
  Some (ResRegisters contents (slice data 3 (3 + length))).

Definition _readFC3or4Enron (data : Buffer) : option response :=
  length ← readUInt8 data 2;
  contents ← read_each (Z.to_nat length) (readUInt32BE data) 4 3 length 0;
  Some (ResRegisters contents (slice data 3 (3 + length))).

Definition _readFC5 (data : Buffer) : option response :=
  dataAddress ← readUInt16BE data 2;
  state ← readUInt16BE data 4;
  Some (ResCoil dataAddress (state =? 0xff00)).

Definition _readFC6 (data : Buffer) : option response :=
  dataAddress ← readUInt16BE data 2;
  value ← readUInt16BE data 4;
  Some (ResRegister dataAddress value).

Definition _readFC7 (data : Buffer) : option response :=
  value ← readInt8 data 2;
  Some (ResStatus value).

Definition _readFC6Enron (data : Buffer) : option response :=
  dataAddress ← readUInt16BE data 2;
  value ← readUInt32BE data 4;
  Some (ResRegister dataAddress value).

Definition _readFC16 (data : Buffer) : option response :=
  dataAddress ← readUInt16BE data 2;
  length ← readUInt16BE data 4;
  Some (ResMultiple dataAddress length).

Definition is_line_terminator (c : ascii) : bool :=
  bool_decide (c = ascii_of_nat 10) || bool_decide (c = ascii_of_nat 13).

(** [s.replace(/\0.*$/g, "")]: the text is cut at the first NUL that has no
    line terminator after it ([.] does not match one). *)
Fixpoint cut_at_nul (s : list ascii) : list ascii :=
  match s with
  | [] => []
  | c :: rest =>
      if bool_decide (c = ascii_of_nat 0) && forallb (λ x, negb (is_line_terminator x)) rest
      then []
      else c :: cut_at_nul rest
  end.

Definition _readFC20 (data : Buffer) : option response :=
  subRequestLength ← readUInt8 data 3;
  subRequestRefType ← readUInt8 data 4;
  let result :=
    if subRequestRefType =? 7 then
      Ascii (string_of_list_ascii (cut_at_nul (list_ascii_of_string
               (toString_ascii data 5 (5 + subRequestLength - 1)))))
    else Bytes (slice data 5 (5 + subRequestLength - 1)) in
  Some (ResFile result subRequestLength).

(** The loop of [_readFC43] over the objects, [n] of them left; the later of
    two records with one id overwrites the earlier. *)
Fixpoint fc43_objects (n : nat) (data : Buffer) (startAt : Z)
    (result : gmap Z string) : option (gmap Z string) :=
  match n with
  | O => Some result
  | S n' =>
      objectId ← readUInt8 data startAt;
      objectLength ← readUInt8 data (startAt + 1);
      let startOfData := startAt + 2 in
      fc43_objects n' data (startOfData + objectLength)
        (<[objectId := toString_ascii data startOfData (startOfData + objectLength)]> result)
  end.

(** What [_readFC43] does once the frame is parsed. *)
Inductive fc43_action : Type :=
| FollowUp (address deviceIdCode objectId : Z) (result : gmap Z string)
    (* [modbus.writeFC43(address, readDeviceIdCode, nextObjectId, cb)] *)
| Deliver (r : response).
    (* [next(null, { data: result, conformityLevel })] *)

Definition _readFC43 (data : Buffer) : option fc43_action :=
  address ← readUInt8 data 0;
  readDeviceIdCode ← readUInt8 data 3;
  conformityLevel ← readUInt8 data 4;
  moreFollows ← readUInt8 data 5;
  nextObjectId ← readUInt8 data 6;
  numOfObjects ← readUInt8 data 7;
  result ← fc43_objects (Z.to_nat numOfObjects) data 8 ∅;
  if negb (moreFollows =? 0) && negb (numOfObjects =? 0)
  then Some (FollowUp address readDeviceIdCode nextObjectId result)
  else Some (Deliver (ResDeviceId result conformityLevel)).

Definition _readFC65 (data : Buffer) : option response :=
  length ← readUInt8 data 2;
  errorFlags ← readUInt16BE data 3;
  contents ← read_each (Z.to_nat length) (readInt16BE data) 2 5 (length - 2) 0;
  Some (ResCompressed contents errorFlags (slice data 3 (3 + length))).

(** ** index.js: the state of the engine *)

(** A transaction object. The fields a request does not set are
    [undefined]: [None], or [false] for the flag [lengthUnknown]. *)
Record transaction : Type := {
  nextAddress : Z;
  nextDataAddress : option Z;
  nextCode : Z;
  nextLength : option Z;
  lengthUnknown : bool;
  next : option callback;
  _timeoutFired : option bool;
  _timeoutHandle : option nat;
  request : option Buffer;
  responses : option (list Buffer)
}.

(** A timer made by [setTimeout] in [_startTimeout]: the transaction its
    closure holds, its delay, and whether it is still to fire. Its handle is
    its index in the list of timers. *)
Record timer : Type := {
  timer_tx : nat;
  timer_duration : Z;
  timer_pending : bool
}.

(** An instance of [ModbusRTU] on an [RTUBufferedPort]. [_transactions]
    maps a transaction id to the transaction object in [heap]; [calls] is
    the log of the calls of the callers' functions, oldest first.
    [_enronTables] is the array [shortRange] of the table, when there is a
    table. *)
Record ModbusRTU : Type := {
  _port : RTUBufferedPort;
  _transactions : gmap Z nat;
  heap : list transaction;
  timers : list timer;
  _timeout : option Z;
  _unitID : Z;
  _debugEnabled : bool;
  _enron : bool;
  _enronTables : option (list Z);
  calls : list call
}.

Definition set_port (p : RTUBufferedPort) (m : ModbusRTU) : ModbusRTU :=
  {| _port := p; _transactions := _transactions m; heap := heap m;
     timers := timers m; _timeout := _timeout m; _unitID := _unitID m;
     _debugEnabled := _debugEnabled m; _enron := _enron m;
     _enronTables := _enronTables m; calls := calls m |}.

Definition set_transactions (ts : gmap Z nat) (m : ModbusRTU) : ModbusRTU :=
  {| _port := _port m; _transactions := ts; heap := heap m;
     timers := timers m; _timeout := _timeout m; _unitID := _unitID m;
     _debugEnabled := _debugEnabled m; _enron := _enron m;
     _enronTables := _enronTables m; calls := calls m |}.

Definition set_heap (h : list transaction) (m : ModbusRTU) : ModbusRTU :=
  {| _port := _port m; _transactions := _transactions m; heap := h;
     timers := timers m; _timeout := _timeout m; _unitID := _unitID m;
     _debugEnabled := _debugEnabled m; _enron := _enron m;
     _enronTables := _enronTables m; calls := calls m |}.

Definition set_timers (ts : list timer) (m : ModbusRTU) : ModbusRTU :=
  {| _port := _port m; _transactions := _transactions m; heap := heap m;
     timers := ts; _timeout := _timeout m; _unitID := _unitID m;
     _debugEnabled := _debugEnabled m; _enron := _enron m;
     _enronTables := _enronTables m; calls := calls m |}.

Definition set_calls (cs : list call) (m : ModbusRTU) : ModbusRTU :=
  {| _port := _port m; _transactions := _transactions m; heap := heap m;
     timers := timers m; _timeout := _timeout m; _unitID := _unitID m;
     _debugEnabled := _debugEnabled m; _enron := _enron m;
     _enronTables := _enronTables m; calls := cs |}.

(** [setTimeout(timeout)] and [setID(id)] of the promise API, and the
    setter of [isDebugEnabled]. *)
Definition setTimeout (timeout : option Z) (m : ModbusRTU) : ModbusRTU :=
  {| _port := _port m; _transactions := _transactions m; heap := heap m;
     timers := timers m; _timeout := timeout; _unitID := _unitID m;
     _debugEnabled := _debugEnabled m; _enron := _enron m;
     _enronTables := _enronTables m; calls := calls m |}.

Definition setID (id : Z) (m : ModbusRTU) : ModbusRTU :=
  {| _port := _port m; _transactions := _transactions m; heap := heap m;
     timers := timers m; _timeout := _timeout m; _unitID := id;
     _debugEnabled := _debugEnabled m; _enron := _enron m;
     _enronTables := _enronTables m; calls := calls m |}.


(** [new RTUBufferedPort(path, options)]. *)
Definition new_RTUBufferedPort : RTUBufferedPort :=
  {| _buffer := []; _id := 0; _cmd := 0; _length := Known 0;
     client_isOpen := false; client_written := []; data_listener := false;
     _transactionIdRead := 1; _transactionIdWrite := 1 |}.

(** [new ModbusRTU(port)]. The two transaction ids of the port are
    [undefined] until [open] sets them to 1, and no request passes the
    check of [isOpen] before; they are shown here with the value [open]
    gives them. *)
Definition new_ModbusRTU (port : RTUBufferedPort) : ModbusRTU :=
  {| _port := port; _transactions := ∅; heap := []; timers := [];
     _timeout := None; _unitID := 1; _debugEnabled := false;
     _enron := false; _enronTables := None; calls := [] |}.

(** [open(callback)] when the serial port opens without error: the ids are
    reset and [_onReceive] is registered for the "data" event. *)
Definition open (m : ModbusRTU) : ModbusRTU :=
  let p := _port m in
  set_port {| _buffer := _buffer p; _id := _id p; _cmd := _cmd p;
              _length := _length p; client_isOpen := true;
              client_written := client_written p; data_listener := true;
              _transactionIdRead := 1; _transactionIdWrite := 1 |} m.

(** [close(callback)]: the listeners of "data" are removed and the serial
    port is closed. *)
Definition close (m : ModbusRTU) : ModbusRTU :=
  let p := _port m in
  set_port {| _buffer := _buffer p; _id := _id p; _cmd := _cmd p;
              _length := _length p; client_isOpen := false;
              client_written := client_written p; data_listener := false;
              _transactionIdRead := _transactionIdRead p;
              _transactionIdWrite := _transactionIdWrite p |} m.

Definition isOpen (m : ModbusRTU) : bool := client_isOpen (_port m).

(** ** Control flow: exceptions *)

Inductive exception : Type :=
| RangeError
| TypeError
| StackOverflow.

(** A procedure of the engine returns normally or throws; either way it
    leaves a state. *)
Inductive outcome : Type :=
| Done (m : ModbusRTU)
| Thrown (e : exception) (m : ModbusRTU).

Definition and_then (o : outcome) (f : ModbusRTU → outcome) : outcome :=
  match o with
  | Done m => f m
  | Thrown e m => Thrown e m
  end.

Notation "'do' m <- o ; f" := (and_then o (λ m, f))
  (at level 10, m name, o at level 100, f at level 200).

Definition state_of (o : outcome) : ModbusRTU :=
  match o with
  | Done m => m
  | Thrown _ m => m
  end.

(** ** Calling a callback *)

(** The debug data added to the error and to the result by the function
    [next] of [_onReceive], when the transaction has both [request] and
    [responses]. *)
Definition attach_error (t : transaction) (e : error) : error :=
  {| name := name e; message := message e; modbusCode := modbusCode e;
     modbusRequest := request t; modbusResponses := responses t |}.

Definition attach_result (t : transaction) (r : result) : result :=
  {| value := value r; request_of := request t; responses_of := responses t |}.

Definition has_debug (t : transaction) : bool :=
  match request t, responses t with
  | Some _, Some _ => true
  | _, _ => false
  end.

(** [c(e, r)]. A caller's function is logged. The closure [cb] of
    [_readFC43] runs [data.data = Object.assign(data.data, result)], which
    throws a [TypeError] unless [data] is a result with a field [data] (for
    the transactions that hold [cb] it is the object map of an FC43 result
    or nothing), and then the function [next] of the [_onReceive] that built
    it: [if (transaction.next) { ...; return transaction.next(err, res) }].
    [depth] bounds the nesting of these closures. *)
Fixpoint call_cb (depth : nat) (c : callback) (e : option error)
    (r : option result) (m : ModbusRTU) : outcome :=
  match c with
  | UserCallback k =>
      Done (set_calls (calls m ++ [{| callee := k; err := e; res := r |}]) m)
  | FC43Merge result tx =>
      match r with
      | Some {| value := ResDeviceId d level; request_of := rq; responses_of := rs |} =>
          let r' := {| value := ResDeviceId (result ∪ d) level;
                       request_of := rq; responses_of := rs |} in
          match heap m !! tx with
          | Some t =>
              match next t with
              | Some c' =>
                  match depth with
                  | O => Thrown StackOverflow m
                  | S depth' =>
                      if has_debug t
                      then call_cb depth' c' (attach_error t <$> e)
                             (Some (attach_result t r')) m
                      else call_cb depth' c' e (Some r') m
                  end
              | None => Done m
              end
          | None => Done m
          end
      | _ => Thrown TypeError m
      end
  end.

(** A closure [cb] only holds transactions made before the one that holds
    it, so the nesting is bounded by the number of transactions: this depth
    is never exhausted ([call_callback_deep_enough], [run_order]). *)
Definition call_callback (c : callback) (e : option error) (r : option result)
    (m : ModbusRTU) : outcome :=
  call_cb (List.length (heap m)) c e r m.

(** The function [next] that [_onReceive] defines for the transaction [tx]. *)
Definition receive_next (tx : nat) (e : option error) (r : option result)
    (m : ModbusRTU) : outcome :=
  match heap m !! tx with
  | Some t =>
      match next t with
      | Some c =>
          if has_debug t
          then call_callback c (attach_error t <$> e) (attach_result t <$> r) m
          else call_callback c e r m
      | None => Done m
      end
  | None => Done m
  end.

(** [if (next) next(e)] at the head of the [writeFC] methods. *)
Definition report (next : option callback) (e : error) (m : ModbusRTU) : outcome :=
  match next with
  | Some c => call_callback c (Some e) None m
  | None => Done m
  end.

(** ** index.js: submitting a request *)

(** [!duration]: [null], [undefined] and 0 are falsy. *)
Definition falsy (duration : option Z) : bool :=
  match duration with
  | None => true
  | Some d => d =? 0
  end.

Definition update_transaction (tx : nat) (f : transaction → transaction)
    (m : ModbusRTU) : ModbusRTU :=
  match heap m !! tx with
  | Some t => set_heap (<[tx := f t]> (heap m)) m
  | None => m
  end.

Definition set_timeout_fields (fired : option bool) (handle : option nat)
    (t : transaction) : transaction :=
  {| nextAddress := nextAddress t; nextDataAddress := nextDataAddress t;
     nextCode := nextCode t; nextLength := nextLength t;
     lengthUnknown := lengthUnknown t; next := next t;
     _timeoutFired := fired; _timeoutHandle := handle;
     request := request t; responses := responses t |}.

Definition set_debug_fields (rq : option Buffer) (rs : option (list Buffer))
    (t : transaction) : transaction :=
  {| nextAddress := nextAddress t; nextDataAddress := nextDataAddress t;
     nextCode := nextCode t; nextLength := nextLength t;
     lengthUnknown := lengthUnknown t; next := next t;
     _timeoutFired := _timeoutFired t; _timeoutHandle := _timeoutHandle t;
     request := rq; responses := rs |}.

(** [_startTimeout(duration, transaction)]: the handle of the new timer, or
    [undefined] when the duration is falsy. *)
Definition _startTimeout (duration : option Z) (tx : nat) (m : ModbusRTU)
  : option nat * ModbusRTU :=
  if falsy duration then (None, m)
  else (Some (List.length (timers m)),
        set_timers (timers m ++ [{| timer_tx := tx;
                                    timer_duration := default 0 duration;
                                    timer_pending := true |}]) m).

(** [transaction.nextLength > 0] and [transaction.nextLength === 0]; both
    are false for [undefined]. *)
Definition expects_response (t : transaction) : bool :=
  match nextLength t with
  | Some n => 0 <? n
  | None => false
  end.

Definition expects_nothing (t : transaction) : bool :=
  match nextLength t with
  | Some n => n =? 0
  | None => false
  end.

(** [this._port.write(buffer)]. *)
Definition port_write (buffer : Buffer) (m : ModbusRTU) : outcome :=
  match write buffer (_port m) with
  | Some p => Done (set_port p m)
  | None => Thrown RangeError m
  end.

(** The first block of [_writeBufferToPort]: the timeout is started only
    if a response is expected. *)
Definition arm_timeout (tx : nat) (t : transaction) (m : ModbusRTU) : ModbusRTU :=
  if expects_response t then
    let '(handle, m') := _startTimeout (_timeout m) tx m in
    update_transaction tx (set_timeout_fields (Some false) handle) m'
  else m.

(** The second block: in debug mode a copy of the request is stashed. *)
Definition stash_request (buffer : Buffer) (tx : nat) (m : ModbusRTU) : ModbusRTU :=
  if _debugEnabled m
  then update_transaction tx (set_debug_fields (Some buffer) (Some [])) m
  else m.

(** [_writeBufferToPort.call(this, buffer, transactionId)]. *)
Definition _writeBufferToPort (buffer : Buffer) (transactionId : Z)
    (m : ModbusRTU) : outcome :=
  match _transactions m !! transactionId with
  | Some tx =>
      match heap m !! tx with
      | Some t =>
          let m1 := arm_timeout tx t m in
          let m2 := stash_request buffer tx m1 in
          do m3 <- port_write buffer m2;
          if expects_nothing t
          then
            match next t with
            | Some c => call_callback c None (Some (plain ResEmpty)) m3
            | None => Thrown TypeError m3
            end
          else Done m3
      | None => port_write buffer m
      end
  | None => port_write buffer m
  end.

(** [this._transactions[this._port._transactionIdWrite] = { ... }]: a new
    object takes the slot. *)
Definition set_slot (t : transaction) (m : ModbusRTU) : ModbusRTU :=
  set_transactions
    (<[_transactionIdWrite (_port m) := List.length (heap m)]> (_transactions m))
    (set_heap (heap m ++ [t]) m).

Definition new_transaction (address : Z) (dataAddress : option Z) (code : Z)
    (length : option Z) (unknown : bool) (next : option callback) : transaction :=
  {| nextAddress := address; nextDataAddress := dataAddress; nextCode := code;
     nextLength := length; lengthUnknown := unknown; next := next;
     _timeoutFired := None; _timeoutHandle := None;
     request := None; responses := None |}.

(** The end of every [writeFC] method: the frame is filled in (a write may
    throw) and handed to [_writeBufferToPort]. *)
Definition send (frame : option Buffer) (m : ModbusRTU) : outcome :=
  match frame with
  | Some buf => _writeBufferToPort buf (_transactionIdWrite (_port m)) m
  | None => Thrown RangeError m
  end.

(** [a >= r[0] && a <= r[1]]; a comparison with [undefined] is false. *)
Definition in_short_range (shortRange : list Z) (a : Z) : bool :=
  match shortRange !! 0%nat, shortRange !! 1%nat with
  | Some lo, Some hi => (lo <=? a) && (a <=? hi)
  | _, _ => false
  end.

(** [this._enron && !(dataAddress >= shortRange[0] && dataAddress <=
    shortRange[1])]; [None] when the table is missing ([TypeError]). *)
Definition enron_wide (m : ModbusRTU) (dataAddress : Z) : option bool :=
  if _enron m then
    shortRange ← _enronTables m;
    Some (negb (in_short_range shortRange dataAddress))
  else Some false.

(** The frame of [writeFC2] and [writeFC4]. *)
Definition frame_read (address code dataAddress length : Z) : option Buffer :=
  let codeLength := 6 in
  let buf := alloc (codeLength + 2) in
  buf ← writeUInt8 address 0 buf;
  buf ← writeUInt8 code 1 buf;
  buf ← writeUInt16BE dataAddress 2 buf;
  buf ← writeUInt16BE length 4 buf;
  writeUInt16LE (crc16 (slice buf 0 (-2))) codeLength buf.

(** [code = code || dflt]. *)
Definition code_or (code : option Z) (dflt : Z) : Z :=
  match code with
  | Some c => if c =? 0 then dflt else c
  | None => dflt
  end.

Definition writeFC2 (address dataAddress : option Z) (length : Z)
    (next : option callback) (code : option Z) (m : ModbusRTU) : outcome :=
  if negb (isOpen m) then report next new_PortNotOpenError m
  else
    match address, dataAddress with
    | Some address, Some dataAddress =>
        if address =? BROADCAST_ADDRESS
        then report next new_BroadcastNotAllowedError m
        else
          let code := code_or code 2 in
          let m1 := set_slot (new_transaction address None code
                      (Some (3 + parseInt_eighths length + 2)) false next) m in
          send (frame_read address code dataAddress length) m1
    | _, _ => report next new_BadAddressError m
    end.

Definition writeFC1 (address dataAddress : option Z) (length : Z)
    (next : option callback) (m : ModbusRTU) : outcome :=
  writeFC2 address dataAddress length next (Some 1) m.

Definition writeFC4 (address dataAddress : option Z) (length : Z)
    (next : option callback) (code : option Z) (m : ModbusRTU) : outcome :=
  if negb (isOpen m) then report next new_PortNotOpenError m
  else
    match address, dataAddress with
    | Some address, Some dataAddress =>
        if address =? BROADCAST_ADDRESS
        then report next new_BroadcastNotAllowedError m
        else
          let code := code_or code 4 in
          match enron_wide m dataAddress with
          | None => Thrown TypeError m
          | Some wide =>
              let valueSize := if wide then 4 else 2 in
              let m1 := set_slot (new_transaction address (Some dataAddress) code
                          (Some (3 + valueSize * length + 2)) false next) m in
              send (frame_read address code dataAddress length) m1
          end
    | _, _ => report next new_BadAddressError m
    end.

Definition writeFC3 (address dataAddress : option Z) (length : Z)
    (next : option callback) (m : ModbusRTU) : outcome :=
  writeFC4 address dataAddress length next (Some 3) m.

Definition frame_FC5 (address code dataAddress : Z) (state : bool) : option Buffer :=
  let codeLength := 6 in
  let buf := alloc (codeLength + 2) in
  buf ← writeUInt8 address 0 buf;
  buf ← writeUInt8 code 1 buf;
  buf ← writeUInt16BE dataAddress 2 buf;
  buf ← (if state then writeUInt16BE 0xff00 4 buf else writeUInt16BE 0x0000 4 buf);
  writeUInt16LE (crc16 (slice buf 0 (-2))) codeLength buf.

Definition writeFC5 (address dataAddress : option Z) (state : bool)
    (next : option callback) (m : ModbusRTU) : outcome :=
  if negb (isOpen m) then report next new_PortNotOpenError m
  else
    match address, dataAddress with
    | Some address, Some dataAddress =>
        let responseLength := if address =? BROADCAST_ADDRESS then 0 else 8 in
        let code := 5 in
        let m1 := set_slot (new_transaction address None code
                    (Some responseLength) false next) m in
        send (frame_FC5 address code dataAddress state) m1
    | _, _ => report next new_BadAddressError m
    end.

Definition frame_FC7 (address code : Z) : option Buffer :=
  let codeLength := 2 in
  let buf := alloc (codeLength + 2) in
  buf ← writeUInt8 address 0 buf;
  buf ← writeUInt8 code 1 buf;
  writeUInt16LE (crc16 (slice buf 0 (-2))) codeLength buf.

Definition writeFC7 (address : option Z) (next : option callback)
    (m : ModbusRTU) : outcome :=
  if negb (isOpen m) then report next new_PortNotOpenError m
  else
    match address with
    | Some address =>
        if address =? BROADCAST_ADDRESS
        then report next new_BroadcastNotAllowedError m
        else
          let code := 7 in
          let m1 := set_slot (new_transaction address None code (Some 5) false next) m in
          send (frame_FC7 address code) m1
    | None => report next new_BadAddressError m
    end.

Definition frame_FC43 (address code deviceIdCode objectId : Z) : option Buffer :=
  let codeLength := 5 in
  let buf := alloc (codeLength + 2) in
  buf ← writeUInt8 address 0 buf;
  buf ← writeUInt8 code 1 buf;
  buf ← writeUInt8 0x0E 2 buf;
  buf ← writeUInt8 deviceIdCode 3 buf;
  buf ← writeUInt8 objectId 4 buf;
  writeUInt16LE (crc16 (slice buf 0 (-2))) codeLength buf.

Definition writeFC43 (address : option Z) (deviceIdCode objectId : Z)
    (next : option callback) (m : ModbusRTU) : outcome :=
  if negb (isOpen m) then report next new_PortNotOpenError m
  else
    match address with
    | Some address =>
        if address =? BROADCAST_ADDRESS
        then report next new_BroadcastNotAllowedError m
        else
          let code := 0x2B in
          let m1 := set_slot (new_transaction address None code None true next) m in
          send (frame_FC43 address code deviceIdCode objectId) m1
    | None => report next new_BadAddressError m
    end.

(** [source.copy(target, targetStart)]: as many bytes as fit are copied. *)
Fixpoint copy_at (source : Buffer) (target : Buffer) (targetStart : nat) : Buffer :=
  match source with
  | [] => target
  | b :: rest => copy_at rest (<[targetStart := b]> target) (S targetStart)
  end.

(** The value of [writeFC6] and the array of [writeFC16] are numbers or a
    prepared [Buffer]. *)
Inductive payload (A : Type) : Type :=
| Numbers (v : A)
| Raw (b : Buffer).
Arguments Numbers {A} v.
Arguments Raw {A} b.

Definition frame_FC6 (address code dataAddress : Z) (value : payload Z)
    (wide : bool) : option Buffer :=
  let codeLength := if wide then 8 else 6 in
  let buf := alloc (codeLength + 2) in
  buf ← writeUInt8 address 0 buf;
  buf ← writeUInt8 code 1 buf;
  buf ← writeUInt16BE dataAddress 2 buf;
  buf ← match value with
        | Raw b => Some (copy_at b buf 4)
        | Numbers v => if wide then writeUInt32BE v 4 buf else writeUInt16BE v 4 buf
        end;
  writeUInt16LE (crc16 (slice buf 0 (-2))) codeLength buf.

Definition writeFC6 (address dataAddress : option Z) (value : payload Z)
    (next : option callback) (m : ModbusRTU) : outcome :=
  if negb (isOpen m) then report next new_PortNotOpenError m
  else
    match address, dataAddress with
    | Some address, Some dataAddress =>
        let code := 6 in
        match enron_wide m dataAddress with
        | None => Thrown TypeError m
        | Some wide =>
            let responseLength :=
              if address =? BROADCAST_ADDRESS then 0
              else if wide then 10 else 8 in
            let m1 := set_slot (new_transaction address (Some dataAddress) code
                        (Some responseLength) false next) m in
            send (frame_FC6 address code dataAddress value wide) m1
        end
    | _, _ => report next new_BadAddressError m
    end.

(** The loop [for (i = 0; i < n; i++) buf.writeUInt8(0, 7 + i)]. *)
Fixpoint clear_bytes (n : nat) (offset : Z) (buf : Buffer) : option Buffer :=
  match n with
  | O => Some buf
  | S n' => buf ← writeUInt8 0 offset buf; clear_bytes n' (offset + 1) buf
  end.

Section WriteCoils.

(** [buf.writeBit(value, bit, offset)] comes from [utils/buffer_bit.js],
    which is not among the sources; it is a parameter of [writeFC15]. *)
Variable writeBit : Z → Z → Z → Buffer → option Buffer.

(** The loop [if (array[i]) buf.writeBit(1, i, 7)]. *)
Fixpoint write_bits (array : list bool) (i : Z) (buf : Buffer) : option Buffer :=
  match array with
  | [] => Some buf
  | b :: rest =>
      buf ← (if b then writeBit 1 i 7 buf else Some buf);
      write_bits rest (i + 1) buf
  end.

Definition frame_FC15 (address code dataAddress : Z) (array : list bool)
  : option Buffer :=
  let length := Z.of_nat (List.length array) in
  let dataBytes := (length + 7) / 8 in
  let codeLength := 7 + dataBytes in
  let buf := alloc (codeLength + 2) in
  buf ← writeUInt8 address 0 buf;
  buf ← writeUInt8 code 1 buf;
  buf ← writeUInt16BE dataAddress 2 buf;
  buf ← writeUInt16BE length 4 buf;
  buf ← writeUInt8 dataBytes 6 buf;
  buf ← clear_bytes (Z.to_nat dataBytes) 7 buf;
  buf ← write_bits array 0 buf;
  writeUInt16LE (crc16 (slice buf 0 (-2))) codeLength buf.

Definition writeFC15 (address dataAddress : option Z) (array : list bool)
    (next : option callback) (m : ModbusRTU) : outcome :=
  if negb (isOpen m) then report next new_PortNotOpenError m
  else
    match address, dataAddress with
    | Some address, Some dataAddress =>
        let code := 15 in
        let responseLength := if address =? BROADCAST_ADDRESS then 0 else 8 in
        let m1 := set_slot (new_transaction address None code
                    (Some responseLength) false next) m in
        send (frame_FC15 address code dataAddress array) m1
    | _, _ => report next new_BadAddressError m
    end.

End WriteCoils.

(** The loop [buf.writeUInt16BE(array[i], 7 + 2 * i)]. *)
Fixpoint write_registers (array : list Z) (offset : Z) (buf : Buffer) : option Buffer :=
  match array with
  | [] => Some buf
  | v :: rest => buf ← writeUInt16BE v offset buf; write_registers rest (offset + 2) buf
  end.

(** For a [Buffer] of odd length [dataLength] is a half-integer: the
    allocation and the byte count use its double, the 16-bit write drops
    the fraction. *)
Definition frame_FC16 (address code dataAddress : Z) (array : payload (list Z))
  : option Buffer :=
  let twice_dataLength :=
    match array with
    | Numbers l => 2 * Z.of_nat (List.length l)
    | Raw b => blen b
    end in
  let codeLength := 7 + twice_dataLength in
  let buf := alloc (codeLength + 2) in
  buf ← writeUInt8 address 0 buf;
  buf ← writeUInt8 code 1 buf;
  buf ← writeUInt16BE dataAddress 2 buf;
  buf ← writeUInt16BE (twice_dataLength / 2) 4 buf;
  buf ← writeUInt8 twice_dataLength 6 buf;
  buf ← match array with
        | Raw b => Some (copy_at b buf 7)
        | Numbers l => write_registers l 7 buf
        end;
  writeUInt16LE (crc16 (slice buf 0 (-2))) codeLength buf.

Definition writeFC16 (address dataAddress : option Z) (array : payload (list Z))
    (next : option callback) (m : ModbusRTU) : outcome :=
  if negb (isOpen m) then report next new_PortNotOpenError m
  else
    match address, dataAddress with
    | Some address, Some dataAddress =>
        let code := 16 in
        let responseLength := if address =? BROADCAST_ADDRESS then 0 else 8 in
        let m1 := set_slot (new_transaction address None code
                    (Some responseLength) false next) m in
        send (frame_FC16 address code dataAddress array) m1
    | _, _ => report next new_BadAddressError m
    end.

Definition frame_FC20 (address code fileNumber recordNumber recordLength
    referenceType : Z) : option Buffer :=
  let byteCount := 7 in
  let codeLength := 10 in
  let buf := alloc (codeLength + 2) in
  buf ← writeUInt8 address 0 buf;
  buf ← writeUInt8 code 1 buf;
  buf ← writeUInt8 byteCount 2 buf;
  buf ← writeUInt8 referenceType 3 buf;
  buf ← writeUInt16BE fileNumber 4 buf;
  buf ← writeUInt16BE recordNumber 6 buf;
  buf ← writeUInt8 recordLength 9 buf;
  writeUInt16LE (crc16 (slice buf 0 (-2))) codeLength buf.

Definition writeFC20 (address : option Z) (fileNumber recordNumber recordLength
    referenceType : Z) (next : option callback) (m : ModbusRTU) : outcome :=
  if negb (isOpen m) then report next new_PortNotOpenError m
  else
    match address with
    | Some address =>
        if address =? BROADCAST_ADDRESS
        then report next new_BroadcastNotAllowedError m
        else
          let code := 20 in
          let responseLength := 5 + recordLength * 2 + 2 in
          let m1 := set_slot (new_transaction address None code
                      (Some responseLength) false next) m in
          send (frame_FC20 address code fileNumber recordNumber recordLength
                  referenceType) m1
    | None => report next new_BadAddressError m
    end.

Definition frame_FC65 (address code : Z) (parameterNumbers : list Z) : option Buffer :=
  let quantityOfParameters := Z.of_nat (List.length parameterNumbers) in
  let codeLength := 3 + 2 * quantityOfParameters in
  let buf := alloc (codeLength + 2) in
  buf ← writeUInt8 address 0 buf;
  buf ← writeUInt8 code 1 buf;
  buf ← writeUInt8 quantityOfParameters 2 buf;
  buf ← write_registers parameterNumbers 3 buf;
  writeUInt16LE (crc16 (slice buf 0 (-2))) codeLength buf.

Definition writeFC65 (address : option Z) (parameterNumbers : list Z)
    (next : option callback) (m : ModbusRTU) : outcome :=
  if negb (isOpen m) then report next new_PortNotOpenError m
  else
    match address with
    | Some address =>
        if 16 <? Z.of_nat (List.length parameterNumbers)
        then report next new_BadAddressError m
        else if address =? BROADCAST_ADDRESS
        then report next new_BroadcastNotAllowedError m
        else
          let code := 0x41 in
          let quantityOfParameters := Z.of_nat (List.length parameterNumbers) in
          let m1 := set_slot (new_transaction address None code
                      (Some (4 + 2 * quantityOfParameters + 3)) false next) m in
          send (frame_FC65 address code parameterNumbers) m1
    | None => report next new_BadAddressError m
    end.

(** ** index.js: the timeout *)

Definition set_timer_pending (pending : bool) (t : timer) : timer :=
  {| timer_tx := timer_tx t; timer_duration := timer_duration t;
     timer_pending := pending |}.

(** [clearTimeout(timeoutHandle)]; nothing happens for [undefined]. *)
Definition _cancelTimeout (timeoutHandle : option nat) (m : ModbusRTU) : ModbusRTU :=
  match timeoutHandle with
  | Some h =>
      match timers m !! h with
      | Some t => set_timers (<[h := set_timer_pending false t]> (timers m)) m
      | None => m
      end
  | None => m
  end.

(** The function given to [setTimeout] in [_startTimeout], run by the event
    loop when the timer [h] is due; a timer that was cleared or has fired
    does not run. *)
Definition timer_fires (h : nat) (m : ModbusRTU) : outcome :=
  match timers m !! h with
  | Some tm =>
      if timer_pending tm then
        let tx := timer_tx tm in
        let m1 := set_timers (<[h := set_timer_pending false tm]> (timers m)) m in
        let m2 := update_transaction tx
                    (λ t, set_timeout_fields (Some true) (_timeoutHandle t) t) m1 in
        match heap m2 !! tx with
        | Some t =>
            match next t with
            | Some c =>
                let err := new_TransactionTimedOutError in
                let err := if has_debug t then attach_error t err else err in
                call_callback c (Some err) None m2
            | None => Done m2
            end
        | None => Done m2
        end
      else Done m
  | None => Done m
  end.

(** ** index.js: the receive procedure *)

Definition push_response (data : Buffer) (t : transaction) : transaction :=
  match responses t with
  | Some rs => set_debug_fields (request t) (Some (rs ++ [data])) t
  | None => t
  end.

Definition quote : string := String (ascii_of_nat 34) EmptyString.

(** [JSON.stringify(example)]. *)
Definition example_json : string :=
  ("{" ++ quote ++ "enronTables" ++ quote ++ ":{"
   ++ quote ++ "booleanRange" ++ quote ++ ":[1001,1999],"
   ++ quote ++ "shortRange" ++ quote ++ ":[3001,3999],"
   ++ quote ++ "longRange" ++ quote ++ ":[5001,5999],"
   ++ quote ++ "floatRange" ++ quote ++ ":[7001,7999]}}")%string.

(** A number or [undefined] in a string concatenation. *)
Definition string_of_number (n : option Z) : string :=
  match n with
  | Some z => string_of_Z z
  | None => "undefined"
  end.

Definition length_error (t : transaction) (data : Buffer) : error :=
  new_error Error ("Data length error, expected " ++ string_of_number (nextLength t)
                   ++ " got " ++ string_of_Z (blen data))%string.

(** [modbusErrorMessages[errorCode] || "Unknown error"]. *)
Definition exception_text (errorCode : Z) : string :=
  default "Unknown error"%string (modbusErrorMessages !! Z.to_nat errorCode).

Definition exception_error (errorCode : Z) : error :=
  {| name := Error;
     message := ("Modbus exception " ++ string_of_Z errorCode ++ ": "
                 ++ exception_text errorCode)%string;
     modbusCode := Some errorCode;
     modbusRequest := None; modbusResponses := None |}.

(** The check of the Enron options: the table is missing, or its
    [shortRange] is not a pair in increasing order. *)
Definition enron_tables_invalid (m : ModbusRTU) : bool :=
  match _enronTables m with
  | None => true
  | Some shortRange =>
      negb (Nat.eqb (List.length shortRange) 2)
      || match shortRange !! 0%nat, shortRange !! 1%nat with
         | Some lo, Some hi => hi <=? lo
         | _, _ => false
         end
  end.

(** [modbus._enron && !(transaction.nextDataAddress >= shortRange[0] &&
    transaction.nextDataAddress <= shortRange[1])], once the table is known
    to be well formed. *)
Definition enron_decoding (m : ModbusRTU) (t : transaction) : bool :=
  _enron m &&
  negb match _enronTables m, nextDataAddress t with
       | Some shortRange, Some a => in_short_range shortRange a
       | _, _ => false
       end.

(** A decoder that ends in [if (next) next(null, result)] with the function
    [next] of [_onReceive]; a read outside the frame throws. *)
Definition decoded (r : option response) (tx : nat) (m : ModbusRTU) : outcome :=
  match r with
  | Some v => receive_next tx None (Some (plain v)) m
  | None => Thrown RangeError m
  end.

(** The [switch (code)] at the end of [_onReceive]. *)
Definition dispatch (code : Z) (data : Buffer) (tx : nat) (t : transaction)
    (m : ModbusRTU) : outcome :=
  if (code =? 1) || (code =? 2) then decoded (_readFC2 data) tx m
  else if (code =? 3) || (code =? 4) then
    if enron_decoding m t then decoded (_readFC3or4Enron data) tx m
    else decoded (_readFC3or4 data) tx m
  else if code =? 5 then decoded (_readFC5 data) tx m
  else if code =? 6 then
    if enron_decoding m t then decoded (_readFC6Enron data) tx m
    else decoded (_readFC6 data) tx m
  else if code =? 7 then decoded (_readFC7 data) tx m
  else if (code =? 15) || (code =? 16) then decoded (_readFC16 data) tx m
  else if code =? 20 then
    (* [_readFC20(data, transaction.next)] *)
    match _readFC20 data with
    | Some v =>
        match next t with
        | Some c => call_callback c None (Some (plain v)) m
        | None => Done m
        end
    | None => Thrown RangeError m
    end
  else if code =? 43 then
    match _readFC43 data with
    | Some (FollowUp address deviceIdCode objectId result) =>
        writeFC43 (Some address) deviceIdCode objectId (Some (FC43Merge result tx)) m
    | Some (Deliver v) => receive_next tx None (Some (plain v)) m
    | None => Thrown RangeError m
    end
  else if code =? 65 then decoded (_readFC65 data) tx m
  else Done m.

(** [next(new Error(message))]. *)
Definition fail (message : string) (tx : nat) (m : ModbusRTU) : outcome :=
  receive_next tx (Some (new_error Error message)) None m.

Definition _onReceive (data : Buffer) (m : ModbusRTU) : outcome :=
  match _transactions m !! _transactionIdRead (_port m) with
  | None => Done m
  | Some tx =>
      match heap m !! tx with
      | None => Done m
      | Some t0 =>
          (* the frame is stashed and the timeout cancelled *)
          let t := set_timeout_fields (_timeoutFired t0) None (push_response data t0) in
          let m := set_heap (<[tx := t]> (heap m)) (_cancelTimeout (_timeoutHandle t0) m) in
          if bool_decide (_timeoutFired t = Some true) then Done m
          else if negb (lengthUnknown t) && (blen data <? 5)
          then receive_next tx (Some (length_error t data)) None m
          else
            match readUInt16LE data (blen data - 2) with
            | None => Thrown RangeError m
            | Some crcIn =>
                if negb (crcIn =? crc16 (slice data 0 (-2)))
                then fail "CRC error" tx m
                else
                  match readUInt8 data 0, readUInt8 data 1 with
                  | Some address, Some code =>
                      if (5 <=? blen data) && (code =? Z.lor 0x80 (nextCode t)) then
                        match readUInt8 data 2 with
                        | Some errorCode =>
                            receive_next tx (Some (exception_error errorCode)) None m
                        | None => Thrown RangeError m
                        end
                      else if _enron m && enron_tables_invalid m then
                        fail ("Enron table definition missing from options. Example: "
                              ++ example_json) tx m
                      else if negb (lengthUnknown t)
                              && negb (bool_decide (Some (blen data) = nextLength t))
                      then receive_next tx (Some (length_error t data)) None m
                      else if negb (address =? nextAddress t) then
                        fail ("Unexpected data error, expected address "
                              ++ string_of_Z (nextAddress t) ++ " got "
                              ++ string_of_Z address) tx m
                      else if negb (code =? nextCode t) then
                        fail ("Unexpected data error, expected code "
                              ++ string_of_Z (nextCode t) ++ " got "
                              ++ string_of_Z code) tx m
                      else dispatch code data tx t m
                  | _, _ => Thrown RangeError m
                  end
            end
      end
  end.

(** ** The port hands a frame to the engine *)

(** [_emitData(start, length)]: the listener of "data" runs inside [emit],
    and the buffer is cut after it returns (not when it throws). *)
Definition _emitData (start length : Z) (m : ModbusRTU) : outcome :=
  let buffer := slice (_buffer (_port m)) start (start + length) in
  do m1 <- (if data_listener (_port m) then _onReceive buffer m else Done m);
  Done (set_port (set_buffer (slice_from (_buffer (_port m1)) (start + length))
                    (_port m1)) m1).

(** The handler [onData] of the serial port's "data" event. *)
Definition onData (data : Buffer) (m : ModbusRTU) : outcome :=
  let '(p, found) := onData_scan data (_port m) in
  let m1 := set_port p m in
  match found with
  | Some (start, length) => _emitData start length m1
  | None => Done m1
  end.

(** ** Requests and runs *)

(** The public operations, each with the arguments of its [writeFC] method. *)
Inductive operation : Type :=
| ReadCoils (address dataAddress : option Z) (length : Z)
| ReadDiscreteInputs (address dataAddress : option Z) (length : Z)
| ReadHoldingRegisters (address dataAddress : option Z) (length : Z)
| ReadInputRegisters (address dataAddress : option Z) (length : Z)
| WriteCoil (address dataAddress : option Z) (state : bool)
| WriteRegister (address dataAddress : option Z) (value : payload Z)
| ReadExceptionStatus (address : option Z)
| WriteCoils (address dataAddress : option Z) (array : list bool)
| WriteRegisters (address dataAddress : option Z) (array : payload (list Z))
| ReadFileRecords (address : option Z)
    (fileNumber recordNumber recordLength referenceType : Z)
| ReadDeviceIdentification (address : option Z) (deviceIdCode objectId : Z)
| ReadCompressed (address : option Z) (parameterNumbers : list Z).

Definition submit (writeBit : Z → Z → Z → Buffer → option Buffer)
    (r : operation) (next : option callback) (m : ModbusRTU) : outcome :=
  match r with
  | ReadCoils a d l => writeFC1 a d l next m
  | ReadDiscreteInputs a d l => writeFC2 a d l next None m
  | ReadHoldingRegisters a d l => writeFC3 a d l next m
  | ReadInputRegisters a d l => writeFC4 a d l next None m
  | WriteCoil a d st => writeFC5 a d st next m
  | WriteRegister a d v => writeFC6 a d v next m
  | ReadExceptionStatus a => writeFC7 a next m
  | WriteCoils a d arr => writeFC15 writeBit a d arr next m
  | WriteRegisters a d arr => writeFC16 a d arr next m
  | ReadFileRecords a f rn rl rt => writeFC20 a f rn rl rt next m
  | ReadDeviceIdentification a c o => writeFC43 a c o next m
  | ReadCompressed a ps => writeFC65 a ps next m
  end.

(** What comes in: the port emits a frame to the engine, or the serial line
    delivers a chunk of bytes to the port. *)
Inductive inbound : Type :=
| Frame (data : Buffer)
| SerialData (data : Buffer).

Definition receive (i : inbound) (m : ModbusRTU) : outcome :=
  match i with
  | Frame data => _onReceive data m
  | SerialData data => onData data m
  end.

(** Frames and chunks come in one after the other. *)
Fixpoint receive_all (l : list inbound) (m : ModbusRTU) : outcome :=
  match l with
  | [] => Done m
  | i :: rest => do m' <- receive i m; receive_all rest m'
  end.

(** An engine on a fresh port, opened. *)
Definition engine0 : ModbusRTU := open (new_ModbusRTU new_RTUBufferedPort).

(** The timeout of the transaction in the slot being read has fired. *)
Definition timeout_latched (m : ModbusRTU) : Prop :=
  ∃ tx t, _transactions m !! _transactionIdRead (_port m) = Some tx
          ∧ heap m !! tx = Some t ∧ _timeoutFired t = Some true.

(** The timer [h] has fired or was cleared. *)
Definition timer_spent (h : nat) (m : ModbusRTU) : Prop :=
  ∃ tm, timers m !! h = Some tm ∧ timer_pending tm = false.

(** The timers after a step from [m] to [s]: the same, or one more, made
    under a configured duration that is not 0. *)
Definition timers_after (m s : ModbusRTU) : Prop :=
  timers s = timers m
  ∨ ∃ d tx, _timeout m = Some d ∧ d ≠ 0
            ∧ timers s = timers m ++ [{| timer_tx := tx; timer_duration := d;
                                         timer_pending := true |}].

(** What can happen to an engine: a request is submitted, something comes
    in, a timer comes due. *)
Inductive event : Type :=
| Submit (r : operation) (next : option callback)
| Receive (i : inbound)
| TimerDue (h : nat).

Definition step (writeBit : Z → Z → Z → Buffer → option Buffer)
    (ev : event) (m : ModbusRTU) : outcome :=
  match ev with
  | Submit r next => submit writeBit r next m
  | Receive i => receive i m
  | TimerDue h => timer_fires h m
  end.

(** The state after a sequence of events; an exception ends the handler
    that threw it and leaves its state to the next event. *)
Fixpoint run (writeBit : Z → Z → Z → Buffer → option Buffer)
    (events : list event) (m : ModbusRTU) : ModbusRTU :=
  match events with
  | [] => m
  | ev :: rest => run writeBit rest (state_of (step writeBit ev m))
  end.

(** The call hands the timed-out error to the callback. *)
Definition timed_out_call (c : call) : Prop :=
  name <$> err c = Some TransactionTimedOutError.

(** From [m] to [s] the log only grew, and by no timed-out call. *)
Definition no_timeout_reported (m s : ModbusRTU) : Prop :=
  ∃ new, calls s = calls m ++ new ∧ Forall (λ c, ¬ timed_out_call c) new.

(** No timer is waiting to fire. *)
Definition no_pending_timer (m : ModbusRTU) : Prop :=
  Forall (λ t, timer_pending t = false) (timers m).

(** The engine has no duration configured and no timer waiting. *)
Definition calm (m : ModbusRTU) : Prop :=
  falsy (_timeout m) = true ∧ no_pending_timer m.

(** From [m] to [s] the duration is kept, no timed-out call is logged, and
    a calm engine gets no waiting timer. *)
Definition stays_calm (m s : ModbusRTU) : Prop :=
  _timeout s = _timeout m ∧ no_timeout_reported m s
  ∧ (calm m → no_pending_timer s).

(** A merging closure held by a transaction points to an earlier one. *)
Definition closures_ordered (m : ModbusRTU) : Prop :=
  ∀ tx t result tx', heap m !! tx = Some t →
    next t = Some (FC43Merge result tx') → (tx' < tx)%nat.

(** The callback, if it is a merging closure, points into the heap. *)
Definition closure_in_heap (next : option callback) (m : ModbusRTU) : Prop :=
  ∀ result tx, next = Some (FC43Merge result tx) → (tx < List.length (heap m))%nat.

(** From [m] to [s] the heap only grows and the closures stay ordered. *)
Definition keeps_order (m s : ModbusRTU) : Prop :=
  (List.length (heap m) <= List.length (heap s))%nat
  ∧ (closures_ordered m → closures_ordered s).

(** The callbacks that callers pass with their requests are their own
    functions. *)
Definition callers_event (ev : event) : Prop :=
  match ev with
  | Submit _ (Some (FC43Merge _ _)) => False
  | _ => True
  end.

(** Every element of the buffer is a byte. *)
Definition bytes (b : Buffer) : Prop := Forall (λ x, 0 <= x < 256) b.

(** A step [o] from the state [m] keeps the part [f] of the state. *)
Definition keeps {A} (f : ModbusRTU → A) (m : ModbusRTU) (o : outcome) : Prop :=
  f (state_of o) = f m.

Abbreviation rx_buffer := (λ s : ModbusRTU, _buffer (_port s)).

(** The total length of an FC20 answer as the specification words it:
    5 + buffer[i+2] + 2. *)
Definition spec_FC20_total_length (responseDataLength : Z) : Z :=
  5 + responseDataLength + 2.

(** ** Frames, answers and runs: the vocabulary of the properties *)

(** What the engine checks of a frame: [crcIn === crc16(data.slice(0, -2))]. *)
Definition passes_crc (data : Buffer) : Prop :=
  readUInt16LE data (blen data - 2) = Some (crc16 (slice data 0 (-2))).

(** The frames that the [writeFC] methods build, before they are handed to
    [_writeBufferToPort]. *)
Inductive request_frame : Buffer → Prop :=
| frame_of_read address code dataAddress length f :
    frame_read address code dataAddress length = Some f → request_frame f
| frame_of_FC5 address code dataAddress state f :
    frame_FC5 address code dataAddress state = Some f → request_frame f
| frame_of_FC6 address code dataAddress value wide f :
    frame_FC6 address code dataAddress value wide = Some f → request_frame f
| frame_of_FC7 address code f :
    frame_FC7 address code = Some f → request_frame f
| frame_of_FC16 address code dataAddress array f :
    frame_FC16 address code dataAddress array = Some f → request_frame f
| frame_of_FC20 address code fileNumber recordNumber recordLength referenceType f :
    frame_FC20 address code fileNumber recordNumber recordLength referenceType = Some f →
    request_frame f
| frame_of_FC43 address code deviceIdCode objectId f :
    frame_FC43 address code deviceIdCode objectId = Some f → request_frame f
| frame_of_FC65 address code parameterNumbers f :
    frame_FC65 address code parameterNumbers = Some f → request_frame f.

(** The checks of [_onReceive] that come before the decoding of a frame:
    the CRC, the length unless it is unknown, the unit address and the
    function code. *)
Definition accepted (t : transaction) (data : Buffer) : Prop :=
  passes_crc data
  ∧ readUInt8 data 0 = Some (nextAddress t)
  ∧ readUInt8 data 1 = Some (nextCode t)
  ∧ (lengthUnknown t = false → 5 <= blen data ∧ nextLength t = Some (blen data)).

(** What a step from [m] to [s] hands to the caller's function [k]: at most
    one call, with an error or with a result, and with a result only if
    [valid] holds. *)
Definition answers_once (k : nat) (valid : Prop) (m s : ModbusRTU) : Prop :=
  ∃ new, calls s = calls m ++ new ∧ (List.length new <= 1)%nat
         ∧ ∀ c, c ∈ new → callee c = k ∧ (err c = None ↔ is_Some (res c))
                           ∧ (is_Some (res c) → valid).

(** What the scan emits when the remembered function code is neither 20
    nor 43: a frame that lies in the buffer, starts with the remembered unit
    id, and is either an answer of the expected length or an exception
    answer of five bytes. *)
Definition whole_frame (p : RTUBufferedPort) (buffer : Buffer) (bufferLength : Z)
    (start length : Z) : Prop :=
  0 <= start ∧ start + length <= bufferLength
  ∧ buf_get buffer start = Some (_id p)
  ∧ ((buf_get buffer (start + 1) = Some (_cmd p) ∧ _length p = Known length)
     ∨ (buf_get buffer (start + 1) = Some (Z.lor 0x80 (_cmd p))
        ∧ length = EXCEPTION_LENGTH)).

(** The bytes that the serial line delivers over a run of events. *)
Definition serial_bytes (events : list event) : Buffer :=
  mbind (λ ev, match ev with Receive (SerialData data) => data | _ => [] end) events.

(** The unit address a request is made with. *)
Definition unit_address (r : operation) : option Z :=
  match r with
  | ReadCoils a _ _ | ReadDiscreteInputs a _ _ | ReadHoldingRegisters a _ _
  | ReadInputRegisters a _ _ | WriteCoil a _ _ | WriteRegister a _ _
  | ReadExceptionStatus a | WriteCoils a _ _ | WriteRegisters a _ _
  | ReadFileRecords a _ _ _ _ | ReadDeviceIdentification a _ _
  | ReadCompressed a _ => a
  end.

(** The sanity check of the [writeFC] methods: the unit address is
    [undefined], or the data address of a request that has one, or the list
    of [writeFC65] has more than sixteen parameter numbers. *)
Definition bad_address (r : operation) : bool :=
  match r with
  | ReadCoils a d _ | ReadDiscreteInputs a d _ | ReadHoldingRegisters a d _
  | ReadInputRegisters a d _ | WriteCoil a d _ | WriteRegister a d _
  | WriteCoils a d _ | WriteRegisters a d _ =>
      bool_decide (a = None) || bool_decide (d = None)
  | ReadExceptionStatus a | ReadFileRecords a _ _ _ _
  | ReadDeviceIdentification a _ _ => bool_decide (a = None)
  | ReadCompressed a ps =>
      bool_decide (a = None) || (16 <? Z.of_nat (List.length ps))
  end.

(** The requests that set [responseLength = 0] for the broadcast address;
    the others refuse it. *)
Definition takes_broadcast (r : operation) : bool :=
  match r with
  | WriteCoil _ _ _ | WriteRegister _ _ _ | WriteCoils _ _ _ | WriteRegisters _ _ _ => true
  | _ => false
  end.

(** From [m] to [s] the timers that exist stay as they are; new ones may
    follow them. *)
Definition timers_kept (m s : ModbusRTU) : Prop :=
  ∃ more, timers s = timers m ++ more.


(** An object of an FC43 answer as it lies in the frame: its id, the
    number of its bytes, its bytes. *)
Definition fc43_object (o : Z * Buffer) : Buffer := o.1 :: blen o.2 :: o.2.

(** The objects of an answer, one after the other. *)
Definition fc43_list (objects : list (Z * Buffer)) : Buffer :=
  mbind fc43_object objects.

(** The object map that the decoder builds from a list of objects. *)
Definition fc43_map (objects : list (Z * Buffer)) (acc : gmap Z string) : gmap Z string :=
  foldl (λ acc o, <[o.1 := string_of_list_ascii (ascii_of_byte <$> o.2)]> acc) acc objects.

(** ** Read Device Identification: the merging closures *)




(** ** apis/promise.js *)

(** [getID] and [getTimeout], beside [setID] and [setTimeout] above. *)
Definition getID (m : ModbusRTU) : Z := _unitID m.

Definition getTimeout (m : ModbusRTU) : option Z := _timeout m.

(** The methods that [addPromiseAPI] makes with [_convert], each with the
    arguments of its [writeFC] method after the unit address. *)
Inductive api_method : Type :=
| readCoils (dataAddress : option Z) (length : Z)
| readDiscreteInputs (dataAddress : option Z) (length : Z)
| readHoldingRegisters (dataAddress : option Z) (length : Z)
| readRegistersEnron (dataAddress : option Z) (length : Z)
| readInputRegisters (dataAddress : option Z) (length : Z)
| writeCoil (dataAddress : option Z) (state : bool)
| writeRegister (dataAddress : option Z) (value : payload Z)
| writeRegisterEnron (dataAddress : option Z) (value : payload Z)
| writeCoils (dataAddress : option Z) (array : list bool)
| writeRegisters (dataAddress : option Z) (array : payload (list Z))
| readFileRecords (fileNumber recordNumber recordLength referenceType : Z)
| readExceptionStatus
| readDeviceIdentification (deviceIdCode objectId : Z)
| readCompressed (parameterNumbers : list Z).

(** The table of [addPromiseAPI]: the [writeFC] method that each method
    converts, called as [f.bind(client)(id, ...args, next)]. *)
Definition bound_call (id : Z) (c : api_method) : operation :=
  match c with
  | readCoils d l => ReadCoils (Some id) d l
  | readDiscreteInputs d l => ReadDiscreteInputs (Some id) d l
  | readHoldingRegisters d l => ReadHoldingRegisters (Some id) d l
  | readRegistersEnron d l => ReadHoldingRegisters (Some id) d l
  | readInputRegisters d l => ReadInputRegisters (Some id) d l
  | writeCoil d st => WriteCoil (Some id) d st
  | writeRegister d v => WriteRegister (Some id) d v
  | writeRegisterEnron d v => WriteRegister (Some id) d v
  | writeCoils d arr => WriteCoils (Some id) d arr
  | writeRegisters d arr => WriteRegisters (Some id) d arr
  | readFileRecords f rn rl rt => ReadFileRecords (Some id) f rn rl rt
  | readExceptionStatus => ReadExceptionStatus (Some id)
  | readDeviceIdentification c o => ReadDeviceIdentification (Some id) c o
  | readCompressed ps => ReadCompressed (Some id) ps
  end.

(** How a promise ends: resolved with the data, rejected with the error
    that [cb] was given, or rejected with the exception that its executor
    threw. *)
Inductive settlement : Type :=
| Fulfilled (data : option result)
| Rejected (e : error)
| RejectedThrown (e : exception).

(** The function [cb] of the executor:
    [if (err) reject(err) else resolve(data)]. *)
Definition cb (c : call) : settlement :=
  match err c with
  | Some e => Rejected e
  | None => Fulfilled (res c)
  end.

(** A promise made by [converted]: the name of its function [cb] in the
    log of calls, the length of the log when the executor started and when
    it ended, and the exception the executor threw, if any. *)
Record promise : Type := {
  promise_cb : nat;
  promise_since : nat;
  promise_until : nat;
  promise_threw : option exception
}.

(** [converted(...args)]: with a function as last argument the method is
    called with it; without one a promise is made, whose executor calls the
    method with [cb] at once. An exception in the executor rejects the
    promise and is not thrown further. *)
Definition converted (writeBit : Z → Z → Z → Buffer → option Buffer)
    (c : api_method) (next : option callback) (fresh : nat) (m : ModbusRTU)
  : outcome * option promise :=
  match next with
  | Some f => (submit writeBit (bound_call (_unitID m) c) (Some f) m, None)
  | None =>
      let o := submit writeBit (bound_call (_unitID m) c)
                 (Some (UserCallback fresh)) m in
      (Done (state_of o),
       Some {| promise_cb := fresh;
               promise_since := List.length (calls m);
               promise_until := List.length (calls (state_of o));
               promise_threw := match o with
                                | Thrown e _ => Some e
                                | Done _ => None
                                end |})
  end.

(** The calls of [cb] among the calls [cs]. *)
Definition calls_of (p : promise) (cs : list call) : list call :=
  filter (λ c, callee c = promise_cb p) cs.

(** A promise settles once: by the first call of [cb], or by the exception
    of the executor when [cb] was not called before the executor ended.
    [None] is a pending promise. *)
Definition promise_state (p : promise) (m : ModbusRTU) : option settlement :=
  let since := drop (promise_since p) (calls m) in
  match calls_of p (take (promise_until p - promise_since p) since), promise_threw p with
  | c :: _, _ => Some (cb c)
  | [], Some e => Some (RejectedThrown e)
  | [], None => cb <$> head (calls_of p since)
  end.

(** * Properties *)

(** ** Buffers *)

Lemma blen_nonneg (b : Buffer) : 0 <= blen b.
Proof. unfold blen. lia. Qed.

Lemma blen_put (b : Buffer) (offset v : Z) : blen (put b offset v) = blen b.
Proof. unfold blen, put. by rewrite length_insert. Qed.

Lemma blen_alloc (n : Z) : 0 <= n → blen (alloc n) = n.
Proof. intros Hn. unfold blen, alloc. rewrite length_replicate. lia. Qed.

Lemma blen_writeUInt8 v offset b b' :
  writeUInt8 v offset b = Some b' → blen b' = blen b.
Proof.
  unfold writeUInt8. case_match; [|done]. intros [= <-]. apply blen_put.
Qed.

Lemma blen_writeUInt16LE v offset b b' :
  writeUInt16LE v offset b = Some b' → blen b' = blen b.
Proof.
  unfold writeUInt16LE. case_match; [|done]. intros [= <-].
  by rewrite !blen_put.
Qed.

Lemma buf_get_Some (b : Buffer) (k : Z) :
  0 <= k < blen b → is_Some (buf_get b k).
Proof.
  intros Hk. unfold buf_get.
  destruct (Z.ltb_spec k 0); [lia|].
  apply lookup_lt_is_Some. unfold blen in Hk. lia.
Qed.

Lemma blen_slice_from (b : Buffer) (start : Z) :
  blen (slice_from b start) = blen b - clamp_index (blen b) start.
Proof.
  unfold slice_from. unfold blen at 1. rewrite length_drop.
  assert (0 <= clamp_index (blen b) start <= blen b).
  { pose proof (blen_nonneg b). unfold clamp_index. case_match; lia. }
  unfold blen in *. lia.
Qed.

Lemma slice_from_suffix (b : Buffer) (start : Z) : slice_from b start `suffix_of` b.
Proof. unfold slice_from. apply suffix_drop. Qed.

(** ** The buffered port: [write] *)

Lemma write_short (data : Buffer) (p : RTUBufferedPort) :
  blen data < MIN_DATA_LENGTH → write data p = Some p.
Proof.
  intros Hlen. unfold write.
  destruct (Z.ltb_spec (blen data) MIN_DATA_LENGTH); [done | lia].
Qed.

Lemma write_buffer (data : Buffer) (p p' : RTUBufferedPort) :
  write data p = Some p' → _buffer p' = _buffer p.
Proof.
  unfold write. case_match; [by intros [= <-]|].
  intros Hw. repeat (simplify_option_eq || case_match); done.
Qed.

(** ** Calling a callback only extends the log *)

Lemma set_calls_same (m : ModbusRTU) : set_calls (calls m) m = m.
Proof. by destruct m. Qed.

Lemma call_cb_state depth c e r m :
  ∃ cs, state_of (call_cb depth c e r m) = set_calls cs m.
Proof.
  revert c e r. induction depth as [|depth IH]; intros c e r;
    destruct c as [k|result tx]; simpl; eauto.
  - destruct r as [[[] ? ?]|]; simpl; eauto using set_calls_same.
    destruct (heap m !! tx) as [t|]; simpl; eauto using set_calls_same.
    destruct (next t) as [c'|]; simpl; eauto using set_calls_same.
  - destruct r as [[[] ? ?]|]; simpl; eauto using set_calls_same.
    destruct (heap m !! tx) as [t|]; simpl; eauto using set_calls_same.
    destruct (next t) as [c'|]; simpl; eauto using set_calls_same.
    destruct (has_debug t); apply IH.
Qed.

Lemma call_callback_state c e r m :
  ∃ cs, state_of (call_callback c e r m) = set_calls cs m.
Proof. apply call_cb_state. Qed.

Lemma receive_next_state tx e r m :
  ∃ cs, state_of (receive_next tx e r m) = set_calls cs m.
Proof.
  unfold receive_next.
  destruct (heap m !! tx) as [t|]; simpl; eauto using set_calls_same.
  destruct (next t) as [c|]; simpl; eauto using set_calls_same.
  destruct (has_debug t); apply call_callback_state.
Qed.

Lemma report_state next e m :
  ∃ cs, state_of (report next e m) = set_calls cs m.
Proof.
  unfold report. destruct next; simpl; eauto using set_calls_same.
  apply call_callback_state.
Qed.

(** A caller's function returns, and the log grows by its call. *)
Lemma call_callback_user k e r m :
  call_callback (UserCallback k) e r m
  = Done (set_calls (calls m ++ [{| callee := k; err := e; res := r |}]) m).
Proof. unfold call_callback. by destruct (List.length (heap m)). Qed.

(** ** What a submission leaves alone *)


Lemma keeps_calls {A} (f : ModbusRTU → A) m o :
  (∀ cs m0, f (set_calls cs m0) = f m0) →
  (∃ cs, state_of o = set_calls cs m) → keeps f m o.
Proof. intros Hf [cs Hcs]. unfold keeps. by rewrite Hcs, Hf. Qed.

Lemma port_write_buffer buffer m :
  keeps (λ s, _buffer (_port s)) m (port_write buffer m).
Proof.
  unfold keeps, port_write. destruct (write buffer (_port m)) eqn:Hw; simpl; [|done].
  by apply write_buffer in Hw.
Qed.

Lemma port_write_rest buffer m :
  let s := state_of (port_write buffer m) in
  heap s = heap m ∧ timers s = timers m ∧ _timeout s = _timeout m
  ∧ calls s = calls m ∧ _transactions s = _transactions m.
Proof. unfold port_write. by destruct (write buffer (_port m)). Qed.

Lemma update_transaction_rest tx f m :
  let s := update_transaction tx f m in
  _port s = _port m ∧ timers s = timers m ∧ _timeout s = _timeout m
  ∧ calls s = calls m ∧ _transactions s = _transactions m
  ∧ _debugEnabled s = _debugEnabled m.
Proof. unfold update_transaction. by destruct (heap m !! tx). Qed.

Lemma _startTimeout_rest duration tx m :
  let s := (_startTimeout duration tx m).2 in
  _port s = _port m ∧ heap s = heap m ∧ _timeout s = _timeout m
  ∧ calls s = calls m ∧ _transactions s = _transactions m
  ∧ _debugEnabled s = _debugEnabled m.
Proof. unfold _startTimeout. by destruct (falsy duration). Qed.

(** With a falsy duration [_startTimeout] returns [undefined] and makes no
    timer. *)
Lemma _startTimeout_falsy duration tx m :
  falsy duration = true → _startTimeout duration tx m = (None, m).
Proof. intros Hf. unfold _startTimeout. by rewrite Hf. Qed.

Lemma arm_timeout_rest tx t m :
  let s := arm_timeout tx t m in
  _port s = _port m ∧ _timeout s = _timeout m ∧ calls s = calls m
  ∧ _transactions s = _transactions m ∧ _debugEnabled s = _debugEnabled m.
Proof.
  unfold arm_timeout. destruct (expects_response t); [|done].
  destruct (_startTimeout (_timeout m) tx m) as [handle m'] eqn:Hs.
  pose proof (_startTimeout_rest (_timeout m) tx m) as Hr. rewrite Hs in Hr.
  pose proof (update_transaction_rest tx (set_timeout_fields (Some false) handle) m').
  simpl in *. intuition congruence.
Qed.

Lemma stash_request_rest buffer tx m :
  let s := stash_request buffer tx m in
  _port s = _port m ∧ timers s = timers m ∧ _timeout s = _timeout m
  ∧ calls s = calls m ∧ _transactions s = _transactions m.
Proof.
  unfold stash_request. destruct (_debugEnabled m); [|done].
  pose proof (update_transaction_rest tx (set_debug_fields (Some buffer) (Some [])) m).
  simpl in *. intuition congruence.
Qed.

(** [_writeBufferToPort] never touches the receive buffer of the port. *)
Lemma _writeBufferToPort_buffer buffer id m :
  keeps rx_buffer m (_writeBufferToPort buffer id m).
Proof.
  unfold keeps, _writeBufferToPort.
  destruct (_transactions m !! id) as [tx|]; [|apply port_write_buffer].
  destruct (heap m !! tx) as [t|]; [|apply port_write_buffer].
  cbv zeta.
  destruct (arm_timeout_rest tx t m) as (H1 & _).
  destruct (stash_request_rest buffer tx (arm_timeout tx t m)) as (H2 & _).
  set (m2 := stash_request buffer tx (arm_timeout tx t m)) in *.
  pose proof (port_write_buffer buffer m2) as Hw. unfold keeps in Hw.
  destruct (port_write buffer m2) as [m3|e m3]; simpl in *; [|congruence].
  destruct (expects_nothing t); simpl; [|congruence].
  destruct (next t) as [c|]; simpl; [|congruence].
  destruct (call_callback_state c None (Some (plain ResEmpty)) m3) as [cs ->].
  simpl. congruence.
Qed.

(** ** The receive procedure leaves the receive buffer of the port alone *)

Lemma send_buffer frame m : keeps rx_buffer m (send frame m).
Proof.
  unfold send. destruct frame; [apply _writeBufferToPort_buffer | done].
Qed.

Lemma report_buffer next e m : keeps rx_buffer m (report next e m).
Proof. apply keeps_calls; [done | apply report_state]. Qed.

Lemma receive_next_buffer tx e r m : keeps rx_buffer m (receive_next tx e r m).
Proof. apply keeps_calls; [done | apply receive_next_state]. Qed.

Lemma writeFC43_buffer address deviceIdCode objectId next m :
  keeps rx_buffer m (writeFC43 address deviceIdCode objectId next m).
Proof.
  unfold writeFC43.
  destruct (negb (isOpen m)); [apply report_buffer|].
  destruct address as [a|]; [|apply report_buffer].
  destruct (a =? BROADCAST_ADDRESS); [apply report_buffer|].
  match goal with |- keeps _ _ (send ?f ?s) => pose proof (send_buffer f s) as H end.
  unfold keeps in *. by rewrite H.
Qed.

Lemma decoded_buffer r tx m : keeps rx_buffer m (decoded r tx m).
Proof. unfold decoded. destruct r; [apply receive_next_buffer | done]. Qed.

Lemma dispatch_buffer code data tx t m :
  keeps rx_buffer m (dispatch code data tx t m).
Proof.
  unfold dispatch.
  repeat match goal with
         | |- keeps _ _ (if ?b then _ else _) => destruct b
         | |- keeps _ _ (decoded _ _ _) => apply decoded_buffer
         | |- keeps _ _ (receive_next _ _ _ _) => apply receive_next_buffer
         | |- keeps _ _ (writeFC43 _ _ _ _ _) => apply writeFC43_buffer
         | |- keeps _ _ (Done _) => reflexivity
         | |- keeps _ _ (Thrown _ _) => reflexivity
         | |- keeps _ _ (match ?x with _ => _ end) => destruct x
         | |- keeps _ _ (call_callback _ _ _ _) =>
             apply keeps_calls; [done | apply call_callback_state]
         end.
Qed.

Lemma _cancelTimeout_rest h m :
  let s := _cancelTimeout h m in
  _port s = _port m ∧ heap s = heap m ∧ _timeout s = _timeout m
  ∧ calls s = calls m ∧ _transactions s = _transactions m
  ∧ _enron s = _enron m ∧ _enronTables s = _enronTables m.
Proof.
  unfold _cancelTimeout. destruct h as [h|]; [|done].
  by destruct (timers m !! h).
Qed.

Lemma _onReceive_buffer data m : keeps rx_buffer m (_onReceive data m).
Proof.
  unfold _onReceive.
  destruct (_transactions m !! _transactionIdRead (_port m)) as [tx|]; [|done].
  destruct (heap m !! tx) as [t0|]; [|done].
  set (t := set_timeout_fields _ _ _).
  set (m' := set_heap _ _).
  assert (Hm : rx_buffer m' = rx_buffer m).
  { subst m'. simpl. by destruct (_cancelTimeout_rest (_timeoutHandle t0) m) as [-> _]. }
  unfold keeps. transitivity (rx_buffer m'); [|exact Hm].
  clearbody m' t. clear Hm.
  match goal with
  | |- _buffer (_port (state_of ?o)) = _ => change (keeps rx_buffer m' o)
  end.
  unfold fail.
  repeat match goal with
         | |- keeps _ _ (if ?b then _ else _) => destruct b
         | |- keeps _ _ (receive_next _ _ _ _) => apply receive_next_buffer
         | |- keeps _ _ (dispatch _ _ _ _ _) => apply dispatch_buffer
         | |- keeps _ _ (Done _) => reflexivity
         | |- keeps _ _ (Thrown _ _) => reflexivity
         | |- keeps _ _ (match ?x with _ => _ end) => destruct x
         end.
Qed.

(** ** The nesting of the merging closures is bounded *)

Lemma call_cb_deep_enough m depth c e r s :
  closures_ordered m →
  (∀ result tx, c = FC43Merge result tx → is_Some (heap m !! tx) → (tx < depth)%nat) →
  call_cb depth c e r m ≠ Thrown StackOverflow s.
Proof.
  intros Hord. revert c e r.
  induction depth as [|depth IH]; intros c e r Hc;
    destruct c as [k|result tx]; simpl; try done.
  - destruct r as [[[] ? ?]|]; try done.
    destruct (heap m !! tx) as [t|] eqn:Ht; [|done].
    specialize (Hc result tx eq_refl ltac:(by eexists)). lia.
  - destruct r as [[[] ? ?]|]; try done.
    destruct (heap m !! tx) as [t|] eqn:Ht; [|done].
    destruct (next t) as [c'|] eqn:Hn; [|done].
    specialize (Hc result tx eq_refl ltac:(by eexists)).
    assert (Hc' : ∀ result' tx', c' = FC43Merge result' tx' →
                   is_Some (heap m !! tx') → (tx' < depth)%nat).
    { intros result' tx' -> _. specialize (Hord tx t result' tx' Ht Hn). lia. }
    destruct (has_debug t); by apply IH.
Qed.

(** The depth that [call_callback] allows is never exhausted. *)
Lemma call_callback_deep_enough c e r m s :
  closures_ordered m → call_callback c e r m ≠ Thrown StackOverflow s.
Proof.
  intros Hord. apply call_cb_deep_enough; [done|].
  intros result tx _ [t Ht]. by apply lookup_lt_Some in Ht.
Qed.

Lemma keeps_order_refl m : keeps_order m m.
Proof. by split. Qed.

Lemma keeps_order_trans m s s' : keeps_order m s → keeps_order s s' → keeps_order m s'.
Proof. intros [H1 H2] [H3 H4]. split; [lia | auto]. Qed.

Lemma keeps_order_heap m s : heap s = heap m → keeps_order m s.
Proof. intros Hh. unfold keeps_order, closures_ordered. by rewrite Hh. Qed.

Lemma keeps_order_calls o m : (∃ cs, state_of o = set_calls cs m) → keeps_order m (state_of o).
Proof. intros [cs ->]. by apply keeps_order_heap. Qed.

Lemma update_transaction_order tx f m :
  (∀ t, next (f t) = next t) → keeps_order m (update_transaction tx f m).
Proof.
  intros Hf. unfold update_transaction.
  destruct (heap m !! tx) as [t|] eqn:Ht; [|apply keeps_order_refl].
  split; [simpl; by rewrite length_insert|].
  intros Hord tx1 t1 result tx' H1 Hn. simpl in H1.
  destruct (decide (tx = tx1)) as [->|Hne].
  - rewrite list_lookup_insert_eq in H1 by (by apply lookup_lt_Some in Ht).
    injection H1 as <-. rewrite Hf in Hn. by apply (Hord tx1 t result).
  - rewrite list_lookup_insert_ne in H1 by done. by apply (Hord tx1 t1 result).
Qed.

Lemma arm_timeout_order tx t m : keeps_order m (arm_timeout tx t m).
Proof.
  unfold arm_timeout. destruct (expects_response t); [|apply keeps_order_refl].
  destruct (_startTimeout (_timeout m) tx m) as [handle m'] eqn:Hs.
  pose proof (_startTimeout_rest (_timeout m) tx m) as Hr. rewrite Hs in Hr.
  simpl in Hr. destruct Hr as (_ & Hh & _).
  eapply keeps_order_trans; [apply (keeps_order_heap m m' Hh)|].
  by apply update_transaction_order.
Qed.

Lemma stash_request_order buffer tx m : keeps_order m (stash_request buffer tx m).
Proof.
  unfold stash_request. destruct (_debugEnabled m); [|apply keeps_order_refl].
  by apply update_transaction_order.
Qed.

Lemma port_write_order buffer m : keeps_order m (state_of (port_write buffer m)).
Proof. apply keeps_order_heap. by destruct (port_write_rest buffer m) as (-> & _). Qed.

Lemma _writeBufferToPort_order buffer id m :
  keeps_order m (state_of (_writeBufferToPort buffer id m)).
Proof.
  unfold _writeBufferToPort.
  destruct (_transactions m !! id) as [tx|]; [|apply port_write_order].
  destruct (heap m !! tx) as [t|]; [|apply port_write_order].
  cbv zeta.
  eapply keeps_order_trans; [apply (arm_timeout_order tx t)|].
  eapply keeps_order_trans; [apply (stash_request_order buffer tx)|].
  set (m2 := stash_request buffer tx (arm_timeout tx t m)).
  pose proof (port_write_order buffer m2) as Hw.
  destruct (port_write buffer m2) as [m3|e m3]; simpl in *; [|done].
  eapply keeps_order_trans; [exact Hw|].
  destruct (expects_nothing t); [|apply keeps_order_refl].
  destruct (next t) as [c|]; [|apply keeps_order_refl].
  apply keeps_order_calls, call_callback_state.
Qed.

Lemma set_slot_order t m :
  closure_in_heap (next t) m → keeps_order m (set_slot t m).
Proof.
  intros Hin. split; [simpl; rewrite length_app; simpl; lia|].
  intros Hord tx1 t1 result tx' H1 Hn. simpl in H1.
  destruct (decide (tx1 < List.length (heap m))%nat) as [Hlt|Hge].
  - rewrite lookup_app_l in H1 by done. by apply (Hord tx1 t1 result).
  - rewrite lookup_app_r in H1 by lia.
    destruct (tx1 - List.length (heap m))%nat eqn:Hd; [|by destruct n].
    injection H1 as <-. specialize (Hin result tx' Hn). lia.
Qed.

Lemma send_slot_order frame t m :
  closure_in_heap (next t) m → keeps_order m (state_of (send frame (set_slot t m))).
Proof.
  intros Hin. pose proof (set_slot_order t m Hin) as Hs.
  unfold send. destruct frame as [buf|]; [|exact Hs].
  eapply keeps_order_trans; [exact Hs|].
  apply (_writeBufferToPort_order buf _ (set_slot t m)).
Qed.

Ltac order_steps :=
  cbv zeta;
  repeat match goal with
         | |- keeps_order _ (state_of (report _ _ _)) =>
             apply keeps_order_calls, report_state
         | |- keeps_order _ (state_of (send _ (set_slot _ _))) =>
             by apply send_slot_order
         | |- keeps_order _ (state_of (receive_next _ _ _ _)) =>
             apply keeps_order_calls, receive_next_state
         | |- keeps_order _ (state_of (call_callback _ _ _ _)) =>
             apply keeps_order_calls, call_callback_state
         | |- keeps_order _ (state_of (Thrown _ _)) => apply keeps_order_refl
         | |- keeps_order _ (state_of (Done _)) => apply keeps_order_refl
         | |- keeps_order _ (state_of (if ?b then _ else _)) => destruct b
         | |- keeps_order _ (state_of (match ?x with _ => _ end)) => destruct x
         end.

Lemma submit_order writeBit r next m :
  closure_in_heap next m → keeps_order m (state_of (submit writeBit r next m)).
Proof.
  intros Hin.
  destruct r; unfold submit, writeFC1, writeFC2, writeFC3, writeFC4, writeFC5,
    writeFC6, writeFC7, writeFC15, writeFC16, writeFC20, writeFC43, writeFC65;
    order_steps.
Qed.

Lemma dispatch_order code data tx t m :
  is_Some (heap m !! tx) → keeps_order m (state_of (dispatch code data tx t m)).
Proof.
  intros [t' Ht']. unfold dispatch, decoded. order_steps.
  apply (submit_order (λ _ _ _ b, Some b) (ReadDeviceIdentification _ _ _)).
  intros result' tx' [= <- <-]. by apply lookup_lt_Some in Ht'.
Qed.

Lemma _onReceive_order data m : keeps_order m (state_of (_onReceive data m)).
Proof.
  unfold _onReceive.
  destruct (_transactions m !! _transactionIdRead (_port m)) as [tx|];
    [|apply keeps_order_refl].
  destruct (heap m !! tx) as [t0|] eqn:Ht0; [|apply keeps_order_refl].
  set (t := set_timeout_fields _ _ _).
  set (m' := set_heap _ _).
  assert (Hm : keeps_order m m' ∧ is_Some (heap m' !! tx)).
  { assert (Hlen : List.length (heap m') = List.length (heap m)).
    { subst m'. simpl. by rewrite length_insert. }
    split; [split|].
    - lia.
    - intros Hord tx1 t1 result tx' H1 Hn. subst m'. simpl in H1.
      destruct (decide (tx = tx1)) as [->|Hne].
      + rewrite list_lookup_insert_eq in H1 by (by apply lookup_lt_Some in Ht0).
        injection H1 as <-. apply (Hord tx1 t0 result); [done|].
        rewrite <- Hn. subst t. unfold push_response. by destruct (responses t0).
      + rewrite list_lookup_insert_ne in H1 by done. by apply (Hord tx1 t1 result).
    - apply lookup_lt_is_Some. rewrite Hlen. by apply lookup_lt_Some in Ht0. }
  destruct Hm as [Hm Hin].
  eapply keeps_order_trans; [exact Hm|]. clearbody m' t. clear Hm.
  unfold fail.
  repeat match goal with
         | |- keeps_order _ (state_of (dispatch _ _ _ _ _)) => by apply dispatch_order
         | _ => progress order_steps
         end.
Qed.

Lemma onData_order data m : keeps_order m (state_of (onData data m)).
Proof.
  unfold onData. destruct (onData_scan data (_port m)) as [p found].
  destruct found as [[start length]|]; [|by apply keeps_order_heap].
  unfold _emitData. set (m1 := set_port p m).
  set (o := if data_listener (_port m1) then _ else Done m1).
  assert (Ho : keeps_order m (state_of o)).
  { subst o. destruct (data_listener (_port m1)); [|by apply keeps_order_heap].
    apply (_onReceive_order _ m1). }
  destruct o as [m2|e m2]; simpl in *; [|done].
  eapply keeps_order_trans; [exact Ho|]. by apply keeps_order_heap.
Qed.

Lemma timer_fires_order h m : keeps_order m (state_of (timer_fires h m)).
Proof.
  unfold timer_fires.
  destruct (timers m !! h) as [tm|]; [|apply keeps_order_refl].
  destruct (timer_pending tm); [|apply keeps_order_refl]. cbv zeta.
  set (m1 := set_timers _ m).
  set (m2 := update_transaction _ _ m1).
  assert (Hm : keeps_order m m2).
  { eapply keeps_order_trans; [apply (keeps_order_heap m m1); done|].
    by apply update_transaction_order. }
  destruct (heap m2 !! timer_tx tm) as [t|]; [|done].
  destruct (next t) as [c|]; [|done].
  eapply keeps_order_trans; [exact Hm|].
  apply keeps_order_calls, call_callback_state.
Qed.

(** Every state the engine reaches from a state with ordered closures has
    ordered closures: the depth bound of [call_callback] is never hit. *)
Lemma run_order writeBit events m :
  Forall callers_event events → closures_ordered m →
  closures_ordered (run writeBit events m).
Proof.
  intros Hev. revert m. induction Hev as [|ev events Hev _ IH]; intros m Hord; [done|].
  simpl. apply IH.
  assert (Hs : keeps_order m (state_of (step writeBit ev m))).
  { destruct ev as [r next|[data|data]|h]; simpl.
    - apply submit_order. intros result tx ->. done.
    - apply _onReceive_order.
    - apply onData_order.
    - apply timer_fires_order. }
  by apply Hs.
Qed.

Lemma engine0_ordered : closures_ordered engine0.
Proof. intros tx t result tx' H. done. Qed.

(** ** The CRC is a 16-bit number *)

Lemma lxor_u16 a b : 0 <= a < 65536 → 0 <= b < 65536 → 0 <= Z.lxor a b < 65536.
Proof.
  intros Ha Hb. split; [apply Z.lxor_nonneg; lia|].
  destruct (Z.eq_dec (Z.lxor a b) 0) as [->|Hne]; [lia|].
  assert (0 < Z.lxor a b) by (pose proof (proj2 (Z.lxor_nonneg a b)); lia).
  change 65536 with (2 ^ 16). apply Z.log2_lt_pow2; [done|].
  pose proof (Z.log2_lxor a b ltac:(lia) ltac:(lia)) as Hl.
  assert (Z.log2 a < 16).
  { destruct (Z.eq_dec a 0) as [->|]; [done|]. apply Z.log2_lt_pow2; lia. }
  assert (Z.log2 b < 16).
  { destruct (Z.eq_dec b 0) as [->|]; [done|]. apply Z.log2_lt_pow2; lia. }
  lia.
Qed.

Lemma crc_shift_u16 n crc : 0 <= crc < 65536 → 0 <= crc_shift n crc < 65536.
Proof.
  revert crc. induction n as [|n IH]; intros crc Hc; simpl; [done|].
  apply IH.
  assert (0 <= Z.shiftr crc 1 < 65536).
  { rewrite Z.shiftr_div_pow2 by lia. change (2 ^ 1) with 2.
    split; [apply Z.div_pos; lia|]. apply Z.div_lt_upper_bound; lia. }
  case_match; [done|]. apply lxor_u16; [done | lia].
Qed.

Lemma crc16_u16 data :
  Forall (λ b, 0 <= b < 256) data → 0 <= crc16 data < 65536.
Proof.
  unfold crc16.
  assert (∀ crc, 0 <= crc < 65536 → Forall (λ b, 0 <= b < 256) data →
          0 <= fold_left (λ crc b, crc_shift 8 (Z.lxor crc b)) data crc < 65536) as H.
  { induction data as [|b data IH]; intros crc Hc Hd; cbn [fold_left]; [done|].
    inversion Hd; subst. apply IH; [|done].
    apply crc_shift_u16, lxor_u16; lia. }
  intros Hd. apply H; [lia | done].
Qed.

(** ** Building a frame *)

Lemma bytes_alloc n : bytes (alloc n).
Proof. unfold bytes, alloc. apply Forall_replicate. lia. Qed.

Lemma bytes_put b offset v : 0 <= v < 256 → bytes b → bytes (put b offset v).
Proof.
  intros Hv Hb. unfold bytes, put.
  destruct (decide (Z.to_nat offset < List.length b)%nat) as [Hlt|Hge].
  - by apply Forall_insert.
  - rewrite list_insert_ge by lia. done.
Qed.

Lemma bytes_slice b s e : bytes b → bytes (slice b s e).
Proof. intros Hb. unfold slice. by apply Forall_take, Forall_drop. Qed.

Lemma in_range_true b offset width :
  0 <= offset → offset + width <= blen b → in_range b offset width = true.
Proof.
  intros. unfold in_range. apply andb_true_intro. split; apply Z.leb_le; lia.
Qed.

Lemma writeUInt8_ok v offset b :
  0 <= v <= 255 → 0 <= offset → offset + 1 <= blen b → bytes b →
  ∃ b', writeUInt8 v offset b = Some b' ∧ blen b' = blen b ∧ bytes b'.
Proof.
  intros Hv Ho Hl Hb. unfold writeUInt8.
  rewrite in_range_true by lia.
  destruct (Z.leb_spec 0 v); [|lia]. destruct (Z.leb_spec v 255); [|lia].
  eexists; split; [done|]. split; [apply blen_put | apply bytes_put; [lia|done]].
Qed.

Lemma split_u16 v : 0 <= v <= 65535 → 0 <= v / 256 < 256 ∧ 0 <= v mod 256 < 256.
Proof.
  intros Hv. split; [|apply Z.mod_pos_bound; lia].
  split; [apply Z.div_pos; lia | apply Z.div_lt_upper_bound; lia].
Qed.

Lemma writeUInt16BE_ok v offset b :
  0 <= v <= 65535 → 0 <= offset → offset + 2 <= blen b → bytes b →
  ∃ b', writeUInt16BE v offset b = Some b' ∧ blen b' = blen b ∧ bytes b'.
Proof.
  intros Hv Ho Hl Hb. unfold writeUInt16BE.
  rewrite in_range_true by lia.
  destruct (Z.leb_spec 0 v); [|lia]. destruct (Z.leb_spec v 65535); [|lia].
  destruct (split_u16 v Hv).
  eexists; split; [done|]. split; [by rewrite !blen_put|].
  by repeat apply bytes_put.
Qed.

(** The CRC always fits the two bytes kept for it. *)
Lemma write_crc_ok offset b :
  0 <= offset → offset + 2 <= blen b → bytes b →
  ∃ b', writeUInt16LE (crc16 (slice b 0 (-2))) offset b = Some b'
        ∧ blen b' = blen b ∧ bytes b'.
Proof.
  intros Ho Hl Hb. unfold writeUInt16LE.
  pose proof (crc16_u16 (slice b 0 (-2)) (bytes_slice b 0 (-2) Hb)) as Hc.
  rewrite in_range_true by lia.
  destruct (Z.leb_spec 0 (crc16 (slice b 0 (-2)))); [|lia].
  destruct (Z.leb_spec (crc16 (slice b 0 (-2))) 65535); [|lia].
  destruct (split_u16 (crc16 (slice b 0 (-2)))); [lia|].
  eexists; split; [done|]. split; [by rewrite !blen_put|].
  by repeat apply bytes_put.
Qed.

Lemma frame_FC5_ok address dataAddress state :
  0 <= address <= 255 → 0 <= dataAddress <= 65535 →
  ∃ f, frame_FC5 address 5 dataAddress state = Some f ∧ blen f = 8.
Proof.
  intros Ha Hd. unfold frame_FC5.
  pose proof (blen_alloc (6 + 2) ltac:(lia)) as H0.
  destruct (writeUInt8_ok address 0 (alloc (6 + 2))) as (b1 & -> & H1 & Hb1);
    [lia | lia | lia | apply bytes_alloc |]; cbn [mbind option_bind].
  destruct (writeUInt8_ok 5 1 b1) as (b2 & -> & H2 & Hb2);
    [lia | lia | lia | done |]; cbn [mbind option_bind].
  destruct (writeUInt16BE_ok dataAddress 2 b2) as (b3 & -> & H3 & Hb3);
    [lia | lia | lia | done |]; cbn [mbind option_bind].
  assert (∃ b4, (if state then writeUInt16BE 65280 4 b3 else writeUInt16BE 0 4 b3)
                = Some b4 ∧ blen b4 = blen b3 ∧ bytes b4) as (b4 & -> & H4 & Hb4).
  { destruct state; apply writeUInt16BE_ok; (lia || done). }
  cbn [mbind option_bind].
  destruct (write_crc_ok 6 b4) as (f & -> & H5 & _); [lia | lia | done |].
  exists f. split; [done | lia].
Qed.

Lemma frame_FC7_ok address :
  0 <= address <= 255 →
  ∃ f, frame_FC7 address 7 = Some f ∧ blen f = 4.
Proof.
  intros Ha. unfold frame_FC7.
  pose proof (blen_alloc (2 + 2) ltac:(lia)) as H0.
  destruct (writeUInt8_ok address 0 (alloc (2 + 2))) as (b1 & -> & H1 & Hb1);
    [lia | lia | lia | apply bytes_alloc |]; cbn [mbind option_bind].
  destruct (writeUInt8_ok 7 1 b1) as (b2 & -> & H2 & Hb2);
    [lia | lia | lia | done |]; cbn [mbind option_bind].
  destruct (write_crc_ok 2 b2) as (f & -> & H3 & _); [lia | lia | done |].
  exists f. split; [done | lia].
Qed.

(** A frame of [writeFC7] has four bytes whenever it can be built. *)
Lemma frame_FC7_length address code f :
  frame_FC7 address code = Some f → blen f = 4.
Proof.
  unfold frame_FC7. intros Hf.
  destruct (writeUInt8 address 0 (alloc (2 + 2))) as [b1|] eqn:H1; [|done].
  cbn [mbind option_bind] in Hf.
  destruct (writeUInt8 code 1 b1) as [b2|] eqn:H2; [|done].
  cbn [mbind option_bind] in Hf.
  apply blen_writeUInt16LE in Hf. apply blen_writeUInt8 in H1, H2.
  rewrite Hf, H2, H1. by apply blen_alloc.
Qed.

(** [write] sends every buffer of six bytes or more to the serial port. *)
Lemma write_long (data : Buffer) (p : RTUBufferedPort) :
  MIN_DATA_LENGTH <= blen data →
  ∃ p', write data p = Some p' ∧ client_written p' = client_written p ++ [data]
        ∧ _buffer p' = _buffer p ∧ client_isOpen p' = client_isOpen p
        ∧ _transactionIdRead p' = _transactionIdRead p
        ∧ _transactionIdWrite p' = _transactionIdWrite p.
Proof.
  intros Hlen. unfold write, MIN_DATA_LENGTH in *.
  destruct (Z.ltb_spec (blen data) 6); [lia|].
  destruct (buf_get_Some data 0) as [id ->]; [lia|].
  destruct (buf_get_Some data 1) as [cmd ->]; [lia|].
  cbn [mbind option_bind].
  assert (is_Some (answer_length data cmd)) as [len ->].
  { unfold answer_length, readUInt16BE, readUInt8.
    rewrite !in_range_true by lia.
    destruct (buf_get_Some data 4) as [x4 ->]; [lia|].
    destruct (buf_get_Some data 5) as [x5 Hx5]; [lia|].
    change (4 + 1) with 5. rewrite Hx5.
    destruct (buf_get_Some data 2) as [x2 ->]; [lia|].
    cbn [mbind option_bind].
    repeat case_match; done. }
  cbn [mbind option_bind]. eexists. split; [done|]. done.
Qed.

(** ** A request takes the slot *)

Lemma set_slot_lookup t m :
  _transactions (set_slot t m) !! _transactionIdWrite (_port m)
  = Some (List.length (heap m))
  ∧ heap (set_slot t m) !! List.length (heap m) = Some t.
Proof.
  unfold set_slot. simpl. split; [apply lookup_insert_eq|].
  rewrite lookup_app_r by lia. by rewrite Nat.sub_diag.
Qed.

(** [_writeBufferToPort] right after the slot was filled. *)
Lemma send_fresh buf t m :
  send (Some buf) (set_slot t m)
  = let tx := List.length (heap m) in
    let m2 := stash_request buf tx (arm_timeout tx t (set_slot t m)) in
    do m3 <- port_write buf m2;
    if expects_nothing t
    then match next t with
         | Some c => call_callback c None (Some (plain ResEmpty)) m3
         | None => Thrown TypeError m3
         end
    else Done m3.
Proof.
  unfold send, _writeBufferToPort.
  change (_port (set_slot t m)) with (_port m).
  destruct (set_slot_lookup t m) as [-> ->]. done.
Qed.

(** C8: [write] of the buffered port returns at once for a buffer of fewer
    than six bytes: nothing is sent and the remembered unit id, function
    code and expected length stay as they were (the port is unchanged). The
    frame of [writeFC7] has four bytes, so a read-exception-status request
    submitted through this port is accepted by the engine (no error is
    reported) and is never transmitted. *)
Theorem FC7_request_never_transmitted :
  (∀ (data : Buffer) (p : RTUBufferedPort),
     blen data < MIN_DATA_LENGTH → write data p = Some p)
  ∧ (∀ address code f, frame_FC7 address code = Some f → blen f = 4)
  ∧ (∀ m address k,
       isOpen m = true → 0 < address <= 255 →
       ∃ m', writeFC7 (Some address) (Some (UserCallback k)) m = Done m'
             ∧ _port m' = _port m ∧ calls m' = calls m
             ∧ is_Some (_transactions m' !! _transactionIdWrite (_port m))).
Proof.
  split; [exact write_short|]. split; [exact frame_FC7_length|].
  intros m address k Hopen Ha. unfold writeFC7. rewrite Hopen. simpl negb. cbv iota.
  destruct (Z.eqb_spec address BROADCAST_ADDRESS) as [Hb|_];
    [unfold BROADCAST_ADDRESS in Hb; lia|].
  destruct (frame_FC7_ok address) as (f & Hf & Hlen); [lia|].
  cbv zeta. rewrite Hf, send_fresh. cbv zeta.
  set (t := new_transaction address None 7 (Some 5) false (Some (UserCallback k))).
  set (tx := List.length (heap m)).
  destruct (arm_timeout_rest tx t (set_slot t m)) as (H1 & _ & H1c & H1t & _).
  destruct (stash_request_rest f tx (arm_timeout tx t (set_slot t m)))
    as (H2 & _ & _ & H2c & H2t).
  set (m2 := stash_request f tx (arm_timeout tx t (set_slot t m))) in *.
  unfold port_write. rewrite write_short by (unfold MIN_DATA_LENGTH; lia).
  simpl. eexists. split; [done|]. simpl.
  split; [by rewrite H2, H1|]. split; [by rewrite H2c, H1c|].
  rewrite H2t, H1t. destruct (set_slot_lookup t m) as [-> _]. by eexists.
Qed.

Lemma FC7_request_never_transmitted_witness :
  write [17; 7; 76; 34] new_RTUBufferedPort = Some new_RTUBufferedPort
  ∧ blen [17; 7; 76; 34] = 4
  ∧ ∃ m', writeFC7 (Some 17) (Some (UserCallback 0)) engine0 = Done m'
          ∧ _port m' = _port engine0 ∧ calls m' = calls engine0
          ∧ is_Some (_transactions m' !! _transactionIdWrite (_port engine0)).
Proof.
  destruct FC7_request_never_transmitted as (H1 & H2 & H3).
  split; [apply H1; vm_compute; reflexivity|].
  split; [apply (H2 17 7); vm_compute; reflexivity|].
  apply H3; [reflexivity | lia].
Defined.

(** C6, as the code has it: a write-single-coil request to the broadcast
    address 0 on an open port sets the expected response length to 0,
    hands the frame to the transport, starts no timeout and calls the
    callback at once with an empty result and no error. The transaction
    stays in its slot with its callback: nothing clears it. *)
Theorem broadcast_write_coil m dataAddress state k :
  isOpen m = true → 0 <= dataAddress <= 65535 →
  ∃ f m' t',
    frame_FC5 0 5 dataAddress state = Some f
    ∧ writeFC5 (Some 0) (Some dataAddress) state (Some (UserCallback k)) m = Done m'
    ∧ client_written (_port m') = client_written (_port m) ++ [f]
    ∧ timers m' = timers m
    ∧ calls m' = calls m ++ [{| callee := k; err := None;
                                res := Some (plain ResEmpty) |}]
    ∧ _transactions m' !! _transactionIdWrite (_port m) = Some (List.length (heap m))
    ∧ heap m' !! List.length (heap m) = Some t'
    ∧ nextLength t' = Some 0 ∧ next t' = Some (UserCallback k)
    ∧ _timeoutHandle t' = None.
Proof.
  intros Hopen Hd. unfold writeFC5. rewrite Hopen. simpl negb. cbv iota zeta.
  change (0 =? BROADCAST_ADDRESS) with true. cbv iota.
  destruct (frame_FC5_ok 0 dataAddress state) as (f & Hf & Hlen); [lia | lia |].
  rewrite Hf, send_fresh. cbv zeta.
  set (t := new_transaction 0 None 5 (Some 0) false (Some (UserCallback k))).
  set (tx := List.length (heap m)).
  change (arm_timeout tx t (set_slot t m)) with (set_slot t m).
  destruct (stash_request_rest f tx (set_slot t m)) as (H2 & H2i & _ & H2c & H2t).
  assert (Hheap : ∃ t', heap (stash_request f tx (set_slot t m)) !! tx = Some t'
                        ∧ nextLength t' = Some 0 ∧ next t' = Some (UserCallback k)
                        ∧ _timeoutHandle t' = None).
  { unfold stash_request, update_transaction.
    destruct (set_slot_lookup t m) as [_ Hl].
    destruct (_debugEnabled (set_slot t m)). 2:{ exists t. split; [exact Hl | by repeat split]. }
    subst tx. rewrite Hl. simpl. eexists. split.
    - apply list_lookup_insert_eq. rewrite length_app. simpl. lia.
    - repeat split; reflexivity. }
  destruct Hheap as (t' & Ht' & Hn & Hnext & Hh).
  set (m2 := stash_request f tx (set_slot t m)) in *.
  unfold port_write.
  destruct (write_long f (_port m2)) as (p' & -> & Hw & _);
    [unfold MIN_DATA_LENGTH; lia|].
  cbn [and_then]. change (expects_nothing t) with true. cbv iota.
  change (next t) with (Some (UserCallback k)). cbv iota.
  rewrite call_callback_user.
  exists f, (set_calls (calls (set_port p' m2)
                        ++ [{| callee := k; err := None;
                               res := Some (plain ResEmpty) |}])
               (set_port p' m2)), t'.
  split; [done|]. split; [done|]. simpl.
  split; [by rewrite Hw, H2|]. split; [done|].
  split; [by rewrite H2c|].
  split; [rewrite H2t; apply set_slot_lookup|]. done.
Qed.

Lemma broadcast_write_coil_witness :
  ∃ f m' t',
    frame_FC5 0 5 0xAC true = Some f
    ∧ writeFC5 (Some 0) (Some 0xAC) true (Some (UserCallback 0)) engine0 = Done m'
    ∧ client_written (_port m') = client_written (_port engine0) ++ [f]
    ∧ timers m' = timers engine0
    ∧ calls m' = calls engine0 ++ [{| callee := 0; err := None;
                                      res := Some (plain ResEmpty) |}]
    ∧ _transactions m' !! _transactionIdWrite (_port engine0)
      = Some (List.length (heap engine0))
    ∧ heap m' !! List.length (heap engine0) = Some t'
    ∧ nextLength t' = Some 0 ∧ next t' = Some (UserCallback 0%nat)
    ∧ _timeoutHandle t' = None.
Proof. apply (broadcast_write_coil engine0 0xAC true 0); [reflexivity | lia]. Defined.

(** C6 as the specification words it would have the slot empty after the
    broadcast; the transaction is still there, and the next frame that
    comes in calls its callback a second time. *)
Lemma broadcast_slot_not_cleared :
  let m' := state_of (writeFC5 (Some 0) (Some 0xAC) true (Some (UserCallback 0)) engine0) in
  _transactions m' !! _transactionIdWrite (_port engine0) ≠ None
  ∧ List.length (calls m') = 1%nat
  ∧ List.length (calls (state_of (_onReceive [0; 5; 0; 0xAC; 0xFF; 0; 0x4D; 0xCA] m'))) = 2%nat.
Proof. vm_compute. split; [discriminate|]. split; reflexivity. Qed.

(** ** The receive procedure, step by step *)

(** The state in which [_onReceive] makes its checks: the frame is stashed
    and the timeout cancelled. *)
Lemma _onReceive_prepared data m tx t0 :
  _transactions m !! _transactionIdRead (_port m) = Some tx →
  heap m !! tx = Some t0 →
  ∃ m' t,
    t = set_timeout_fields (_timeoutFired t0) None (push_response data t0)
    ∧ m' = set_heap (<[tx := t]> (heap m)) (_cancelTimeout (_timeoutHandle t0) m)
    ∧ heap m' !! tx = Some t ∧ calls m' = calls m
    ∧ _transactions m' = _transactions m ∧ _port m' = _port m
    ∧ next t = next t0 ∧ _timeoutFired t = _timeoutFired t0
    ∧ nextCode t = nextCode t0 ∧ lengthUnknown t = lengthUnknown t0
    ∧ nextAddress t = nextAddress t0
    ∧ _enron m' = _enron m ∧ enron_tables_invalid m' = enron_tables_invalid m.
Proof.
  intros Hslot Hheap. eexists _, _. split; [reflexivity|]. split; [reflexivity|].
  destruct (_cancelTimeout_rest (_timeoutHandle t0) m)
    as (Hp & Hh & _ & Hc & Ht & He & Hta).
  simpl. split.
  { apply list_lookup_insert_eq. by apply lookup_lt_Some in Hheap. }
  repeat split; try done.
  all: try (unfold push_response; by destruct (responses t0)).
  unfold enron_tables_invalid. simpl. by rewrite Hta.
Qed.

Lemma receive_next_user tx t k e r m :
  heap m !! tx = Some t → next t = Some (UserCallback k) →
  ∃ e' r', receive_next tx e r m
           = Done (set_calls (calls m ++ [{| callee := k; err := e'; res := r' |}]) m)
    ∧ e' = (if has_debug t then attach_error t <$> e else e)
    ∧ r' = (if has_debug t then attach_result t <$> r else r).
Proof.
  intros Hh Hn. unfold receive_next. rewrite Hh, Hn.
  destruct (has_debug t); rewrite call_callback_user; by eexists _, _.
Qed.




(** ** Scenario: two holding registers *)

(** C2, as the code has it: the request for unit 17, function code 3, data
    address 0x006B and quantity 2 is the frame 11 03 00 6B 00 02 B7 47 (the
    CRC of the first six bytes is 0x47B7). The decoder [_readFC3or4] reads
    the registers [0xAE41, 0x5652] from a frame that starts 11 03 04 AE 41 56
    52, and the engine delivers them for the frame that ends with the right
    CRC, 25 53. *)
Theorem read_holding_registers_scenario :
  let m1 := state_of (writeFC3 (Some 17) (Some 0x6B) 2 (Some (UserCallback 0)) engine0) in
  writeFC3 (Some 17) (Some 0x6B) 2 (Some (UserCallback 0)) engine0 = Done m1
  ∧ client_written (_port m1) = [[0x11; 0x03; 0x00; 0x6B; 0x00; 0x02; 0xB7; 0x47]]
  ∧ _readFC3or4 [0x11; 0x03; 0x04; 0xAE; 0x41; 0x56; 0x52; 0x49; 0xAD]
    = Some (ResRegisters [0xAE41; 0x5652] [0xAE; 0x41; 0x56; 0x52])
  ∧ calls (state_of (_onReceive [0x11; 0x03; 0x04; 0xAE; 0x41; 0x56; 0x52; 0x25; 0x53] m1))
    = [{| callee := 0; err := None;
          res := Some (plain (ResRegisters [0xAE41; 0x5652] [0xAE; 0x41; 0x56; 0x52])) |}].
Proof. by vm_compute. Qed.

(** C2 as the specification words it: the request frame does not end in
    76 87 (that is the CRC of the request for three registers), and the
    response frame that ends in 49 AD fails the CRC check of the engine. *)
Lemma spec_register_frames_refuted :
  let m1 := state_of (writeFC3 (Some 17) (Some 0x6B) 2 (Some (UserCallback 0)) engine0) in
  client_written (_port m1) ≠ [[0x11; 0x03; 0x00; 0x6B; 0x00; 0x02; 0x76; 0x87]]
  ∧ frame_read 17 3 0x6B 3 = Some [0x11; 0x03; 0x00; 0x6B; 0x00; 0x03; 0x76; 0x87]
  ∧ calls (state_of (_onReceive [0x11; 0x03; 0x04; 0xAE; 0x41; 0x56; 0x52; 0x49; 0xAD] m1))
    = [{| callee := 0; err := Some (new_error Error "CRC error"); res := None |}].
Proof. vm_compute. split; [discriminate|]. by split. Qed.

(** ** The timeout latch *)

Lemma _cancelTimeout_spent h' h m :
  timer_spent h m → timer_spent h (_cancelTimeout h' m).
Proof.
  intros (tm & Htm & Hp). unfold _cancelTimeout, timer_spent.
  destruct h' as [h'|]; [|by exists tm].
  destruct (timers m !! h') as [t'|] eqn:Ht'; [|by exists tm]. simpl.
  destruct (decide (h' = h)) as [->|Hne].
  - exists (set_timer_pending false t'). split; [|reflexivity].
    apply list_lookup_insert_eq. by apply lookup_lt_Some in Htm.
  - exists tm. by rewrite list_lookup_insert_ne.
Qed.

(** Once the latch is set, a frame is dropped: no callback is called, and
    the latch stays. *)
Lemma _onReceive_latched data h m :
  timeout_latched m → timer_spent h m →
  ∃ m', _onReceive data m = Done m' ∧ calls m' = calls m
        ∧ timeout_latched m' ∧ timer_spent h m'.
Proof.
  intros (tx & t0 & Hslot & Hheap & Hfired) Hspent.
  destruct (_onReceive_prepared data m tx t0 Hslot Hheap)
    as (m' & t & Ht & Hm' & Hh' & Hc' & Htr & Hp & _ & Hf' & _).
  exists m'. unfold _onReceive. rewrite Hslot, Hheap. rewrite <- Ht, <- Hm'.
  rewrite bool_decide_eq_true_2 by congruence.
  split; [done|]. split; [done|]. split.
  - exists tx, t. rewrite Htr, Hp. split; [done|]. split; [done | congruence].
  - rewrite Hm'. apply (_cancelTimeout_spent (_timeoutHandle t0)) in Hspent.
    destruct Hspent as (tm & Htm & Hpend). by exists tm.
Qed.

(** The same for a chunk of serial data: if the port finds a frame in it,
    the engine drops the frame. *)
Lemma onData_latched data h m :
  timeout_latched m → timer_spent h m →
  ∃ m', onData data m = Done m' ∧ calls m' = calls m
        ∧ timeout_latched m' ∧ timer_spent h m'.
Proof.
  intros Hl Hs. unfold onData.
  assert (Hport : ∀ b s, timeout_latched s → timer_spent h s →
            timeout_latched (set_port (set_buffer b (_port s)) s)
            ∧ timer_spent h (set_port (set_buffer b (_port s)) s)).
  { intros b s (tx & t & H1 & H2 & H3) H4. split; [|exact H4]. by exists tx, t. }
  assert (Hscan : ∃ b, (onData_scan data (_port m)).1 = set_buffer b (_port m)).
  { unfold onData_scan. cbv zeta.
    destruct (_ || _); [by eexists|]. simpl.
    destruct (MAX_BUFFER_LENGTH <? _); by eexists. }
  destruct Hscan as [b Hb].
  destruct (onData_scan data (_port m)) as [p found]. simpl in Hb. subst p.
  destruct (Hport b m Hl Hs) as [Hl1 Hs1].
  set (m1 := set_port (set_buffer b (_port m)) m) in *.
  destruct found as [[start length]|]; [|by exists m1].
  unfold _emitData.
  destruct (data_listener (_port m1)).
  - destruct (_onReceive_latched (slice (_buffer (_port m1)) start (start + length))
                h m1 Hl1 Hs1) as (m2 & -> & Hc2 & Hl2 & Hs2).
    cbn [and_then]. eexists. split; [done|].
    split; [exact Hc2|]. by apply Hport.
  - cbn [and_then]. eexists. split; [done|].
    split; [done|]. by apply Hport.
Qed.

Lemma receive_all_latched l h m :
  timeout_latched m → timer_spent h m →
  ∃ m', receive_all l m = Done m' ∧ calls m' = calls m
        ∧ timeout_latched m' ∧ timer_spent h m'.
Proof.
  revert m. induction l as [|i l IH]; intros m Hl Hs; simpl.
  - by exists m.
  - assert (∃ m1, receive i m = Done m1 ∧ calls m1 = calls m
                  ∧ timeout_latched m1 ∧ timer_spent h m1)
      as (m1 & -> & Hc1 & Hl1 & Hs1).
    { destruct i; [by apply _onReceive_latched | by apply onData_latched]. }
    destruct (IH m1 Hl1 Hs1) as (m2 & Hr & Hc2 & Hl2 & Hs2).
    exists m2. simpl. split; [done|]. split; [congruence | done].
Qed.

(** C1, as the code has it: when the timeout of the transaction in the slot
    fires, the callback is called once, with the timed-out error; from then
    on no frame that comes in for that slot calls it, however many come and
    whatever they hold, and the timer does not fire a second time. *)
Theorem no_callback_after_timeout m h tm t k (late : list inbound) :
  timers m !! h = Some tm → timer_pending tm = true →
  _transactions m !! _transactionIdRead (_port m) = Some (timer_tx tm) →
  heap m !! timer_tx tm = Some t → next t = Some (UserCallback k) →
  ∃ m1 m2 e,
    timer_fires h m = Done m1
    ∧ calls m1 = calls m ++ [{| callee := k; err := Some e; res := None |}]
    ∧ name e = TransactionTimedOutError
    ∧ receive_all late m1 = Done m2
    ∧ calls m2 = calls m1
    ∧ timer_fires h m2 = Done m2.
Proof.
  intros Htm Hpend Hslot Hheap Hnext.
  unfold timer_fires at 1. rewrite Htm, Hpend. cbv zeta.
  set (tx := timer_tx tm) in *.
  set (ma := set_timers (<[h := set_timer_pending false tm]> (timers m)) m).
  set (t' := set_timeout_fields (Some true) (_timeoutHandle t) t).
  assert (Hupd : update_transaction tx
                   (λ t, set_timeout_fields (Some true) (_timeoutHandle t) t) ma
                 = set_heap (<[tx := t']> (heap m)) ma).
  { unfold update_transaction. subst ma. simpl. by rewrite Hheap. }
  rewrite Hupd.
  assert (Hl : heap (set_heap (<[tx := t']> (heap m)) ma) !! tx = Some t').
  { simpl. apply list_lookup_insert_eq. by apply lookup_lt_Some in Hheap. }
  rewrite Hl. change (next t') with (next t). rewrite Hnext.
  rewrite call_callback_user.
  set (e := if has_debug t' then attach_error t' new_TransactionTimedOutError
            else new_TransactionTimedOutError).
  set (m1 := set_calls _ _).
  assert (Hlatched : timeout_latched m1).
  { exists tx, t'. subst m1 ma. simpl. split; [done|]. split; [exact Hl | done]. }
  assert (Hspent : timer_spent h m1).
  { exists (set_timer_pending false tm). subst m1 ma. simpl. split; [|reflexivity].
    apply list_lookup_insert_eq. by apply lookup_lt_Some in Htm. }
  destruct (receive_all_latched late h m1 Hlatched Hspent)
    as (m2 & Hr & Hc2 & _ & (tm2 & Htm2 & Hp2)).
  exists m1, m2, e. split; [done|]. split; [done|].
  split; [subst e; by destruct (has_debug t')|].
  split; [done|]. split; [done|].
  unfold timer_fires. by rewrite Htm2, Hp2.
Qed.

Lemma no_callback_after_timeout_witness :
  let m := state_of (writeFC3 (Some 17) (Some 0x6B) 2 (Some (UserCallback 0))
                       (setTimeout (Some 100) engine0)) in
  let late := [0x11; 0x03; 0x04; 0xAE; 0x41; 0x56; 0x52; 0x25; 0x53] in
  ∃ m1 m2 e,
    timer_fires 0 m = Done m1
    ∧ calls m1 = calls m ++ [{| callee := 0; err := Some e; res := None |}]
    ∧ name e = TransactionTimedOutError
    ∧ receive_all [SerialData late; Frame late] m1 = Done m2
    ∧ calls m2 = calls m1
    ∧ timer_fires 0 m2 = Done m2.
Proof.
  intros m late.
  apply (no_callback_after_timeout m 0
           {| timer_tx := 0; timer_duration := 100; timer_pending := true |}
           (set_timeout_fields (Some false) (Some 0%nat)
              (new_transaction 17 (Some 0x6B) 3 (Some 9) false (Some (UserCallback 0))))
           0 [SerialData late; Frame late]); vm_compute; reflexivity.
Defined.

(** C1 as the specification words it fails after a response: the
    transaction stays in its slot with its callback and only the timeout
    sets a latch, so a second frame for the slot calls the callback a
    second time, whether the port emits it or the same bytes arrive again
    on the serial line; and a valid frame after one with a bad CRC does so
    too. *)
Lemma callback_fires_again_after_response :
  let m1 := state_of (writeFC3 (Some 17) (Some 0x6B) 2 (Some (UserCallback 0)) engine0) in
  let frame := [0x11; 0x03; 0x04; 0xAE; 0x41; 0x56; 0x52; 0x25; 0x53] in
  let bad := [0x11; 0x03; 0x04; 0xAE; 0x41; 0x56; 0x52; 0x49; 0xAD] in
  let delivered :=
    {| callee := 0; err := None;
       res := Some (plain (ResRegisters [0xAE41; 0x5652] [0xAE; 0x41; 0x56; 0x52])) |} in
  calls (state_of (_onReceive frame m1)) = [delivered]
  ∧ calls (state_of (receive_all [Frame frame; Frame frame] m1))
    = [delivered; delivered]
  ∧ calls (state_of (receive_all [SerialData frame; SerialData frame] m1))
    = [delivered; delivered]
  ∧ calls (state_of (receive_all [Frame bad; Frame frame] m1))
    = [{| callee := 0; err := Some (new_error Error "CRC error"); res := None |};
       delivered].
Proof. by vm_compute. Qed.

(** ** The stream reassembler *)

(** C4, as the code has it: when the remembered function code is 20 and
    the bytes at offset [i] are the remembered unit id and the code 20, with
    more than [3 + i] bytes buffered, the total frame length is
    [1 + 1 + 1 + buffer[i+2] + 2], that is [buffer[i+2]] plus 5; the frame
    is emitted from offset [i] exactly when the whole buffer holds at least
    that many bytes, and otherwise the scan stops to wait for more. *)
Theorem FC20_frame_length p buffer bufferLength i responseDataLength :
  _cmd p = READ_FILE_RECORD_FUNCTION_CODE →
  buf_get buffer i = Some (_id p) →
  buf_get buffer (i + 1) = Some READ_FILE_RECORD_FUNCTION_CODE →
  BYTES_TO_READ_FILE_TOTAL_LENGTH + i < bufferLength →
  buf_get buffer (i + 2) = Some responseDataLength →
  scan_body p buffer bufferLength i
  = if responseDataLength + 5 <=? bufferLength
    then Emit i (responseDataLength + 5) else Break.
Proof.
  intros Hcmd Hid Hfc Hlen Hrdl. unfold scan_body.
  rewrite Hid, Hfc, Hcmd.
  rewrite (bool_decide_eq_true_2 (Some (_id p) = Some (_id p))) by done.
  cbn [negb].
  rewrite (bool_decide_eq_true_2 (Some READ_FILE_RECORD_FUNCTION_CODE
                                  = Some READ_FILE_RECORD_FUNCTION_CODE)) by done.
  change (READ_FILE_RECORD_FUNCTION_CODE =? READ_DEVICE_IDENTIFICATION_FUNCTION_CODE)
    with false.
  change (READ_FILE_RECORD_FUNCTION_CODE =? READ_FILE_RECORD_FUNCTION_CODE) with true.
  cbn [andb].
  destruct (Z.leb_spec bufferLength (BYTES_TO_READ_FILE_TOTAL_LENGTH + i)); [lia|].
  replace (BYTES_TO_READ_FILE_TOTAL_LENGTH - 1 + i) with (i + 2)
    by (unfold BYTES_TO_READ_FILE_TOTAL_LENGTH; lia).
  rewrite Hrdl.
  replace (1 + 1 + 1 + responseDataLength + CRC_LENGTH) with (responseDataLength + 5)
    by (unfold CRC_LENGTH; lia).
  destruct (responseDataLength + 5 <=? bufferLength); [done|].
  change (Z.land 127 READ_FILE_RECORD_FUNCTION_CODE) with READ_FILE_RECORD_FUNCTION_CODE.
  by rewrite bool_decide_eq_true_2.
Qed.

Lemma FC20_frame_length_witness :
  let p := _port (state_of (writeFC20 (Some 17) 4 1 1 6 (Some (UserCallback 0)) engine0)) in
  let buffer := [0x11; 0x14; 0x04; 0x03; 0x06; 0x12; 0x34; 0x05; 0xE7] in
  scan_body p buffer 9 0 = if 4 + 5 <=? 9 then Emit 0 (4 + 5) else Break.
Proof.
  intros p buffer.
  apply (FC20_frame_length p buffer 9 0 4); vm_compute; reflexivity.
Defined.

(** C4 as the specification words it: with a total length of
    5 + buffer[i+2] + 2 the nine bytes of a complete answer would not be
    enough (11 would be needed); the port emits them, and the engine
    delivers the record. *)
Lemma FC20_spec_length_refuted :
  let m := state_of (writeFC20 (Some 17) 4 1 1 6 (Some (UserCallback 0)) engine0) in
  let answer := [0x11; 0x14; 0x04; 0x03; 0x06; 0x12; 0x34; 0x05; 0xE7] in
  buf_get answer 2 = Some 4
  ∧ blen answer < spec_FC20_total_length 4
  ∧ scan_body (_port m) answer (blen answer) 0 = Emit 0 9
  ∧ (onData_scan answer (_port m)).2 = Some (0, 9)
  ∧ calls (state_of (onData answer m))
    = [{| callee := 0; err := None;
          res := Some (plain (ResFile (Bytes [0x12; 0x34]) 3)) |}].
Proof. by vm_compute. Qed.

Lemma slice_from_last (b : Buffer) (n : Z) :
  0 < n →
  blen (slice_from b (- n)) = Z.min (blen b) n
  ∧ slice_from b (- n) `suffix_of` b
  ∧ (blen b <= n → slice_from b (- n) = b).
Proof.
  intros Hn. pose proof (blen_nonneg b) as Hb.
  split; [|split; [apply slice_from_suffix|]].
  - rewrite blen_slice_from. unfold clamp_index.
    destruct (Z.ltb_spec (- n) 0); lia.
  - intros Hle. unfold slice_from, clamp_index.
    destruct (Z.ltb_spec (- n) 0); [|lia].
    rewrite Z.max_r by lia. done.
Qed.

(** A chunk that the length check stops is appended, and nothing more
    happens: the buffer is not capped. *)
Lemma onData_too_short data m :
  match _length (_port m) with
  | Known n => n < MIN_DATA_LENGTH
  | LENGTH_UNKNOWN => False
  end
  ∨ blen (_buffer (_port m) ++ data) < EXCEPTION_LENGTH →
  onData data m = Done (set_port (set_buffer (_buffer (_port m) ++ data) (_port m)) m).
Proof.
  intros Hshort. unfold onData, onData_scan. cbn [_length set_buffer _buffer].
  destruct (_length (_port m)) as [n|].
  - destruct (Z.ltb_spec n MIN_DATA_LENGTH); [done|].
    destruct (Z.ltb_spec (blen (_buffer (_port m) ++ data)) EXCEPTION_LENGTH); [done|].
    destruct Hshort; lia.
  - destruct (Z.ltb_spec (blen (_buffer (_port m) ++ data)) EXCEPTION_LENGTH); [done|].
    destruct Hshort; [done | lia].
Qed.





(** ** Coils *)

Lemma bits_of_length n reg : List.length (bits_of n reg) = n.
Proof. revert reg. induction n as [|n IH]; intros reg; simpl; [done|]. by rewrite IH. Qed.

Lemma bits_of_lookup n reg (j : nat) :
  (j < n)%nat → bits_of n reg !! j = Some (Z.testbit reg (Z.of_nat j)).
Proof.
  revert reg j. induction n as [|n IH]; intros reg j Hj; [lia|].
  destruct j as [|j]; cbn [bits_of lookup list_lookup].
  - f_equal. change 1 with (Z.ones 1) at 1. rewrite Z.land_ones by lia.
    change (2 ^ 1) with 2. change (Z.of_nat 0) with 0.
    by rewrite Z.bit0_eqb.
  - rewrite IH by lia. f_equal.
    rewrite Z.shiftr_spec by lia. f_equal. lia.
Qed.

Lemma coils_from_length n data i :
  List.length (coils_from n data i) = (8 * n)%nat.
Proof.
  revert i. induction n as [|n IH]; intros i; [done|].
  cbn [coils_from]. rewrite length_app, bits_of_length, IH. lia.
Qed.

(** Entry [k] of the result is bit [k mod 8] of byte [k / 8] of the
    bitmap: each byte is expanded from its least significant bit. *)
Lemma coils_from_lookup n data i (k : nat) :
  (k < 8 * n)%nat →
  coils_from n data i !! k
  = Some (Z.testbit (default 0 (buf_get data (i + 3 + Z.of_nat k / 8)))
            (Z.of_nat k mod 8)).
Proof.
  revert i k. induction n as [|n IH]; intros i k Hk; [lia|].
  cbn [coils_from]. destruct (decide (k < 8)%nat) as [Hlt|Hge].
  - rewrite lookup_app_l by (rewrite bits_of_length; lia).
    rewrite bits_of_lookup by lia.
    rewrite Z.div_small, Z.mod_small by lia. by rewrite Z.add_0_r.
  - rewrite lookup_app_r by (rewrite bits_of_length; lia).
    rewrite bits_of_length, IH by lia. do 2 f_equal.
    + f_equal. f_equal.
      replace (Z.of_nat k) with (Z.of_nat (k - 8) + 1 * 8) by lia.
      rewrite Z.div_add by lia. lia.
    + replace (Z.of_nat k) with (Z.of_nat (k - 8) + 1 * 8) by lia.
      by rewrite Z.mod_add by lia.
Qed.

(** C10: for a frame whose byte count at offset 2 is [B], [_readFC2]
    returns exactly [8 * B] booleans, entry [k] being bit [k mod 8] of
    byte [k / 8] of the bitmap. When [B] is the byte count of an answer to a
    request for [quantity] coils and [quantity] is not a multiple of 8, the
    result is strictly longer than [quantity]: the padding bits of the last
    byte are its last entries. *)
Theorem read_coils_padded data B :
  bytes data → readUInt8 data 2 = Some B →
  ∃ coils buffer,
    _readFC2 data = Some (ResCoils coils buffer)
    ∧ Z.of_nat (List.length coils) = 8 * B
    ∧ (∀ k : nat, Z.of_nat k < 8 * B →
         coils !! k
         = Some (Z.testbit (default 0 (buf_get data (3 + Z.of_nat k / 8)))
                   (Z.of_nat k mod 8)))
    ∧ (∀ quantity, 0 < quantity → quantity mod 8 ≠ 0 →
         B = parseInt_eighths quantity →
         quantity < Z.of_nat (List.length coils)).
Proof.
  intros Hbytes HB.
  assert (0 <= B) as HB0.
  { unfold readUInt8, buf_get in HB. repeat case_match; try done.
    unfold bytes in Hbytes. rewrite Forall_lookup in Hbytes.
    apply Hbytes in HB. lia. }
  unfold _readFC2. rewrite HB. cbn [mbind option_bind].
  eexists _, _. split; [reflexivity|].
  assert (Hlen : Z.of_nat (List.length (coils_from (Z.to_nat B) data 0)) = 8 * B).
  { rewrite coils_from_length. lia. }
  split; [exact Hlen|]. split.
  - intros k Hk. rewrite coils_from_lookup by lia. do 3 f_equal.
  - intros quantity Hq Hmod ->. rewrite Hlen. unfold parseInt_eighths.
    rewrite Z.quot_div_nonneg by lia.
    pose proof (Z.div_mod (quantity - 1 + 8) 8 ltac:(lia)).
    pose proof (Z.mod_pos_bound (quantity - 1 + 8) 8 ltac:(lia)).
    pose proof (Z.div_mod quantity 8 ltac:(lia)).
    pose proof (Z.mod_pos_bound quantity 8 ltac:(lia)).
    lia.
Qed.

Lemma read_coils_padded_witness :
  let data := [0x11; 0x01; 0x02; 0xCD; 0x01; 0x00; 0x00] in
  ∃ coils buffer,
    _readFC2 data = Some (ResCoils coils buffer)
    ∧ Z.of_nat (List.length coils) = 8 * 2
    ∧ (∀ k : nat, Z.of_nat k < 8 * 2 →
         coils !! k
         = Some (Z.testbit (default 0 (buf_get data (3 + Z.of_nat k / 8)))
                   (Z.of_nat k mod 8)))
    ∧ (∀ quantity, 0 < quantity → quantity mod 8 ≠ 0 →
         2 = parseInt_eighths quantity →
         quantity < Z.of_nat (List.length coils)).
Proof.
  intros data. apply (read_coils_padded data 2).
  - unfold bytes, data. repeat constructor; lia.
  - reflexivity.
Defined.

(** ** The timeout is armed by a duration only *)

Lemma _startTimeout_timers duration tx m :
  (falsy duration = true ∧ _startTimeout duration tx m = (None, m))
  ∨ ∃ d, duration = Some d ∧ d ≠ 0
         ∧ timers (_startTimeout duration tx m).2
           = timers m ++ [{| timer_tx := tx; timer_duration := d;
                             timer_pending := true |}].
Proof.
  unfold _startTimeout. destruct (falsy duration) eqn:Hf; [by left|]. right.
  destruct duration as [d|]; [|done]. exists d. simpl in *.
  split; [done|]. split; [|done]. by apply Z.eqb_neq.
Qed.

Lemma arm_timeout_timers tx t m : timers_after m (arm_timeout tx t m).
Proof.
  unfold arm_timeout. destruct (expects_response t); [|by left].
  destruct (_startTimeout_timers (_timeout m) tx m) as [[_ ->]|(d & Hd & Hne & Ht)].
  - left. by destruct (update_transaction_rest tx
                         (set_timeout_fields (Some false) None) m) as (_ & -> & _).
  - right. exists d, tx. split; [done|]. split; [done|].
    destruct (_startTimeout (_timeout m) tx m) as [handle m'].
    by destruct (update_transaction_rest tx
                   (set_timeout_fields (Some false) handle) m') as (_ & -> & _).
Qed.

Lemma _writeBufferToPort_timers_after buffer id m :
  timers_after m (state_of (_writeBufferToPort buffer id m)).
Proof.
  unfold _writeBufferToPort.
  assert (Hpw : ∀ s, timers (state_of (port_write buffer s)) = timers s).
  { intros s. by destruct (port_write_rest buffer s) as (_ & -> & _). }
  destruct (_transactions m !! id) as [tx|]; [|left; apply Hpw].
  destruct (heap m !! tx) as [t|]; [|left; apply Hpw].
  cbv zeta.
  pose proof (arm_timeout_timers tx t m) as H1.
  destruct (stash_request_rest buffer tx (arm_timeout tx t m)) as (_ & H2 & _).
  set (m2 := stash_request buffer tx (arm_timeout tx t m)) in *.
  specialize (Hpw m2).
  assert (H3 : ∀ s, timers s = timers m2 → timers_after m s).
  { intros s Hs. unfold timers_after in *. rewrite Hs, H2. exact H1. }
  destruct (port_write buffer m2) as [m3|e m3]; simpl in *; [|by apply H3].
  destruct (expects_nothing t); simpl; [|by apply H3].
  destruct (next t) as [c|]; simpl; [|by apply H3].
  destruct (call_callback_state c None (Some (plain ResEmpty)) m3) as [cs ->].
  by apply H3.
Qed.

Lemma send_slot_timers_after frame t m :
  timers_after m (state_of (send frame (set_slot t m))).
Proof.
  unfold send. destruct frame as [buf|]; [|by left].
  apply (_writeBufferToPort_timers_after buf _ (set_slot t m)).
Qed.

Lemma report_timers_after next e m : timers_after m (state_of (report next e m)).
Proof. left. by destruct (report_state next e m) as [cs ->]. Qed.

Ltac submission :=
  cbv zeta;
  repeat match goal with
         | |- timers_after _ (state_of (report _ _ _)) => apply report_timers_after
         | |- timers_after _ (state_of (send _ (set_slot _ _))) =>
             apply send_slot_timers_after
         | |- timers_after _ (state_of (Thrown _ _)) => by left
         | |- timers_after _ (state_of (if ?b then _ else _)) => destruct b
         | |- timers_after _ (state_of (match ?x with _ => _ end)) => destruct x
         end.

Lemma submit_timers_after writeBit r next m :
  timers_after m (state_of (submit writeBit r next m)).
Proof.
  destruct r; unfold submit, writeFC1, writeFC2, writeFC3, writeFC4, writeFC5,
    writeFC6, writeFC7, writeFC15, writeFC16, writeFC20, writeFC43, writeFC65;
    submission.
Qed.

Lemma timer_fires_spent h m : no_pending_timer m → timer_fires h m = Done m.
Proof.
  intros Hn. unfold timer_fires.
  destruct (timers m !! h) as [tm|] eqn:Htm; [|done].
  unfold no_pending_timer in Hn. rewrite Forall_lookup in Hn.
  by rewrite (Hn h tm Htm).
Qed.

(** ** Without a duration nothing ever times out *)

Lemma stays_calm_refl m : stays_calm m m.
Proof.
  split; [done|]. split; [|by intros [_ ?]].
  exists []. by rewrite app_nil_r.
Qed.

Lemma stays_calm_trans m s s' : stays_calm m s → stays_calm s s' → stays_calm m s'.
Proof.
  intros (Ht & (new & Hc & Hn) & Hp) (Ht' & (new' & Hc' & Hn') & Hp').
  split; [congruence|]. split.
  - exists (new ++ new'). rewrite Hc', Hc, app_assoc. split; [done|].
    by apply Forall_app.
  - intros Hcalm. apply Hp'. split; [|by apply Hp].
    destruct Hcalm as [Hf _]. by rewrite Ht.
Qed.

(** A step that keeps the duration and the timers and only extends the log. *)
Lemma stays_calm_same m s :
  _timeout s = _timeout m → timers s = timers m → no_timeout_reported m s →
  stays_calm m s.
Proof.
  intros Ht Hti Hn. split; [done|]. split; [done|].
  intros [_ Hp]. unfold no_pending_timer. by rewrite Hti.
Qed.

Lemma stays_calm_log m new :
  Forall (λ c, ¬ timed_out_call c) new →
  stays_calm m (set_calls (calls m ++ new) m).
Proof. intros Hn. apply stays_calm_same; [done | done |]. by exists new. Qed.

Lemma call_cb_log depth c e r m :
  name <$> e ≠ Some TransactionTimedOutError →
  ∃ new, state_of (call_cb depth c e r m) = set_calls (calls m ++ new) m
         ∧ Forall (λ c, ¬ timed_out_call c) new.
Proof.
  assert (Hnil : ∃ new, m = set_calls (calls m ++ new) m
                        ∧ Forall (λ c, ¬ timed_out_call c) new).
  { exists []. by rewrite app_nil_r, set_calls_same. }
  revert c e r. induction depth as [|depth IH]; intros c e r He;
    destruct c as [k|result tx]; simpl.
  - eexists [_]. split; [done|]. by repeat constructor.
  - destruct r as [[[] ? ?]|]; try done.
    destruct (heap m !! tx) as [t|]; [|done]. by destruct (next t).
  - eexists [_]. split; [done|]. by repeat constructor.
  - destruct r as [[[] ? ?]|]; try done.
    destruct (heap m !! tx) as [t|]; [|done].
    destruct (next t) as [c'|]; [|done].
    destruct (has_debug t); apply IH; [|done].
    by destruct e.
Qed.

Lemma call_callback_calm c e r m :
  name <$> e ≠ Some TransactionTimedOutError →
  stays_calm m (state_of (call_callback c e r m)).
Proof.
  intros He. destruct (call_cb_log (List.length (heap m)) c e r m He) as (new & Hs & Hn).
  unfold call_callback. rewrite Hs. by apply stays_calm_log.
Qed.

Lemma receive_next_calm tx e r m :
  name <$> e ≠ Some TransactionTimedOutError →
  stays_calm m (state_of (receive_next tx e r m)).
Proof.
  intros He. unfold receive_next.
  destruct (heap m !! tx) as [t|]; [|apply stays_calm_refl].
  destruct (next t) as [c|]; [|apply stays_calm_refl].
  destruct (has_debug t); apply call_callback_calm; [|done].
  by destruct e.
Qed.

Lemma report_calm next e m :
  name e ≠ TransactionTimedOutError → stays_calm m (state_of (report next e m)).
Proof.
  intros He. unfold report. destruct next; [|apply stays_calm_refl].
  apply call_callback_calm. simpl. congruence.
Qed.

Lemma port_write_calm buffer m : stays_calm m (state_of (port_write buffer m)).
Proof.
  destruct (port_write_rest buffer m) as (_ & Hti & Ht & Hc & _).
  apply stays_calm_same; [done | done |]. exists []. by rewrite app_nil_r.
Qed.

Lemma arm_timeout_calm tx t m : stays_calm m (arm_timeout tx t m).
Proof.
  destruct (arm_timeout_rest tx t m) as (_ & Ht & Hc & _).
  split; [done|]. split; [exists []; by rewrite app_nil_r|].
  intros [Hf Hp]. unfold no_pending_timer.
  destruct (arm_timeout_timers tx t m) as [->|(d & tx' & Hd & Hne & _)]; [done|].
  rewrite Hd in Hf. simpl in Hf. by apply Z.eqb_eq in Hf.
Qed.

Lemma stash_request_calm buffer tx m : stays_calm m (stash_request buffer tx m).
Proof.
  destruct (stash_request_rest buffer tx m) as (_ & Hti & Ht & Hc & _).
  apply stays_calm_same; [done | done |]. exists []. by rewrite app_nil_r.
Qed.

Lemma _writeBufferToPort_calm buffer id m :
  stays_calm m (state_of (_writeBufferToPort buffer id m)).
Proof.
  unfold _writeBufferToPort.
  destruct (_transactions m !! id) as [tx|]; [|apply port_write_calm].
  destruct (heap m !! tx) as [t|]; [|apply port_write_calm].
  cbv zeta.
  eapply stays_calm_trans; [apply (arm_timeout_calm tx t)|].
  eapply stays_calm_trans; [apply (stash_request_calm buffer tx)|].
  set (m2 := stash_request buffer tx (arm_timeout tx t m)).
  pose proof (port_write_calm buffer m2) as Hw.
  destruct (port_write buffer m2) as [m3|e m3]; simpl in *; [|done].
  eapply stays_calm_trans; [exact Hw|].
  destruct (expects_nothing t); [|apply stays_calm_refl].
  destruct (next t) as [c|]; [|apply stays_calm_refl].
  by apply call_callback_calm.
Qed.

Lemma send_slot_calm frame t m : stays_calm m (state_of (send frame (set_slot t m))).
Proof.
  assert (Hs : stays_calm m (set_slot t m)).
  { apply stays_calm_same; [done | done |]. exists []. simpl. by rewrite app_nil_r. }
  unfold send. destruct frame as [buf|]; [|exact Hs].
  eapply stays_calm_trans; [exact Hs|].
  apply (_writeBufferToPort_calm buf _ (set_slot t m)).
Qed.

Ltac calm_steps :=
  cbv zeta;
  repeat match goal with
         | |- stays_calm _ (state_of (report _ _ _)) => by apply report_calm
         | |- stays_calm _ (state_of (send _ (set_slot _ _))) => apply send_slot_calm
         | |- stays_calm _ (state_of (receive_next _ _ _ _)) =>
             by apply receive_next_calm
         | |- stays_calm _ (state_of (call_callback _ _ _ _)) =>
             by apply call_callback_calm
         | |- stays_calm _ (state_of (Thrown _ _)) => apply stays_calm_refl
         | |- stays_calm _ (state_of (Done _)) => apply stays_calm_refl
         | |- stays_calm _ (state_of (if ?b then _ else _)) => destruct b
         | |- stays_calm _ (state_of (match ?x with _ => _ end)) => destruct x
         end.

Lemma submit_calm writeBit r next m :
  stays_calm m (state_of (submit writeBit r next m)).
Proof.
  destruct r; unfold submit, writeFC1, writeFC2, writeFC3, writeFC4, writeFC5,
    writeFC6, writeFC7, writeFC15, writeFC16, writeFC20, writeFC43, writeFC65;
    calm_steps.
Qed.

Lemma writeFC43_calm address deviceIdCode objectId next m :
  stays_calm m (state_of (writeFC43 address deviceIdCode objectId next m)).
Proof. apply (submit_calm (λ _ _ _ b, Some b) (ReadDeviceIdentification _ _ _)). Qed.

Lemma dispatch_calm code data tx t m :
  stays_calm m (state_of (dispatch code data tx t m)).
Proof.
  unfold dispatch, decoded.
  repeat match goal with
         | |- stays_calm _ (state_of (writeFC43 _ _ _ _ _)) => apply writeFC43_calm
         | _ => progress calm_steps
         end.
Qed.

Lemma _cancelTimeout_calm h m : stays_calm m (_cancelTimeout h m).
Proof.
  destruct (_cancelTimeout_rest h m) as (_ & _ & Ht & Hc & _).
  split; [done|]. split; [exists []; by rewrite app_nil_r|].
  intros [_ Hp]. unfold _cancelTimeout, no_pending_timer in *.
  destruct h as [h|]; [|done]. destruct (timers m !! h) as [tm|] eqn:Htm; [|done].
  simpl. apply Forall_insert; done.
Qed.

Lemma _onReceive_calm data m : stays_calm m (state_of (_onReceive data m)).
Proof.
  unfold _onReceive.
  destruct (_transactions m !! _transactionIdRead (_port m)) as [tx|];
    [|apply stays_calm_refl].
  destruct (heap m !! tx) as [t0|]; [|apply stays_calm_refl].
  set (t := set_timeout_fields _ _ _).
  set (m' := set_heap _ _).
  assert (Hm : stays_calm m m').
  { destruct (_cancelTimeout_calm (_timeoutHandle t0) m) as (H1 & H2 & H3).
    split; [done|]. split; [done|]. exact H3. }
  eapply stays_calm_trans; [exact Hm|]. clearbody m' t. clear Hm.
  unfold fail.
  repeat match goal with
         | |- stays_calm _ (state_of (dispatch _ _ _ _ _)) => apply dispatch_calm
         | _ => progress calm_steps
         end.
Qed.

Lemma onData_calm data m : stays_calm m (state_of (onData data m)).
Proof.
  unfold onData. destruct (onData_scan data (_port m)) as [p found].
  assert (Hp : ∀ p' s, stays_calm s (set_port p' s)).
  { intros p' s. apply stays_calm_same; [done | done |].
    exists []. simpl. by rewrite app_nil_r. }
  eapply stays_calm_trans; [apply (Hp p)|].
  destruct found as [[start length]|]; [|apply stays_calm_refl].
  unfold _emitData. set (m1 := set_port p m).
  set (o := if data_listener (_port m1) then _ else Done m1).
  assert (Ho : stays_calm m1 (state_of o)).
  { subst o. destruct (data_listener (_port m1)); [|apply stays_calm_refl].
    apply _onReceive_calm. }
  destruct o as [m2|e m2]; simpl in *; [|done].
  eapply stays_calm_trans; [exact Ho|]. apply Hp.
Qed.

Lemma timer_fires_calm h m : calm m → stays_calm m (state_of (timer_fires h m)).
Proof.
  intros [_ Hp]. rewrite timer_fires_spent by done. apply stays_calm_refl.
Qed.

Lemma run_calm writeBit events m :
  calm m → stays_calm m (run writeBit events m).
Proof.
  revert m. induction events as [|ev events IH]; intros m Hcalm; simpl.
  - apply stays_calm_refl.
  - assert (Hs : stays_calm m (state_of (step writeBit ev m))).
    { destruct ev as [r next|[data|data]|h]; simpl.
      - apply submit_calm.
      - apply _onReceive_calm.
      - apply onData_calm.
      - by apply timer_fires_calm. }
    eapply stays_calm_trans; [exact Hs|]. apply IH.
    destruct Hs as (Ht & _ & Hp). split; [|by apply Hp].
    destruct Hcalm as [Hf _]. by rewrite Ht.
Qed.

(** C9, as the code has it: a submission makes a timer only under a
    configured duration that is not 0. With a falsy duration ([null], unset
    or 0) no submission makes one, whatever response it expects; if no timer
    was waiting before, no timer can fire afterwards, and whatever happens
    next (requests, frames, chunks of serial data, timers coming due) no
    callback is ever called with the timed-out error: the timed-out error
    is delivered only under a duration that is not 0, negative ones
    included. *)
Theorem no_timeout_without_duration writeBit r next m :
  let s := state_of (submit writeBit r next m) in
  timers_after m s
  ∧ (∀ d, _timeout m = Some d → timers s ≠ timers m → d ≠ 0)
  ∧ (falsy (_timeout m) = true →
     timers s = timers m
     ∧ (no_pending_timer m →
        (∀ h, timer_fires h s = Done s)
        ∧ ∀ events, no_timeout_reported m (run writeBit events s)
                    ∧ no_pending_timer (run writeBit events s)))
  ∧ (no_pending_timer m →
     ∀ events, ¬ no_timeout_reported m (run writeBit events s) →
     ∃ d, _timeout m = Some d ∧ d ≠ 0).
Proof.
  intros s. pose proof (submit_timers_after writeBit r next m) as Ha. fold s in Ha.
  assert (Hfalsy : falsy (_timeout m) = true →
     timers s = timers m
     ∧ (no_pending_timer m →
        (∀ h, timer_fires h s = Done s)
        ∧ ∀ events, no_timeout_reported m (run writeBit events s)
                    ∧ no_pending_timer (run writeBit events s))).
  { intros Hf.
    assert (Hs : timers s = timers m).
    { destruct Ha as [Hsame|(d' & tx & Hd' & Hnz & _)]; [done|].
      rewrite Hd' in Hf. simpl in Hf. apply Z.eqb_eq in Hf. done. }
    split; [exact Hs|]. intros Hn.
    assert (Hp : no_pending_timer s) by (unfold no_pending_timer; by rewrite Hs).
    split; [intros h; by apply timer_fires_spent|].
    intros events.
    pose proof (submit_calm writeBit r next m) as Hsub. fold s in Hsub.
    assert (Hcalm : calm s).
    { split; [|done]. destruct Hsub as (-> & _). done. }
    pose proof (stays_calm_trans _ _ _ Hsub (run_calm writeBit events s Hcalm))
      as (_ & Hrep & Hpend).
    split; [exact Hrep|]. by apply Hpend. }
  split; [exact Ha|]. split; [|split; [exact Hfalsy|]].
  - intros d Hd Hne. destruct Ha as [Hsame|(d' & tx & Hd' & Hnz & _)]; [done|].
    rewrite Hd in Hd'. by injection Hd' as <-.
  - intros Hn events Hrep.
    destruct (falsy (_timeout m)) eqn:Hf.
    + destruct (Hfalsy eq_refl) as (_ & Hrun). destruct (Hrun Hn) as (_ & Hev).
      destruct (Hev events) as (Hno & _). done.
    + destruct (_timeout m) as [d|]; [|done]. exists d. split; [done|].
      simpl in Hf. by apply Z.eqb_neq.
Qed.

Lemma no_timeout_without_duration_witness :
  let r := ReadHoldingRegisters (Some 17) (Some 0x6B) 2 in
  let s := state_of (submit (λ _ _ _ b, Some b) r (Some (UserCallback 0)) engine0) in
  let s' := state_of (submit (λ _ _ _ b, Some b) r (Some (UserCallback 0))
                        (setTimeout (Some 100) engine0)) in
  (timers s = timers engine0
   ∧ (∀ h, timer_fires h s = Done s)
   ∧ ∀ events, no_timeout_reported engine0 (run (λ _ _ _ b, Some b) events s)
               ∧ no_pending_timer (run (λ _ _ _ b, Some b) events s))
  ∧ 100 ≠ 0
  ∧ expects_response <$> heap s !! 0%nat = Some true
  ∧ calls (state_of (timer_fires 0 s'))
    = [{| callee := 0; err := Some new_TransactionTimedOutError; res := None |}].
Proof.
  intros r s s'.
  destruct (no_timeout_without_duration (λ _ _ _ b, Some b) r
              (Some (UserCallback 0)) engine0) as (_ & _ & H3 & _).
  destruct (no_timeout_without_duration (λ _ _ _ b, Some b) r
              (Some (UserCallback 0)) (setTimeout (Some 100) engine0))
    as (_ & H2 & _).
  split; [|split; [|split]].
  - destruct H3 as [Hs Hf]; [reflexivity|]. split; [exact Hs|].
    apply Hf. constructor.
  - apply (H2 100); [reflexivity | vm_compute; discriminate].
  - vm_compute. reflexivity.
  - vm_compute. reflexivity.
Defined.

(** C9 as the specification words it fails for a negative duration: the
    test of [_startTimeout] is [!duration], so with [setTimeout(-5)] a
    request starts a timer, and when the timer comes due the caller is
    called with the timed-out error although no positive duration was
    configured. *)
Lemma negative_duration_times_out :
  let r := ReadHoldingRegisters (Some 17) (Some 0x6B) 2 in
  let m := setTimeout (Some (-5)) engine0 in
  let s := state_of (submit (λ _ _ _ b, Some b) r (Some (UserCallback 0)) m) in
  _timeout m = Some (-5) ∧ ¬ (0 < -5)
  ∧ falsy (_timeout m) = false
  ∧ timers s = [{| timer_tx := 0; timer_duration := -5; timer_pending := true |}]
  ∧ calls (state_of (timer_fires 0 s))
    = [{| callee := 0; err := Some new_TransactionTimedOutError; res := None |}].
Proof.
  vm_compute. split; [reflexivity|]. split; [discriminate|]. repeat split; reflexivity.
Qed.

(** * Further properties of the engine and of the port *)

(** ** Writes to a buffer, read back *)

Lemma buf_get_put_eq (b : Buffer) k v :
  0 <= k < blen b → buf_get (put b k v) k = Some v.
Proof.
  intros Hk. unfold buf_get, put.
  destruct (Z.ltb_spec k 0); [lia|].
  apply list_lookup_insert_eq. unfold blen in Hk. lia.
Qed.

Lemma buf_get_put_ne (b : Buffer) k j v :
  0 <= k → j ≠ k → buf_get (put b k v) j = buf_get b j.
Proof.
  intros Hk Hne. unfold buf_get, put.
  destruct (Z.ltb_spec j 0); [done|].
  apply list_lookup_insert_ne. lia.
Qed.

Lemma in_range_inv (b : Buffer) offset width :
  in_range b offset width = true → 0 <= offset ∧ offset + width <= blen b.
Proof. unfold in_range. intros [H1 H2]%andb_prop. split; by apply Z.leb_le. Qed.

Lemma writeUInt8_inv v offset (b b' : Buffer) :
  writeUInt8 v offset b = Some b' →
  0 <= v <= 255 ∧ 0 <= offset ∧ offset + 1 <= blen b ∧ b' = put b offset v.
Proof.
  unfold writeUInt8. destruct (_ && _) eqn:Hg; [|done]. intros [= <-].
  apply andb_prop in Hg as [[H1 H2]%andb_prop H3%in_range_inv].
  apply Z.leb_le in H1, H2. intuition lia.
Qed.

Lemma writeUInt16BE_inv v offset (b b' : Buffer) :
  writeUInt16BE v offset b = Some b' →
  0 <= v <= 65535 ∧ 0 <= offset ∧ offset + 2 <= blen b
  ∧ b' = put (put b offset (v / 256)) (offset + 1) (v mod 256).
Proof.
  unfold writeUInt16BE. destruct (_ && _) eqn:Hg; [|done]. intros [= <-].
  apply andb_prop in Hg as [[H1 H2]%andb_prop H3%in_range_inv].
  apply Z.leb_le in H1, H2. intuition lia.
Qed.

Lemma writeUInt16LE_inv v offset (b b' : Buffer) :
  writeUInt16LE v offset b = Some b' →
  0 <= v <= 65535 ∧ 0 <= offset ∧ offset + 2 <= blen b
  ∧ b' = put (put b offset (v mod 256)) (offset + 1) (v / 256).
Proof.
  unfold writeUInt16LE. destruct (_ && _) eqn:Hg; [|done]. intros [= <-].
  apply andb_prop in Hg as [[H1 H2]%andb_prop H3%in_range_inv].
  apply Z.leb_le in H1, H2. intuition lia.
Qed.

Lemma writeUInt32BE_inv v offset (b b' : Buffer) :
  writeUInt32BE v offset b = Some b' →
  0 <= v <= 4294967295 ∧ 0 <= offset ∧ offset + 4 <= blen b
  ∧ b' = put (put (put (put b offset (v / 16777216))
                            (offset + 1) (v / 65536 mod 256))
                       (offset + 2) (v / 256 mod 256))
                  (offset + 3) (v mod 256).
Proof.
  unfold writeUInt32BE. destruct (_ && _) eqn:Hg; [|done]. intros [= <-].
  apply andb_prop in Hg as [[H1 H2]%andb_prop H3%in_range_inv].
  apply Z.leb_le in H1, H2. intuition lia.
Qed.

Lemma writeUInt8_eq v offset (b : Buffer) :
  0 <= v <= 255 → 0 <= offset → offset + 1 <= blen b →
  writeUInt8 v offset b = Some (put b offset v).
Proof.
  intros Hv Ho Hl. unfold writeUInt8. rewrite in_range_true by lia.
  destruct (Z.leb_spec 0 v); [|lia]. by destruct (Z.leb_spec v 255); [|lia].
Qed.

Lemma writeUInt16BE_eq v offset (b : Buffer) :
  0 <= v <= 65535 → 0 <= offset → offset + 2 <= blen b →
  writeUInt16BE v offset b
  = Some (put (put b offset (v / 256)) (offset + 1) (v mod 256)).
Proof.
  intros Hv Ho Hl. unfold writeUInt16BE. rewrite in_range_true by lia.
  destruct (Z.leb_spec 0 v); [|lia]. by destruct (Z.leb_spec v 65535); [|lia].
Qed.

Lemma writeUInt16LE_eq v offset (b : Buffer) :
  0 <= v <= 65535 → 0 <= offset → offset + 2 <= blen b →
  writeUInt16LE v offset b
  = Some (put (put b offset (v mod 256)) (offset + 1) (v / 256)).
Proof.
  intros Hv Ho Hl. unfold writeUInt16LE. rewrite in_range_true by lia.
  destruct (Z.leb_spec 0 v); [|lia]. by destruct (Z.leb_spec v 65535); [|lia].
Qed.

(** Reading back what was written. *)
Lemma readUInt16LE_put (b : Buffer) offset hi lo :
  0 <= offset → offset + 2 <= blen b →
  readUInt16LE (put (put b offset lo) (offset + 1) hi) offset = Some (hi * 256 + lo).
Proof.
  intros Ho Hl. unfold readUInt16LE.
  rewrite in_range_true by (rewrite ?blen_put; lia).
  rewrite (buf_get_put_ne _ (offset + 1) offset) by lia.
  rewrite !buf_get_put_eq by (rewrite ?blen_put; lia). done.
Qed.

Lemma u16_join v : v / 256 * 256 + v mod 256 = v.
Proof. pose proof (Z.div_mod v 256 ltac:(lia)). lia. Qed.

(** The bytes before the last two are not touched by a write at the end. *)
Lemma take_put (b : Buffer) (n : nat) k v :
  (n <= Z.to_nat k)%nat → take n (put b k v) = take n b.
Proof. intros Hn. unfold put. by apply take_insert_ge. Qed.

Lemma slice_put_end (b : Buffer) k v :
  blen b - 2 <= k → 0 <= k → slice (put b k v) 0 (-2) = slice b 0 (-2).
Proof.
  intros Hk Hk0. unfold slice. rewrite blen_put.
  unfold clamp_index. cbn [Z.ltb Z.compare].
  pose proof (blen_nonneg b).
  rewrite Z.min_l by lia. change (Z.to_nat 0) with 0%nat.
  rewrite !drop_0. apply take_put. lia.
Qed.

Lemma crc_appended (b f : Buffer) :
  writeUInt16LE (crc16 (slice b 0 (-2))) (blen b - 2) b = Some f → passes_crc f.
Proof.
  intros (Hv & Ho & Hl & ->)%writeUInt16LE_inv. unfold passes_crc.
  rewrite !blen_put.
  rewrite !slice_put_end by (rewrite ?blen_put; lia).
  rewrite readUInt16LE_put by lia. by rewrite u16_join.
Qed.

(** ** Every request frame carries its CRC *)

Lemma blen_writeUInt16BE v offset b b' :
  writeUInt16BE v offset b = Some b' → blen b' = blen b.
Proof. intros (_ & _ & _ & ->)%writeUInt16BE_inv. by rewrite !blen_put. Qed.

Lemma blen_writeUInt32BE v offset b b' :
  writeUInt32BE v offset b = Some b' → blen b' = blen b.
Proof. intros (_ & _ & _ & ->)%writeUInt32BE_inv. by rewrite !blen_put. Qed.

Lemma blen_copy_at source target start : blen (copy_at source target start) = blen target.
Proof.
  revert target start. induction source as [|x source IH]; intros target start; [done|].
  cbn [copy_at]. rewrite IH. unfold blen. by rewrite length_insert.
Qed.

Lemma blen_write_registers array offset b b' :
  write_registers array offset b = Some b' → blen b' = blen b.
Proof.
  revert offset b. induction array as [|v array IH]; intros offset b; cbn [write_registers].
  - by intros [= <-].
  - destruct (writeUInt16BE v offset b) as [b1|] eqn:H1; [|done].
    cbn [mbind option_bind]. intros H2%IH. apply blen_writeUInt16BE in H1. congruence.
Qed.

(** One write of a frame builder after the other. *)
Ltac frame_writes H :=
  repeat match type of H with
         | mbind _ ?x = Some _ =>
             let E := fresh "Hw" in
             destruct x eqn:E; [cbn [mbind option_bind] in H | discriminate H]
         end.

Ltac frame_lengths :=
  repeat match goal with
         | H : writeUInt8 _ _ _ = Some _ |- _ => apply blen_writeUInt8 in H
         | H : writeUInt16BE _ _ _ = Some _ |- _ => apply blen_writeUInt16BE in H
         | H : writeUInt32BE _ _ _ = Some _ |- _ => apply blen_writeUInt32BE in H
         | H : write_registers _ _ _ = Some _ |- _ => apply blen_write_registers in H
         | H : (if ?c then _ else _) = Some _ |- _ => destruct c
         | H : match ?v with Numbers _ => _ | Raw _ => _ end = Some _ |- _ => destruct v
         | H : Some (copy_at _ _ _) = Some _ |- _ =>
             injection H as H; apply (f_equal blen) in H;
             rewrite blen_copy_at in H; symmetry in H
         end.

Lemma crc_written codeLength (b f : Buffer) :
  blen b = codeLength + 2 →
  writeUInt16LE (crc16 (slice b 0 (-2))) codeLength b = Some f → passes_crc f.
Proof.
  intros Hl. replace codeLength with (blen b - 2) by lia. apply crc_appended.
Qed.

Ltac frame_length_done :=
  match goal with
  | H : blen _ = blen (alloc ?n) |- _ =>
      let E := fresh in
      assert (E : blen (alloc n) = n)
        by (apply blen_alloc; unfold blen; lia);
      congruence
  end.

Lemma request_frame_crc f : request_frame f → passes_crc f.
Proof.
  intros [a c d l f' H|a c d st f' H|a c d v w f' H|a c f' H|a c d arr f' H
         |a c fn rn rl rt f' H|a c dc oi f' H|a c ps f' H].
  - unfold frame_read in H. frame_writes H. frame_lengths.
    eapply crc_written; [|exact H]. frame_length_done.
  - unfold frame_FC5 in H. frame_writes H. frame_lengths.
    all: eapply crc_written; [|exact H]; frame_length_done.
  - unfold frame_FC6 in H. frame_writes H. destruct w; frame_lengths.
    all: eapply crc_written; [|exact H]; frame_length_done.
  - unfold frame_FC7 in H. frame_writes H. frame_lengths.
    eapply crc_written; [|exact H]. frame_length_done.
  - unfold frame_FC16 in H. cbv zeta in H. frame_writes H. frame_lengths.
    all: eapply crc_written; [|exact H]; frame_length_done.
  - unfold frame_FC20 in H. frame_writes H. frame_lengths.
    eapply crc_written; [|exact H]. frame_length_done.
  - unfold frame_FC43 in H. frame_writes H. frame_lengths.
    eapply crc_written; [|exact H]. frame_length_done.
  - unfold frame_FC65 in H. cbv zeta in H. frame_writes H. frame_lengths.
    eapply crc_written; [|exact H]. frame_length_done.
Qed.

(** ** The bytes of a read request *)

Lemma crc16_range body : bytes body → 0 <= crc16 body <= 65535.
Proof. intros Hb. pose proof (crc16_u16 body Hb). lia. Qed.

(** The two CRC bytes take the last two places of a frame body. *)
Lemma write_crc_bytes (body : Buffer) (x y : Z) :
  bytes body →
  writeUInt16LE (crc16 (slice (body ++ [x; y]) 0 (-2))) (blen body) (body ++ [x; y])
  = Some (body ++ [crc16 body mod 256; crc16 body / 256]).
Proof.
  intros Hb.
  assert (Hs : slice (body ++ [x; y]) 0 (-2) = body).
  { unfold slice, clamp_index. cbn [Z.ltb Z.compare].
    pose proof (blen_nonneg (body ++ [x; y])).
    rewrite Z.min_l by lia. change (Z.to_nat 0) with 0%nat. rewrite drop_0.
    unfold blen. rewrite length_app. cbn [length].
    rewrite Z.max_l by lia.
    replace (Z.to_nat (Z.of_nat (length body + 2) + -2 - 0)) with (length body) by lia.
    by rewrite take_app_length. }
  rewrite Hs. pose proof (crc16_range body Hb).
  pose proof (blen_nonneg body).
  rewrite writeUInt16LE_eq; [|lia|lia|unfold blen in *; rewrite length_app; cbn [length]; lia].
  f_equal. unfold put, blen. rewrite Nat2Z.id.
  replace (Z.to_nat (Z.of_nat (length body) + 1)) with (length body + 1)%nat by lia.
  rewrite insert_app_r_alt by lia. rewrite Nat.sub_diag. cbn [insert list_insert].
  rewrite insert_app_r_alt by lia.
  replace (length body + 1 - length body)%nat with 1%nat by lia. reflexivity.
Qed.

Lemma bytes_u16 v rest : 0 <= v <= 65535 → bytes rest → bytes (v / 256 :: v mod 256 :: rest).
Proof.
  intros Hv Hr. destruct (split_u16 v Hv). unfold bytes in *.
  constructor; [lia|]. constructor; [lia | done].
Qed.

Lemma frame_read_bytes address code dataAddress length :
  0 <= address <= 255 → 0 <= code <= 255 →
  0 <= dataAddress <= 65535 → 0 <= length <= 65535 →
  let body := [address; code; dataAddress / 256; dataAddress mod 256;
               length / 256; length mod 256] in
  frame_read address code dataAddress length
  = Some (body ++ [crc16 body mod 256; crc16 body / 256]).
Proof.
  intros Ha Hc Hd Hl body. unfold frame_read.
  change (alloc (6 + 2)) with [0; 0; 0; 0; 0; 0; 0; 0].
  rewrite writeUInt8_eq by (done || (vm_compute; congruence)).
  cbn [mbind option_bind].
  rewrite writeUInt8_eq by (done || (vm_compute; congruence)).
  cbn [mbind option_bind].
  rewrite writeUInt16BE_eq by (done || (vm_compute; congruence)).
  cbn [mbind option_bind].
  rewrite writeUInt16BE_eq by (done || (vm_compute; congruence)).
  cbn [mbind option_bind].
  apply (write_crc_bytes body 0 0).
  unfold bytes. constructor; [lia|]. constructor; [lia|].
  apply bytes_u16; [done|]. apply bytes_u16; [done|]. constructor.
Qed.

(** ** What a submission registers *)

(** [write] remembers the unit, the function code and the length of the
    answer of a request of six bytes or more. *)
Lemma write_remembers (data : Buffer) (p : RTUBufferedPort) id cmd len :
  MIN_DATA_LENGTH <= blen data →
  buf_get data 0 = Some id → buf_get data 1 = Some cmd →
  answer_length data cmd = Some len →
  ∃ p', write data p = Some p'
        ∧ _id p' = id ∧ _cmd p' = cmd ∧ _length p' = len
        ∧ client_written p' = client_written p ++ [data]
        ∧ _buffer p' = _buffer p ∧ client_isOpen p' = client_isOpen p
        ∧ data_listener p' = data_listener p
        ∧ _transactionIdRead p' = _transactionIdRead p
        ∧ _transactionIdWrite p' = _transactionIdWrite p.
Proof.
  intros Hlen H0 H1 Ha. unfold write, MIN_DATA_LENGTH in *.
  destruct (Z.ltb_spec (blen data) 6); [lia|].
  rewrite H0, H1. cbn [mbind option_bind]. rewrite Ha. cbn [mbind option_bind].
  eexists. split; [done|]. done.
Qed.

Lemma insert_last {A} (l : list A) (x y : A) :
  <[List.length l := y]> (l ++ [x]) = l ++ [y].
Proof. rewrite insert_app_r_alt by lia. by rewrite Nat.sub_diag. Qed.

(** The transaction that a request leaves in its slot when an answer is
    awaited or its length is not known: the object of the request with the
    timeout fields set, and in debug mode with a copy of the frame. *)
Lemma send_registered buf t m :
  MIN_DATA_LENGTH <= blen buf → expects_nothing t = false →
  ∃ s t' p',
    send (Some buf) (set_slot t m) = Done s
    ∧ write buf (_port m) = Some p' ∧ _port s = p'
    ∧ _transactions s
      = <[_transactionIdWrite (_port m) := List.length (heap m)]> (_transactions m)
    ∧ heap s = heap m ++ [t']
    ∧ calls s = calls m ∧ _timeout s = _timeout m
    ∧ _debugEnabled s = _debugEnabled m
    ∧ _enron s = _enron m ∧ _enronTables s = _enronTables m
    ∧ nextAddress t' = nextAddress t ∧ nextDataAddress t' = nextDataAddress t
    ∧ nextCode t' = nextCode t ∧ nextLength t' = nextLength t
    ∧ lengthUnknown t' = lengthUnknown t ∧ next t' = next t
    ∧ (request t', responses t')
      = (if _debugEnabled m then (Some buf, Some []) else (request t, responses t))
    ∧ (timers s, _timeoutFired t', _timeoutHandle t')
      = (if expects_response t then
           if falsy (_timeout m) then (timers m, Some false, None)
           else (timers m ++ [{| timer_tx := List.length (heap m);
                                 timer_duration := default 0 (_timeout m);
                                 timer_pending := true |}],
                 Some false, Some (List.length (timers m)))
         else (timers m, _timeoutFired t, _timeoutHandle t)).
Proof.
  intros Hlen Hnothing. rewrite send_fresh. cbv zeta. rewrite Hnothing.
  destruct (write_long buf (_port m) Hlen) as (p' & Hw & _).
  assert (Hl : ∀ x : transaction, (heap m ++ [x]) !! List.length (heap m) = Some x).
  { intros x. rewrite lookup_app_r by lia. by rewrite Nat.sub_diag. }
  unfold arm_timeout, _startTimeout, stash_request, update_transaction, port_write.
  destruct m as [port trans hp tms tmo uid dbg enr ent cls].
  cbn [heap _port _timeout _debugEnabled timers _transactions calls] in *.
  cbn -[write lookup insert falsy expects_response].
  destruct (expects_response t), (falsy tmo), dbg;
    cbn -[write lookup insert]; rewrite ?Hl; cbn -[write lookup insert];
    rewrite ?insert_last, ?Hl; cbn -[write lookup insert];
    rewrite ?insert_last, Hw; cbn [and_then];
    eexists _, _, p'; (split; [reflexivity|]); (split; [reflexivity|]);
    cbn; repeat split; try reflexivity.
Qed.

(** ** A read request on the wire, and its timeout *)

Lemma parseInt_eighths_ceil length :
  0 <= length → parseInt_eighths length = (length + 7) / 8.
Proof.
  intros Hl. unfold parseInt_eighths.
  rewrite Z.quot_div_nonneg by lia. f_equal. lia.
Qed.

Lemma read_frame_answer_length address code dataAddress length c1 c2 :
  0 <= length <= 65535 →
  answer_length [address; code; dataAddress / 256; dataAddress mod 256;
                 length / 256; length mod 256; c1; c2] code
  = if (code =? 1) || (code =? 2) then Some (Known (3 + parseInt_eighths length + 2))
    else if (code =? 3) || (code =? 4) then Some (Known (3 + 2 * length + 2))
    else answer_length [address; code; dataAddress / 256; dataAddress mod 256;
                 length / 256; length mod 256; c1; c2] code.
Proof.
  intros Hl. unfold answer_length.
  assert (Hr : readUInt16BE [address; code; dataAddress / 256; dataAddress mod 256;
                 length / 256; length mod 256; c1; c2] 4 = Some length).
  { transitivity (Some (length / 256 * 256 + length mod 256)); [reflexivity|].
    f_equal. apply u16_join. }
  rewrite Hr. cbn [mbind option_bind].
  destruct ((code =? 1) || (code =? 2)); [done|].
  by destruct ((code =? 3) || (code =? 4)).
Qed.

(** A read request on an open port, with arguments in range: what it
    sends, what the port remembers and what the engine registers. *)
Lemma read_request_registered writeBit m r code address dataAddress length k :
  isOpen m = true → _enron m = false →
  0 < address <= 255 → 0 <= dataAddress <= 65535 → 0 <= length <= 65535 →
  (r, code) ∈ [(ReadCoils (Some address) (Some dataAddress) length, 1);
               (ReadDiscreteInputs (Some address) (Some dataAddress) length, 2);
               (ReadHoldingRegisters (Some address) (Some dataAddress) length, 3);
               (ReadInputRegisters (Some address) (Some dataAddress) length, 4)] →
  let body := [address; code; dataAddress / 256; dataAddress mod 256;
               length / 256; length mod 256] in
  let frame := body ++ [crc16 body mod 256; crc16 body / 256] in
  let expected := if code <=? 2 then 3 + (length + 7) / 8 + 2 else 3 + 2 * length + 2 in
  ∃ s t p',
    submit writeBit r (Some (UserCallback k)) m = Done s
    ∧ _port s = p'
    ∧ _id p' = address ∧ _cmd p' = code ∧ _length p' = Known expected
    ∧ client_written p' = client_written (_port m) ++ [frame]
    ∧ _transactionIdWrite p' = _transactionIdWrite (_port m)
    ∧ _transactions s
      = <[_transactionIdWrite (_port m) := List.length (heap m)]> (_transactions m)
    ∧ heap s = heap m ++ [t]
    ∧ calls s = calls m
    ∧ nextAddress t = address ∧ nextCode t = code
    ∧ nextLength t = Some expected ∧ next t = Some (UserCallback k)
    ∧ (request t, responses t)
      = (if _debugEnabled m then (Some frame, Some []) else (None, None))
    ∧ (timers s, _timeoutFired t, _timeoutHandle t)
      = (if falsy (_timeout m) then (timers m, Some false, None)
         else (timers m ++ [{| timer_tx := List.length (heap m);
                               timer_duration := default 0 (_timeout m);
                               timer_pending := true |}],
               Some false, Some (List.length (timers m)))).
Proof.
  intros Hopen Henron Ha Hd Hl Hr body frame expected.
  assert (Hcode : 1 <= code <= 4).
  { repeat (apply elem_of_cons in Hr as [[= _ ->]|Hr]; [lia|]). by apply elem_of_nil in Hr. }
  assert (Hframe : frame_read address code dataAddress length = Some frame).
  { apply frame_read_bytes; lia. }
  assert (Hexp : ∃ n, 5 <= n ∧ expected = n
            ∧ n = (if (code =? 1) || (code =? 2) then 3 + parseInt_eighths length + 2
                   else 3 + 2 * length + 2)).
  { eexists. split; [|split; [|reflexivity]].
    - rewrite parseInt_eighths_ceil by lia.
      pose proof (Z.div_pos (length + 7) 8 ltac:(lia) ltac:(lia)).
      destruct ((code =? 1) || (code =? 2)); lia.
    - subst expected. rewrite parseInt_eighths_ceil by lia.
      destruct (Z.leb_spec code 2), (Z.eqb_spec code 1), (Z.eqb_spec code 2);
        simpl; lia. }
  destruct Hexp as (n & Hn5 & Hexp & Hn).
  assert (Hsub : submit writeBit r (Some (UserCallback k)) m
                 = send (Some frame)
                     (set_slot (new_transaction address
                                  (if code <=? 2 then None else Some dataAddress)
                                  code (Some n) false (Some (UserCallback k))) m)).
  { repeat (apply elem_of_cons in Hr as [[= -> ->]|Hr];
      [unfold submit, writeFC1, writeFC3, writeFC2, writeFC4, enron_wide;
       rewrite Hopen, ?Henron; cbn [negb code_or Z.eqb Pos.eqb];
       destruct (Z.eqb_spec address BROADCAST_ADDRESS) as [Hb|_];
         [unfold BROADCAST_ADDRESS in Hb; lia|];
       cbv zeta; rewrite Hframe; subst n; reflexivity|]).
    by apply elem_of_nil in Hr. }
  rewrite Hsub.
  set (t := new_transaction _ _ _ _ _ _).
  destruct (send_registered frame t m) as (s & t' & p' & Hs & Hw & Hp & Htr & Hh & Hc & _ & _
    & _ & _ & Hna & _ & Hnc & Hnl & _ & Hnx & Hdbg & Htm).
  { vm_compute. congruence. }
  { unfold expects_nothing. cbn. apply Z.eqb_neq. lia. }
  destruct (write_remembers frame (_port m) address code (Known n))
    as (p2 & Hw2 & Hid & Hcmd & Hlen & Hcw & _ & _ & _ & _ & Hidw).
  { vm_compute. congruence. }
  { reflexivity. } { reflexivity. }
  { subst frame body. cbn [app]. rewrite read_frame_answer_length by done.
    rewrite Hn. destruct ((code =? 1) || (code =? 2)) eqn:H12; [done|].
    destruct ((code =? 3) || (code =? 4)) eqn:H34; [done|].
    exfalso. apply orb_false_elim in H12 as [?%Z.eqb_neq ?%Z.eqb_neq].
    apply orb_false_elim in H34 as [?%Z.eqb_neq ?%Z.eqb_neq]. lia. }
  rewrite Hw in Hw2. injection Hw2 as <-.
  assert (Her : expects_response t = true).
  { unfold expects_response. cbn. apply Z.ltb_lt. lia. }
  rewrite Her in Htm.
  exists s, t', p'. rewrite Hna, Hnc, Hnx, Hnl, Hexp. by repeat split.
Qed.

(** X2: a read request (FC1 to FC4) on an open port, with a unit address
    from 1 to 255 and a data address and a quantity of 16 bits, goes out as
    the eight bytes unit, function code, data address and quantity (high
    byte first) and the CRC (low byte first); the engine registers a
    transaction that awaits as many bytes as the port will cut from the
    stream: 5 + 2 * quantity for registers, 5 + ceil(quantity / 8) for
    coils. *)
Theorem read_request_sent writeBit m r code address dataAddress length k :
  isOpen m = true → _enron m = false →
  0 < address <= 255 → 0 <= dataAddress <= 65535 → 0 <= length <= 65535 →
  (r, code) ∈ [(ReadCoils (Some address) (Some dataAddress) length, 1);
               (ReadDiscreteInputs (Some address) (Some dataAddress) length, 2);
               (ReadHoldingRegisters (Some address) (Some dataAddress) length, 3);
               (ReadInputRegisters (Some address) (Some dataAddress) length, 4)] →
  let body := [address; code; dataAddress / 256; dataAddress mod 256;
               length / 256; length mod 256] in
  let frame := body ++ [crc16 body mod 256; crc16 body / 256] in
  let expected := if code <=? 2 then 3 + (length + 7) / 8 + 2 else 3 + 2 * length + 2 in
  ∃ s t,
    submit writeBit r (Some (UserCallback k)) m = Done s
    ∧ client_written (_port s) = client_written (_port m) ++ [frame]
    ∧ calls s = calls m
    ∧ _transactions s !! _transactionIdWrite (_port s) = Some (List.length (heap m))
    ∧ heap s !! List.length (heap m) = Some t
    ∧ nextAddress t = address ∧ nextCode t = code
    ∧ next t = Some (UserCallback k)
    ∧ nextLength t = Some expected
    ∧ _id (_port s) = address ∧ _cmd (_port s) = code
    ∧ _length (_port s) = Known expected.
Proof.
  intros Hopen Henron Ha Hd Hl Hr body frame expected.
  destruct (read_request_registered writeBit m r code address dataAddress length k
              Hopen Henron Ha Hd Hl Hr)
    as (s & t & p' & Hs & Hp & Hid & Hcmd & Hlen & Hcw & Hidw & Htr & Hh & Hc
        & Hna & Hnc & Hnl & Hnx & _).
  exists s, t. rewrite Hp, Hidw, Htr, Hh.
  split; [done|]. split; [done|]. split; [done|].
  split; [apply lookup_insert_eq|].
  split; [rewrite lookup_app_r by lia; by rewrite Nat.sub_diag|]. done.
Qed.

Lemma read_request_sent_witness :
  ∃ s t,
    submit (λ _ _ _ b, Some b) (ReadHoldingRegisters (Some 17) (Some 0x6B) 3)
      (Some (UserCallback 0)) engine0 = Done s
    ∧ client_written (_port s)
      = client_written (_port engine0)
        ++ [[17; 3; 0x6B / 256; 0x6B mod 256; 3 / 256; 3 mod 256]
            ++ [crc16 [17; 3; 0x6B / 256; 0x6B mod 256; 3 / 256; 3 mod 256] mod 256;
                crc16 [17; 3; 0x6B / 256; 0x6B mod 256; 3 / 256; 3 mod 256] / 256]]
    ∧ calls s = calls engine0
    ∧ _transactions s !! _transactionIdWrite (_port s) = Some (List.length (heap engine0))
    ∧ heap s !! List.length (heap engine0) = Some t
    ∧ nextAddress t = 17 ∧ nextCode t = 3
    ∧ next t = Some (UserCallback 0%nat)
    ∧ nextLength t = Some (if 3 <=? 2 then 3 + (3 + 7) / 8 + 2 else 3 + 2 * 3 + 2)
    ∧ _id (_port s) = 17 ∧ _cmd (_port s) = 3
    ∧ _length (_port s) = Known (if 3 <=? 2 then 3 + (3 + 7) / 8 + 2 else 3 + 2 * 3 + 2).
Proof.
  apply (read_request_sent (λ _ _ _ b, Some b) engine0
           (ReadHoldingRegisters (Some 17) (Some 0x6B) 3) 3 17 0x6B 3 0);
    try reflexivity; try lia.
  do 2 constructor 2. constructor 1.
Defined.

(** X3: with a duration configured that is not 0, a read request starts one
    timer of that duration for its transaction; when the timer comes due
    before any frame, the caller's function is called with the timed-out
    error (in debug mode with the request frame and the empty list of
    responses), and the transaction is marked as timed out. *)
Theorem timeout_reported_for_request writeBit m r code address dataAddress length k d :
  isOpen m = true → _enron m = false →
  0 < address <= 255 → 0 <= dataAddress <= 65535 → 0 <= length <= 65535 →
  (r, code) ∈ [(ReadCoils (Some address) (Some dataAddress) length, 1);
               (ReadDiscreteInputs (Some address) (Some dataAddress) length, 2);
               (ReadHoldingRegisters (Some address) (Some dataAddress) length, 3);
               (ReadInputRegisters (Some address) (Some dataAddress) length, 4)] →
  _timeout m = Some d → d ≠ 0 →
  let body := [address; code; dataAddress / 256; dataAddress mod 256;
               length / 256; length mod 256] in
  let frame := body ++ [crc16 body mod 256; crc16 body / 256] in
  ∃ s s' e t,
    submit writeBit r (Some (UserCallback k)) m = Done s
    ∧ timers s = timers m ++ [{| timer_tx := List.length (heap m); timer_duration := d;
                                 timer_pending := true |}]
    ∧ timer_fires (List.length (timers m)) s = Done s'
    ∧ calls s' = calls m ++ [{| callee := k; err := Some e; res := None |}]
    ∧ name e = TransactionTimedOutError
    ∧ message e = TRANSACTION_TIMED_OUT_MESSAGE
    ∧ (modbusRequest e, modbusResponses e)
      = (if _debugEnabled m then (Some frame, Some []) else (None, None))
    ∧ heap s' !! List.length (heap m) = Some t
    ∧ _timeoutFired t = Some true
    ∧ timers s' !! List.length (timers m)
      = Some {| timer_tx := List.length (heap m); timer_duration := d;
                timer_pending := false |}.
Proof.
  intros Hopen Henron Ha Hd Hl Hr Ht Hd0 body frame.
  destruct (read_request_registered writeBit m r code address dataAddress length k
              Hopen Henron Ha Hd Hl Hr)
    as (s & t & p' & Hs & Hp & _ & _ & _ & _ & _ & Htr & Hh & Hc
        & _ & _ & _ & Hnx & Hdbg & Htm).
  fold body frame in Hdbg.
  rewrite Ht in Htm. cbn [falsy default] in Htm.
  destruct (Z.eqb_spec d 0) as [|_]; [done|].
  injection Htm as Htimers Hfired Hhandle.
  set (tm := {| timer_tx := List.length (heap m); timer_duration := d;
                timer_pending := true |}) in *.
  assert (Hl1 : timers s !! List.length (timers m) = Some tm).
  { rewrite Htimers, lookup_app_r by lia. by rewrite Nat.sub_diag. }
  assert (Hl2 : heap s !! List.length (heap m) = Some t).
  { rewrite Hh, lookup_app_r by lia. by rewrite Nat.sub_diag. }
  set (t' := set_timeout_fields (Some true) (_timeoutHandle t) t).
  set (e := if has_debug t' then attach_error t' new_TransactionTimedOutError
            else new_TransactionTimedOutError).
  eexists s, _, e, t'. split; [done|]. split; [done|].
  unfold timer_fires. rewrite Hl1. cbn [timer_pending tm timer_tx]. cbv zeta.
  unfold update_transaction. cbn [heap set_timers]. rewrite Hl2.
  cbn [heap set_heap]. rewrite list_lookup_insert_eq by (by apply lookup_lt_Some in Hl2).
  fold t'. change (next t') with (next t). rewrite Hnx, call_callback_user.
  split; [reflexivity|]. cbn [calls set_calls set_heap set_timers heap timers].
  split; [by rewrite Hc|].
  subst e. unfold has_debug.
  change (request t') with (request t). change (responses t') with (responses t).
  destruct (_debugEnabled m); injection Hdbg as Hrq Hrs; rewrite Hrq, ?Hrs.
  - cbn [attach_error name message modbusRequest modbusResponses].
    change (request t') with (request t). change (responses t') with (responses t).
    rewrite Hrq, Hrs.
    split; [done|]. split; [done|]. split; [done|].
    split; [apply list_lookup_insert_eq; by apply lookup_lt_Some in Hl2|].
    split; [done|]. apply list_lookup_insert_eq. by apply lookup_lt_Some in Hl1.
  - split; [done|]. split; [done|]. split; [done|].
    split; [apply list_lookup_insert_eq; by apply lookup_lt_Some in Hl2|].
    split; [done|]. apply list_lookup_insert_eq. by apply lookup_lt_Some in Hl1.
Qed.

(** ** One answer for one frame *)

Lemma answers_once_silent k valid m s : calls s = calls m → answers_once k valid m s.
Proof.
  intros Hc. exists []. rewrite app_nil_r. split; [done|]. split; [simpl; lia|].
  intros c Hin. by apply elem_of_nil in Hin.
Qed.

Lemma answers_once_error k valid tx t e m :
  heap m !! tx = Some t → next t = Some (UserCallback k) →
  answers_once k valid m (state_of (receive_next tx (Some e) None m)).
Proof.
  intros Hh Hn.
  destruct (receive_next_user tx t k (Some e) None m Hh Hn) as (e' & r' & -> & He & Hr).
  eexists [_]. split; [done|]. split; [simpl; lia|].
  intros c ->%list_elem_of_singleton. cbn [callee err res].
  assert (r' = None) as -> by (subst r'; by destruct (has_debug t)).
  assert (is_Some e') as [e0 ->] by (subst e'; destruct (has_debug t); by eexists).
  split; [done|]. split; [|by intros [? ?]].
  split; [done | by intros [? ?]].
Qed.

Lemma answers_once_result k (valid : Prop) tx t r m :
  heap m !! tx = Some t → next t = Some (UserCallback k) → valid →
  answers_once k valid m (state_of (receive_next tx None (Some r) m)).
Proof.
  intros Hh Hn Hv.
  destruct (receive_next_user tx t k None (Some r) m Hh Hn) as (e' & r' & -> & He & Hr).
  eexists [_]. split; [done|]. split; [simpl; lia|].
  intros c ->%list_elem_of_singleton. cbn [callee err res].
  assert (e' = None) as -> by (subst e'; by destruct (has_debug t)).
  assert (is_Some r') as [r0 ->] by (subst r'; destruct (has_debug t); by eexists).
  split; [done|]. split; [|done]. split; [by eexists | done].
Qed.

(** A request that awaits an answer calls nobody while it is sent. *)
Lemma send_slot_calls frame t m :
  expects_nothing t = false → calls (state_of (send frame (set_slot t m))) = calls m.
Proof.
  intros Hn. destruct frame as [buf|]; [|done].
  rewrite send_fresh. cbv zeta. rewrite Hn.
  set (tx := List.length (heap m)).
  destruct (arm_timeout_rest tx t (set_slot t m)) as (_ & _ & H1 & _).
  destruct (stash_request_rest buf tx (arm_timeout tx t (set_slot t m))) as (_ & _ & _ & H2 & _).
  set (m2 := stash_request buf tx (arm_timeout tx t (set_slot t m))) in *.
  destruct (port_write_rest buf m2) as (_ & _ & _ & H3 & _).
  destruct (port_write buf m2); simpl in *; congruence.
Qed.

(** The follow-up request of [_readFC43] calls nobody. *)
Lemma followup_calls address deviceIdCode objectId result tx m :
  calls (state_of (writeFC43 address deviceIdCode objectId (Some (FC43Merge result tx)) m))
  = calls m.
Proof.
  assert (Hr : ∀ e, calls (state_of (report (Some (FC43Merge result tx)) e m)) = calls m).
  { intros e. unfold report, call_callback. by destruct (List.length (heap m)). }
  unfold writeFC43. destruct (negb (isOpen m)); [apply Hr|].
  destruct address as [a|]; [|apply Hr].
  destruct (a =? BROADCAST_ADDRESS); [apply Hr|].
  by apply send_slot_calls.
Qed.

Lemma dispatch_answers k (valid : Prop) code data tx t m :
  heap m !! tx = Some t → next t = Some (UserCallback k) → valid →
  answers_once k valid m (state_of (dispatch code data tx t m)).
Proof.
  intros Hh Hn Hv. unfold dispatch, decoded. rewrite Hn.
  repeat match goal with
         | |- answers_once _ _ _ (state_of (receive_next _ None (Some _) _)) =>
             by eapply answers_once_result
         | |- answers_once _ _ _ (state_of (writeFC43 _ _ _ _ _)) =>
             apply answers_once_silent, followup_calls
         | |- answers_once _ _ _ (state_of (Thrown _ _)) => by apply answers_once_silent
         | |- answers_once _ _ _ (state_of (Done _)) => by apply answers_once_silent
         | |- answers_once _ _ _ (state_of (if ?b then _ else _)) => destruct b
         | |- answers_once _ _ _ (state_of (match ?x with _ => _ end)) => destruct x
         | |- answers_once _ _ _ (state_of (call_callback (UserCallback _) _ _ _)) =>
             rewrite call_callback_user; eexists [_]; split; [done|]; split; [simpl; lia|];
             intros c ->%list_elem_of_singleton; cbn [callee err res];
             split; [done|]; split; [|done]; split; [by eexists | done]
         end.
Qed.

Lemma _onReceive_answers data m tx t0 k :
  _transactions m !! _transactionIdRead (_port m) = Some tx →
  heap m !! tx = Some t0 →
  next t0 = Some (UserCallback k) →
  answers_once k (_timeoutFired t0 ≠ Some true ∧ accepted t0 data)
    m (state_of (_onReceive data m)).
Proof.
  intros Hslot Hheap Hnext.
  destruct (_onReceive_prepared data m tx t0 Hslot Hheap)
    as (m' & t & Ht & Hm' & Hh' & Hc' & _ & _ & Hn' & Hf' & Hcode' & Hu' & Ha' & He' & Hi').
  assert (Hnl : nextLength t = nextLength t0).
  { subst t. unfold push_response. by destruct (responses t0). }
  unfold _onReceive. rewrite Hslot, Hheap. rewrite <- Ht, <- Hm'.
  unfold answers_once. rewrite <- Hc'. fold (answers_once k (_timeoutFired t0 ≠ Some true ∧ accepted t0 data) m').
  assert (Hnt : next t = Some (UserCallback k)) by congruence.
  destruct (bool_decide (_timeoutFired t = Some true)) eqn:Hfired;
    [by apply answers_once_silent|].
  apply bool_decide_eq_false in Hfired.
  destruct (negb (lengthUnknown t) && (blen data <? 5)) eqn:Hshort;
    [by eapply answers_once_error|].
  destruct (readUInt16LE data (blen data - 2)) as [crcIn|] eqn:Hcrc;
    [|by apply answers_once_silent].
  destruct (Z.eqb_spec crcIn (crc16 (slice data 0 (-2)))) as [->|Hbad]; cbn [negb];
    [|by eapply answers_once_error].
  destruct (readUInt8 data 0) as [address|] eqn:Haddr; [|by apply answers_once_silent].
  destruct (readUInt8 data 1) as [code|] eqn:Hcode; [|by apply answers_once_silent].
  destruct ((5 <=? blen data) && (code =? Z.lor 128 (nextCode t))).
  { destruct (readUInt8 data 2); [by eapply answers_once_error|by apply answers_once_silent]. }
  destruct (_enron m' && enron_tables_invalid m'); [by eapply answers_once_error|].
  destruct (negb (lengthUnknown t) && negb (bool_decide (Some (blen data) = nextLength t)))
    eqn:Hlen; [by eapply answers_once_error|].
  destruct (Z.eqb_spec address (nextAddress t)) as [->|]; cbn [negb];
    [|by eapply answers_once_error].
  destruct (Z.eqb_spec code (nextCode t)) as [->|]; cbn [negb];
    [|by eapply answers_once_error].
  apply dispatch_answers; [done | done |].
  split; [congruence|]. split; [exact Hcrc|].
  split; [congruence|]. split; [congruence|].
  intros Hknown. rewrite <- Hu' in Hknown. rewrite Hknown in Hshort, Hlen.
  cbn [negb andb] in Hshort, Hlen.
  apply Z.ltb_ge in Hshort. apply negb_false_iff, bool_decide_eq_true in Hlen.
  split; [done | congruence].
Qed.

(** ** Slices *)

Lemma blen_slice (b : Buffer) s e :
  0 <= s → s <= e → e <= blen b → blen (slice b s e) = e - s.
Proof.
  intros Hs Hse He. unfold slice, clamp_index.
  destruct (Z.ltb_spec s 0); [lia|]. destruct (Z.ltb_spec e 0); [lia|].
  rewrite !Z.min_l by lia. unfold blen in *.
  rewrite length_take, length_drop. lia.
Qed.

Lemma buf_get_slice (b : Buffer) s e j :
  0 <= s → s <= e → e <= blen b → 0 <= j < e - s →
  buf_get (slice b s e) j = buf_get b (s + j).
Proof.
  intros Hs Hse He Hj. unfold slice, clamp_index, buf_get.
  destruct (Z.ltb_spec s 0); [lia|]. destruct (Z.ltb_spec e 0); [lia|].
  destruct (Z.ltb_spec j 0); [lia|]. destruct (Z.ltb_spec (s + j) 0); [lia|].
  rewrite !Z.min_l by lia.
  rewrite lookup_take_lt by lia. rewrite lookup_drop. f_equal. lia.
Qed.

(** ** The scan of [onData] *)

Lemma scan_body_whole p buffer bufferLength i start length :
  _cmd p ≠ READ_FILE_RECORD_FUNCTION_CODE →
  _cmd p ≠ READ_DEVICE_IDENTIFICATION_FUNCTION_CODE →
  0 <= i →
  scan_body p buffer bufferLength i = Emit start length →
  start = i ∧ whole_frame p buffer bufferLength start length.
Proof.
  intros H20 H43 Hi. unfold scan_body, whole_frame.
  destruct (bool_decide (buf_get buffer i = Some (_id p))) eqn:Hid; [|done].
  apply bool_decide_eq_true in Hid. cbn [negb].
  destruct (Z.eqb_spec (_cmd p) READ_DEVICE_IDENTIFICATION_FUNCTION_CODE); [done|].
  destruct (Z.eqb_spec (_cmd p) READ_FILE_RECORD_FUNCTION_CODE); [done|].
  rewrite !andb_false_r.
  assert (Htail : ∀ r : scan_result,
            r = Break ∨ r = Continue → r = Emit start length → False)
    by (intros r [-> | ->]; done).
  set (tail := if bool_decide _ then Break else Continue).
  assert (Htl : tail = Break ∨ tail = Continue) by (subst tail; case_bool_decide; auto).
  clearbody tail.
  destruct (_length p) as [expectedLength|].
  - destruct (bool_decide (buf_get buffer (i + 1) = Some (_cmd p))) eqn:Hc.
    + apply bool_decide_eq_true in Hc. cbn [andb].
      destruct (Z.leb_spec (i + expectedLength) bufferLength).
      * intros [= <- <-]. split; [done|]. split; [done|]. split; [done|]. split; [done|].
        by left.
      * destruct (bool_decide (buf_get buffer (i + 1) = Some (Z.lor 128 (_cmd p)))) eqn:He;
          cbn [andb]; [|by intros H'; destruct (Htail _ Htl H')].
        apply bool_decide_eq_true in He.
        destruct (Z.leb_spec (i + EXCEPTION_LENGTH) bufferLength);
          [|by intros H'; destruct (Htail _ Htl H')].
        intros [= <- <-]. split; [done|]. split; [done|]. split; [done|]. split; [done|].
        by right.
    + cbn [andb].
      destruct (bool_decide (buf_get buffer (i + 1) = Some (Z.lor 128 (_cmd p)))) eqn:He;
        cbn [andb]; [|by intros H'; destruct (Htail _ Htl H')].
      apply bool_decide_eq_true in He.
      destruct (Z.leb_spec (i + EXCEPTION_LENGTH) bufferLength);
        [|by intros H'; destruct (Htail _ Htl H')].
      intros [= <- <-]. split; [done|]. split; [done|]. split; [done|]. split; [done|].
      by right.
  - destruct (bool_decide (buf_get buffer (i + 1) = Some (Z.lor 128 (_cmd p)))) eqn:He;
      cbn [andb]; [|by intros H'; destruct (Htail _ Htl H')].
    apply bool_decide_eq_true in He.
    destruct (Z.leb_spec (i + EXCEPTION_LENGTH) bufferLength);
      [|by intros H'; destruct (Htail _ Htl H')].
    intros [= <- <-]. split; [done|]. split; [done|]. split; [done|]. split; [done|].
    by right.
Qed.

Lemma scan_loop_whole n p buffer bufferLength i start length :
  _cmd p ≠ READ_FILE_RECORD_FUNCTION_CODE →
  _cmd p ≠ READ_DEVICE_IDENTIFICATION_FUNCTION_CODE →
  0 <= i →
  scan_loop n p buffer bufferLength i = Some (start, length) →
  whole_frame p buffer bufferLength start length.
Proof.
  intros H20 H43. revert i. induction n as [|n IH]; intros i Hi; [done|].
  cbn [scan_loop].
  destruct (scan_body p buffer bufferLength i) as [s l| | |] eqn:Hb; try done.
  - intros [= <- <-]. by destruct (scan_body_whole _ _ _ _ _ _ H20 H43 Hi Hb) as [_ ?].
  - apply IH. lia.
Qed.

(** The port after the first part of [onData] differs from the port before
    in its buffer only. *)
Lemma onData_scan_port data p :
  ∃ b, (onData_scan data p).1 = set_buffer b p
       ∧ b `suffix_of` _buffer p ++ data
       ∧ match (onData_scan data p).2 with
         | Some _ =>
             blen b <= MAX_BUFFER_LENGTH
             ∧ match _length p with
               | Known n => MIN_DATA_LENGTH <= n
               | LENGTH_UNKNOWN => True
               end
         | None => True
         end.
Proof.
  unfold onData_scan. cbv zeta. cbn [_buffer set_buffer _length].
  set (received := _buffer p ++ data).
  destruct (_ || _) eqn:Hshort.
  { exists received. by split. }
  apply orb_false_elim in Hshort as [Hl _].
  destruct (slice_from_last received MAX_BUFFER_LENGTH) as (Hrl & Hrs & Hrw);
    [unfold MAX_BUFFER_LENGTH; lia|].
  destruct (Z.ltb_spec MAX_BUFFER_LENGTH (blen received)).
  - exists (slice_from received (- MAX_BUFFER_LENGTH)). split; [reflexivity|]. split; [done|].
    cbn [snd]. destruct (scan_loop _ _ _ _ _); [|done]. split; [lia|].
    destruct (_length p); [by apply Z.ltb_ge in Hl | done].
  - exists received. split; [reflexivity|]. split; [done|].
    cbn [snd]. destruct (scan_loop _ _ _ _ _); [|done]. split; [lia|].
    destruct (_length p); [by apply Z.ltb_ge in Hl | done].
Qed.

(** ** What the scan emits *)

(** X7: when the remembered function code is neither 20 nor 43, a frame
    that the scan of [onData] emits lies within the buffer of at most 256
    bytes, has exactly the length it is emitted with, and starts with the
    remembered unit id; it is either an answer with the remembered function
    code and the expected length, which is 6 or more, or an exception
    answer ([0x80 | code]) of five bytes. *)
Theorem emitted_frame_is_whole data p start length :
  _cmd p ≠ READ_FILE_RECORD_FUNCTION_CODE →
  _cmd p ≠ READ_DEVICE_IDENTIFICATION_FUNCTION_CODE →
  (onData_scan data p).2 = Some (start, length) →
  let buffer := _buffer (onData_scan data p).1 in
  let frame := slice buffer start (start + length) in
  0 <= start ∧ start + length <= blen buffer ∧ blen buffer <= MAX_BUFFER_LENGTH
  ∧ blen frame = length
  ∧ buf_get frame 0 = Some (_id p)
  ∧ ((buf_get frame 1 = Some (_cmd p) ∧ _length p = Known length
      ∧ MIN_DATA_LENGTH <= length)
     ∨ (buf_get frame 1 = Some (Z.lor 0x80 (_cmd p)) ∧ length = EXCEPTION_LENGTH)).
Proof.
  intros H20 H43 Hfound buffer frame.
  destruct (onData_scan_port data p) as (b & Hb & _ & Hcap).
  rewrite Hfound in Hcap. destruct Hcap as [Hcap Hmin].
  assert (Hw : whole_frame p b (blen b) start length).
  { revert Hfound Hb. unfold onData_scan. cbv zeta.
    cbn [_buffer set_buffer _length].
    set (received := _buffer p ++ data).
    destruct (_ || _); [done|].
    destruct (slice_from_last received MAX_BUFFER_LENGTH) as (Hrl & _);
      [unfold MAX_BUFFER_LENGTH; lia|].
    destruct (Z.ltb_spec MAX_BUFFER_LENGTH (blen received)); cbn [fst snd _buffer set_buffer].
    - intros Hs Hb. apply (f_equal _buffer) in Hb. cbn [_buffer set_buffer] in Hb. subst b.
      rewrite Hrl, Z.min_r by lia.
      apply scan_loop_whole in Hs; [done|done|done|lia].
    - intros Hs Hb. apply (f_equal _buffer) in Hb. cbn [_buffer set_buffer] in Hb. subst b.
      apply scan_loop_whole in Hs; [done|done|done|lia]. }
  destruct Hw as (Hs0 & Hend & Hid & Hkind).
  subst frame buffer. rewrite Hb. cbn [_buffer set_buffer].
  assert (Hlen : 5 <= length).
  { destruct Hkind as [[_ Hk]|[_ ->]]; [|done].
    rewrite Hk in Hmin. unfold MIN_DATA_LENGTH in Hmin. lia. }
  split; [done|]. split; [done|]. split; [done|].
  split; [rewrite blen_slice by lia; lia|].
  split; [rewrite buf_get_slice by lia; by rewrite Z.add_0_r|].
  rewrite buf_get_slice by lia.
  destruct Hkind as [[Hc Hk]|[Hc ->]]; [left|right; by split].
  split; [done|]. split; [done|]. by rewrite Hk in Hmin.
Qed.

Lemma emitted_frame_is_whole_witness :
  let p := _port (state_of (writeFC3 (Some 17) (Some 0x6B) 2 (Some (UserCallback 0)) engine0)) in
  let data := [0xFF; 0x11; 0x03; 0x04; 0xAE; 0x41; 0x56; 0x52; 0x25; 0x53; 0x00] in
  let buffer := _buffer (onData_scan data p).1 in
  let frame := slice buffer 1 (1 + 9) in
  0 <= 1 ∧ 1 + 9 <= blen buffer ∧ blen buffer <= MAX_BUFFER_LENGTH
  ∧ blen frame = 9
  ∧ buf_get frame 0 = Some (_id p)
  ∧ ((buf_get frame 1 = Some (_cmd p) ∧ _length p = Known 9 ∧ MIN_DATA_LENGTH <= 9)
     ∨ (buf_get frame 1 = Some (Z.lor 0x80 (_cmd p)) ∧ 9 = EXCEPTION_LENGTH)).
Proof.
  intros p data.
  apply (emitted_frame_is_whole data p 1 9); vm_compute; congruence.
Defined.

(** ** The receive buffer only holds what was received *)

Lemma submit_buffer writeBit r next m : keeps rx_buffer m (submit writeBit r next m).
Proof.
  destruct r; unfold submit, writeFC1, writeFC2, writeFC3, writeFC4, writeFC5,
    writeFC6, writeFC7, writeFC15, writeFC16, writeFC20, writeFC43, writeFC65;
    cbv zeta;
    repeat match goal with
           | |- keeps _ _ (report _ _ _) => apply report_buffer
           | |- keeps _ ?m (send ?f (set_slot ?t ?m)) =>
               apply (send_buffer f (set_slot t m))
           | |- keeps _ _ (Thrown _ _) => reflexivity
           | |- keeps _ _ (if ?b then _ else _) => destruct b
           | |- keeps _ _ (match ?x with _ => _ end) => destruct x
           end.
Qed.

Lemma timer_fires_buffer h m : keeps rx_buffer m (timer_fires h m).
Proof.
  unfold timer_fires. destruct (timers m !! h) as [tm|]; [|done].
  destruct (timer_pending tm); [|done]. cbv zeta.
  set (m1 := set_timers _ m).
  pose proof (update_transaction_rest (timer_tx tm)
                (λ t, set_timeout_fields (Some true) (_timeoutHandle t) t) m1) as (Hp & _).
  set (m2 := update_transaction _ _ m1) in *.
  assert (Hm2 : rx_buffer m2 = rx_buffer m) by (simpl; by rewrite Hp).
  destruct (heap m2 !! timer_tx tm) as [t|]; [|done].
  destruct (next t) as [c|]; [|done].
  unfold keeps. destruct (call_callback_state c
    (Some (if has_debug t then attach_error t new_TransactionTimedOutError
           else new_TransactionTimedOutError)) None m2) as [cs ->]. done.
Qed.

Lemma onData_suffix data m :
  rx_buffer (state_of (onData data m)) `suffix_of` rx_buffer m ++ data.
Proof.
  unfold onData.
  destruct (onData_scan_port data (_port m)) as (b & Hb & Hsuf & _).
  destruct (onData_scan data (_port m)) as [p found]. cbn [fst] in Hb. subst p.
  destruct found as [[start length]|]; [|done].
  unfold _emitData. set (m1 := set_port _ m).
  set (o := if data_listener (_port m1) then _ else Done m1).
  assert (Ho : rx_buffer (state_of o) = b).
  { subst o. destruct (data_listener (_port m1)); [|done].
    apply (_onReceive_buffer _ m1). }
  destruct o as [m2|e m2]; cbn [and_then state_of] in *; [|by rewrite Ho].
  cbn [_port set_port _buffer set_buffer]. rewrite Ho.
  etrans; [apply slice_from_suffix | done].
Qed.

(** X9: over any sequence of requests, frames, chunks of serial data and
    timers the receive buffer of the port is an end piece of what it held
    at the start followed by the chunks that the serial line delivered, in
    their order: bytes are dropped from the front only, and nothing else
    writes to the buffer. *)
Theorem rx_buffer_holds_received writeBit events m :
  rx_buffer (run writeBit events m) `suffix_of` rx_buffer m ++ serial_bytes events.
Proof.
  revert m. induction events as [|ev events IH]; intros m; cbn [run serial_bytes mbind list_bind].
  - by rewrite app_nil_r.
  - fold (serial_bytes events). etrans; [apply IH|]. rewrite app_assoc.
    apply suffix_app.
    destruct ev as [r next|[data|data]|h]; cbn [step receive].
    + rewrite app_nil_r. by rewrite (submit_buffer writeBit r next m).
    + rewrite app_nil_r. by rewrite (_onReceive_buffer data m).
    + apply onData_suffix.
    + rewrite app_nil_r. by rewrite (timer_fires_buffer h m).
Qed.

(** ** The scan finds a frame behind garbage *)

Lemma blen_app (a b : Buffer) : blen (a ++ b) = blen a + blen b.
Proof. unfold blen. rewrite length_app. lia. Qed.

Lemma buf_get_app_r (pre l : Buffer) j :
  0 <= j → buf_get (pre ++ l) (blen pre + j) = buf_get l j.
Proof.
  intros Hj. unfold buf_get, blen.
  destruct (Z.ltb_spec (Z.of_nat (length pre) + j) 0); [lia|].
  destruct (Z.ltb_spec j 0); [lia|].
  rewrite lookup_app_r by lia. f_equal. lia.
Qed.

Lemma buf_get_app_r0 (pre l : Buffer) : buf_get (pre ++ l) (blen pre) = buf_get l 0.
Proof. rewrite <- (buf_get_app_r pre l 0) by lia. by rewrite Z.add_0_r. Qed.

Lemma buf_get_app_l (l rest : Buffer) j :
  j < blen l → buf_get (l ++ rest) j = buf_get l j.
Proof.
  intros Hj. unfold buf_get, blen in *.
  destruct (Z.ltb_spec j 0); [done|].
  apply lookup_app_l. lia.
Qed.

Lemma slice_app_middle (pre l rest : Buffer) :
  slice (pre ++ l ++ rest) (blen pre) (blen pre + blen l) = l.
Proof.
  unfold slice, clamp_index. pose proof (blen_nonneg pre). pose proof (blen_nonneg l).
  pose proof (blen_nonneg rest).
  destruct (Z.ltb_spec (blen pre) 0); [lia|].
  destruct (Z.ltb_spec (blen pre + blen l) 0); [lia|].
  rewrite !blen_app, !Z.min_l by lia.
  unfold blen. rewrite Nat2Z.id, drop_app_length.
  replace (Z.to_nat _) with (length l) by lia.
  by rewrite take_app_length.
Qed.

Lemma slice_from_app (pre rest : Buffer) :
  slice_from (pre ++ rest) (blen pre) = rest.
Proof.
  unfold slice_from, clamp_index. pose proof (blen_nonneg pre). pose proof (blen_nonneg rest).
  destruct (Z.ltb_spec (blen pre) 0); [lia|].
  rewrite blen_app, Z.min_l by lia. unfold blen. by rewrite Nat2Z.id, drop_app_length.
Qed.

(** The scan skips the bytes that are not the remembered unit id and emits
    the frame behind them. *)
Lemma scan_loop_finds n p (pre garbage frame rest : Buffer) bufferLength expectedLength :
  _length p = Known expectedLength →
  _cmd p ≠ READ_FILE_RECORD_FUNCTION_CODE →
  _cmd p ≠ READ_DEVICE_IDENTIFICATION_FUNCTION_CODE →
  Forall (λ x, x ≠ _id p) garbage →
  buf_get frame 0 = Some (_id p) → buf_get frame 1 = Some (_cmd p) →
  blen frame = expectedLength →
  bufferLength = blen (pre ++ garbage ++ frame ++ rest) →
  (List.length garbage < n)%nat →
  scan_loop n p (pre ++ garbage ++ frame ++ rest) bufferLength (blen pre)
  = Some (blen pre + blen garbage, expectedLength).
Proof.
  intros Hlen H20 H43 Hg Hid Hcmd Hfl. revert n pre.
  induction Hg as [|x garbage Hx Hg IH]; intros n pre Hbl Hn.
  - destruct n as [|n]; [simpl in Hn; lia|]. cbn [scan_loop app].
    assert (Hb : scan_body p (pre ++ frame ++ rest) bufferLength (blen pre)
                 = Emit (blen pre) expectedLength).
    { unfold scan_body.
      assert (Hfl2 : 2 <= blen frame).
      { unfold buf_get, blen in *. simpl in Hcmd. apply lookup_lt_Some in Hcmd. lia. }
      rewrite buf_get_app_r0, buf_get_app_r, !buf_get_app_l by lia. rewrite Hid, Hcmd.
      rewrite !bool_decide_eq_true_2 by done. cbn [negb andb].
      destruct (Z.eqb_spec (_cmd p) READ_DEVICE_IDENTIFICATION_FUNCTION_CODE); [done|].
      destruct (Z.eqb_spec (_cmd p) READ_FILE_RECORD_FUNCTION_CODE); [done|].
      rewrite Hlen.
      destruct (Z.leb_spec (blen pre + expectedLength) bufferLength); [done|].
      rewrite Hbl, !blen_app in *. change (blen []) with 0 in *.
      pose proof (blen_nonneg rest). lia. }
    rewrite Hb. cbn [blen length]. do 2 f_equal. unfold blen. simpl. lia.
  - destruct n as [|n]; [simpl in Hn; lia|]. cbn [scan_loop].
    assert (Hb : scan_body p (pre ++ (x :: garbage) ++ frame ++ rest) bufferLength (blen pre)
                 = Continue).
    { unfold scan_body. rewrite buf_get_app_r0.
      rewrite bool_decide_eq_false_2; [done|].
      unfold buf_get. simpl. intros [= ?]. done. }
    rewrite Hb.
    specialize (IH n (pre ++ [x])).
    rewrite <- !app_assoc in IH. cbn [app] in IH.
    replace (blen pre + 1) with (blen (pre ++ [x])) by (rewrite blen_app; done).
    change ((x :: garbage) ++ frame ++ rest) with (x :: garbage ++ frame ++ rest) in *.
    rewrite IH; [|done|simpl in Hn; lia].
    f_equal. f_equal. rewrite blen_app. unfold blen. simpl. lia.
Qed.

(** A chunk that completes an answer behind bytes that are not the unit
    id: the engine is handed the answer, and what came after it stays in the
    buffer. *)
Lemma onData_finds_frame data m (garbage frame rest : Buffer) expectedLength :
  _length (_port m) = Known expectedLength → MIN_DATA_LENGTH <= expectedLength →
  _cmd (_port m) ≠ READ_FILE_RECORD_FUNCTION_CODE →
  _cmd (_port m) ≠ READ_DEVICE_IDENTIFICATION_FUNCTION_CODE →
  data_listener (_port m) = true →
  _buffer (_port m) ++ data = garbage ++ frame ++ rest →
  Forall (λ x, x ≠ _id (_port m)) garbage →
  buf_get frame 0 = Some (_id (_port m)) → buf_get frame 1 = Some (_cmd (_port m)) →
  blen frame = expectedLength →
  blen (garbage ++ frame ++ rest) <= MAX_BUFFER_LENGTH →
  (onData_scan data (_port m)).2 = Some (blen garbage, expectedLength)
  ∧ onData data m
    = (do m1 <- _onReceive frame
                  (set_port (set_buffer (garbage ++ frame ++ rest) (_port m)) m);
       Done (set_port (set_buffer rest (_port m1)) m1))
  ∧ (∀ s, onData data m = Done s → rx_buffer s = rest).
Proof.
  intros Hlen Hmin H20 H43 Hlisten Hrecv Hg Hid Hcmd Hfl Hmax.
  assert (Hscan : onData_scan data (_port m)
                  = (set_buffer (garbage ++ frame ++ rest) (_port m),
                     Some (blen garbage, expectedLength))).
  { unfold onData_scan. cbv zeta. cbn [_buffer set_buffer _length]. rewrite Hlen, Hrecv.
    set (received := garbage ++ frame ++ rest) in *.
    assert (Hrl : blen garbage + expectedLength <= blen received).
    { subst received. rewrite !blen_app. pose proof (blen_nonneg rest). lia. }
    pose proof (blen_nonneg garbage) as Hg0.
    destruct (Z.ltb_spec expectedLength MIN_DATA_LENGTH); [lia|].
    destruct (Z.ltb_spec (blen received) EXCEPTION_LENGTH);
      [unfold EXCEPTION_LENGTH, MIN_DATA_LENGTH in *; lia|].
    destruct (Z.ltb_spec MAX_BUFFER_LENGTH (blen received)); [lia|].
    cbn [orb]. f_equal.
    pose proof (scan_loop_finds (Z.to_nat (blen received - EXCEPTION_LENGTH + 1))
                  (set_buffer received (_port m)) [] garbage frame rest (blen received)
                  expectedLength) as Hs.
    cbn [app blen length] in Hs. change (Z.of_nat 0) with 0 in Hs.
    rewrite Z.add_0_l in Hs. apply Hs; try done.
    unfold EXCEPTION_LENGTH, MIN_DATA_LENGTH, blen in *. lia. }
  split; [by rewrite Hscan|].
  assert (Ho : onData data m
    = (do m1 <- _onReceive frame
                  (set_port (set_buffer (garbage ++ frame ++ rest) (_port m)) m);
       Done (set_port (set_buffer rest (_port m1)) m1))).
  { unfold onData. rewrite Hscan. unfold _emitData.
    cbn [_port set_port data_listener set_buffer _buffer]. rewrite Hlisten.
    rewrite <- Hfl, slice_app_middle.
    set (m0 := set_port _ m).
    pose proof (_onReceive_buffer frame m0) as Hb. unfold keeps in Hb.
    destruct (_onReceive frame m0) as [m1|e m1]; cbn [and_then state_of] in *; [|done].
    rewrite Hb. subst m0. cbn [_port set_port _buffer set_buffer].
    rewrite app_assoc, <- blen_app, slice_from_app. done. }
  split; [exact Ho|].
  intros s. rewrite Ho.
  destruct (_onReceive frame _) as [m1|e m1]; cbn [and_then]; [|done].
  by intros [= <-].
Qed.

(** ** The echo of a write *)

Lemma lor_128_ne code : 0 <= code < 128 → code ≠ Z.lor 0x80 code.
Proof.
  intros Hc Heq. apply (f_equal (λ z, Z.testbit z 7)) in Heq.
  rewrite Z.lor_spec in Heq. change (Z.testbit 128 7) with true in Heq.
  cbn [orb] in Heq.
  rewrite (Z.bits_above_log2 code 7) in Heq; [done | lia |].
  destruct (Z.eq_dec code 0) as [->|]; [done|].
  apply Z.log2_lt_pow2; lia.
Qed.

(** A frame that passes the checks of [_onReceive] and is no exception
    answer reaches the decoder of its function code. *)
Lemma _onReceive_accepted data m tx t0 :
  _transactions m !! _transactionIdRead (_port m) = Some tx →
  heap m !! tx = Some t0 →
  _timeoutFired t0 ≠ Some true →
  accepted t0 data →
  0 <= nextCode t0 < 128 →
  _enron m && enron_tables_invalid m = false →
  ∃ m' t,
    t = set_timeout_fields (_timeoutFired t0) None (push_response data t0)
    ∧ m' = set_heap (<[tx := t]> (heap m)) (_cancelTimeout (_timeoutHandle t0) m)
    ∧ heap m' !! tx = Some t ∧ calls m' = calls m ∧ next t = next t0
    ∧ _enron m' = _enron m
    ∧ _onReceive data m = dispatch (nextCode t0) data tx t m'.
Proof.
  intros Hslot Hheap Hfired (Hcrc & Haddr & Hcode & Hlen) Hc Henron.
  destruct (_onReceive_prepared data m tx t0 Hslot Hheap)
    as (m' & t & Ht & Hm' & Hh' & Hc' & _ & _ & Hn' & Hf' & Hcode' & Hu' & Ha' & He' & Hi').
  assert (Hnl : nextLength t = nextLength t0).
  { subst t. unfold push_response. by destruct (responses t0). }
  exists m', t. split; [done|]. split; [done|]. split; [done|]. split; [done|].
  split; [done|]. split; [done|].
  unfold _onReceive. rewrite Hslot, Hheap. rewrite <- Ht, <- Hm'.
  rewrite bool_decide_eq_false_2 by congruence.
  unfold passes_crc in Hcrc. rewrite Hcrc, Z.eqb_refl. cbn [negb].
  rewrite Haddr, Hcode, Hcode', Ha', He', Hi', Henron, Hu', Hnl.
  rewrite !Z.eqb_refl. cbn [negb].
  destruct (Z.eqb_spec (nextCode t0) (Z.lor 128 (nextCode t0))) as [Heq|_];
    [by apply lor_128_ne in Heq|].
  rewrite andb_false_r.
  destruct (lengthUnknown t0); cbn [negb andb]; [done|].
  destruct Hlen as [H5 Hl]; [done|].
  destruct (Z.ltb_spec (blen data) 5); [lia|].
  rewrite Hl. by rewrite bool_decide_eq_true_2.
Qed.

Lemma frame_FC5_read address code dataAddress state :
  frame_FC5 address code dataAddress state
  = frame_read address code dataAddress (if state then 0xff00 else 0x0000).
Proof. unfold frame_FC5, frame_read. by destruct state. Qed.

Lemma frame_FC6_read address code dataAddress value :
  frame_FC6 address code dataAddress (Numbers value) false
  = frame_read address code dataAddress value.
Proof. reflexivity. Qed.

(** A write of one coil or one register and the answer that repeats it. *)
Lemma write_echo writeBit m r expected k address dataAddress state val :
  isOpen m = true → _enron m = false →
  data_listener (_port m) = true → _buffer (_port m) = [] →
  _transactionIdRead (_port m) = _transactionIdWrite (_port m) →
  0 < address <= 255 → 0 <= dataAddress <= 65535 → 0 <= val <= 65535 →
  (r, expected) ∈ [(WriteCoil (Some address) (Some dataAddress) state,
                    ResCoil dataAddress state);
                   (WriteRegister (Some address) (Some dataAddress) (Numbers val),
                    ResRegister dataAddress val)] →
  ∃ s frame s' c,
    submit writeBit r (Some (UserCallback k)) m = Done s
    ∧ client_written (_port s) = client_written (_port m) ++ [frame]
    ∧ buf_get frame 0 = Some address
    ∧ calls s = calls m
    ∧ onData frame s = Done s'
    ∧ calls s' = calls m ++ [c]
    ∧ callee c = k ∧ err c = None ∧ value <$> res c = Some expected
    ∧ rx_buffer s' = [].
Proof.
  intros Hopen Henron Hlisten Hbuf Hids Ha Hd Hv Hr.
  assert (∃ code word dataAddress',
            (code = 5 ∨ code = 6) ∧ 0 <= word <= 65535
            ∧ submit writeBit r (Some (UserCallback k)) m
              = send (frame_read address code dataAddress word)
                  (set_slot (new_transaction address dataAddress' code (Some 8)
                               false (Some (UserCallback k))) m)
            ∧ (∀ data tx t0 m0, _enron m0 = false →
                 readUInt16BE data 2 = Some dataAddress →
                 readUInt16BE data 4 = Some word →
                 dispatch code data tx t0 m0 = decoded (Some expected) tx m0))
    as (code & word & da' & Hcode & Hword & Hsub & Hdec).
  { apply elem_of_cons in Hr as [[= -> ->]|Hr];
      [|apply elem_of_cons in Hr as [[= -> ->]|Hr]; [|by apply elem_of_nil in Hr]].
    - exists 5, (if state then 0xff00 else 0), None.
      split; [by left|]. split; [by destruct state|]. split.
      + unfold submit, writeFC5. rewrite Hopen. cbn [negb].
        destruct (Z.eqb_spec address BROADCAST_ADDRESS) as [Hb|_];
          [unfold BROADCAST_ADDRESS in Hb; lia|].
        cbv zeta. by rewrite frame_FC5_read.
      + intros data tx t0 m0 _ H2 H4. unfold dispatch, _readFC5. cbn [Z.eqb Pos.eqb orb].
        rewrite H2, H4. cbn [mbind option_bind]. by destruct state.
    - exists 6, val, (Some dataAddress).
      split; [by right|]. split; [done|]. split.
      + unfold submit, writeFC6, enron_wide. rewrite Hopen, Henron. cbn [negb].
        destruct (Z.eqb_spec address BROADCAST_ADDRESS) as [Hb|_];
          [unfold BROADCAST_ADDRESS in Hb; lia|].
        cbv zeta. by rewrite frame_FC6_read.
      + intros data tx t0 m0 He0 H2 H4. unfold dispatch, enron_decoding, _readFC6.
        cbn [Z.eqb Pos.eqb orb]. rewrite He0, H2, H4. done. }
  set (body := [address; code; dataAddress / 256; dataAddress mod 256;
                word / 256; word mod 256]).
  set (frame := body ++ [crc16 body mod 256; crc16 body / 256]).
  assert (Hframe : frame_read address code dataAddress word = Some frame).
  { apply frame_read_bytes; lia. }
  rewrite Hsub, Hframe. set (t := new_transaction _ _ _ _ _ _).
  destruct (send_registered frame t m) as (s & t' & p' & Hs & Hw & Hp & Htr & Hh & Hc & _ & _
    & He & Het & Hna & _ & Hnc & Hnl & Hlu & Hnx & _ & Htm).
  { vm_compute. congruence. } { reflexivity. }
  destruct (write_remembers frame (_port m) address code (Known (6 + 2)))
    as (p2 & Hw2 & Hid & Hcmd & Hlen & Hcw & Hb2 & _ & Hl2 & Hir & Hiw).
  { vm_compute. congruence. } { reflexivity. } { reflexivity. }
  { unfold answer_length. by destruct Hcode as [-> | ->]. }
  rewrite Hw in Hw2. injection Hw2 as <-.
  exists s, frame.
  (* the chunk is the frame: the port emits it *)
  destruct (onData_finds_frame frame s [] frame [] 8) as (_ & Hon & Hrest).
  { by rewrite Hp, Hlen. } { unfold MIN_DATA_LENGTH. lia. }
  { rewrite Hp, Hcmd. destruct Hcode as [-> | ->]; done. }
  { rewrite Hp, Hcmd. destruct Hcode as [-> | ->]; done. }
  { by rewrite Hp, Hl2. }
  { rewrite Hp, Hb2, Hbuf. by rewrite app_nil_r. }
  { constructor. } { by rewrite Hp, Hid. } { by rewrite Hp, Hcmd. }
  { reflexivity. } { vm_compute. congruence. }
  cbn [app] in Hon. rewrite app_nil_r in Hon.
  set (s0 := set_port (set_buffer frame (_port s)) s) in *.
  (* the engine accepts it *)
  destruct (_onReceive_accepted frame s0 (List.length (heap m)) t')
    as (m' & t1 & Ht1 & Hm' & Hh1 & Hc1 & Hn1 & He1 & Hrecv).
  { subst s0. cbn [_port set_port _transactionIdRead set_buffer _transactions].
    rewrite Htr, Hp, Hir, Hids. apply lookup_insert_eq. }
  { subst s0. cbn [heap set_port]. rewrite Hh, lookup_app_r by lia. by rewrite Nat.sub_diag. }
  { assert (Hfired : _timeoutFired t' = Some false).
    { revert Htm. change (expects_response t) with true. cbv iota.
      destruct (falsy (_timeout m)); by intros [= _ -> _]. }
    rewrite Hfired. done. }
  { split; [apply request_frame_crc; by eapply frame_of_read|].
    rewrite Hna, Hnc, Hlu, Hnl. split; [reflexivity|]. split; [reflexivity|].
    intros _. split; [vm_compute; congruence | reflexivity]. }
  { rewrite Hnc. change (nextCode t) with code. destruct Hcode as [-> | ->]; lia. }
  { subst s0. cbn [_enron set_port]. by rewrite He, Henron. }
  rewrite Hnc in Hrecv. change (nextCode t) with code in Hrecv.
  rewrite Hdec in Hrecv.
  2:{ rewrite He1. subst s0. cbn [_enron set_port]. by rewrite He. }
  2:{ transitivity (Some (dataAddress / 256 * 256 + dataAddress mod 256)); [reflexivity|].
      f_equal. apply u16_join. }
  2:{ transitivity (Some (word / 256 * 256 + word mod 256)); [reflexivity|].
      f_equal. apply u16_join. }
  unfold decoded in Hrecv.
  destruct (receive_next_user (List.length (heap m)) t1 k None (Some (plain expected)) m' Hh1)
    as (e' & r' & Hrn & He' & Hr'); [by rewrite Hn1, Hnx|].
  rewrite Hrn in Hrecv. rewrite Hon, Hrecv. cbn [and_then].
  eexists _, _. split; [done|]. split; [by rewrite Hp, Hcw|]. split; [done|].
  split; [done|]. split; [reflexivity|]. cbn [calls set_port set_calls callee err res].
  split; [rewrite Hc1; subst s0; cbn [calls set_port]; by rewrite Hc|]. split; [done|].
  split; [subst e'; by destruct (has_debug t1)|].
  split; [subst r'; by destruct (has_debug t1)|]. done.
Qed.

(** X10: the answer to a write of one coil or register is the request itself:
    when the serial line brings it back, the port hands it to the engine and
    the caller is told the address and the state or value written; the
    receive buffer is empty again. *)
Theorem write_echo_acknowledged writeBit m r expected k address dataAddress state val :
  isOpen m = true → _enron m = false →
  data_listener (_port m) = true → _buffer (_port m) = [] →
  _transactionIdRead (_port m) = _transactionIdWrite (_port m) →
  0 < address <= 255 → 0 <= dataAddress <= 65535 → 0 <= val <= 65535 →
  (r, expected) ∈ [(WriteCoil (Some address) (Some dataAddress) state,
                    ResCoil dataAddress state);
                   (WriteRegister (Some address) (Some dataAddress) (Numbers val),
                    ResRegister dataAddress val)] →
  ∃ s frame s' c,
    submit writeBit r (Some (UserCallback k)) m = Done s
    ∧ client_written (_port s) = client_written (_port m) ++ [frame]
    ∧ calls s = calls m
    ∧ onData frame s = Done s'
    ∧ calls s' = calls m ++ [c]
    ∧ callee c = k ∧ err c = None ∧ value <$> res c = Some expected
    ∧ rx_buffer s' = [].
Proof.
  intros Hopen Henron Hlisten Hbuf Hids Ha Hd Hv Hr.
  destruct (write_echo writeBit m r expected k address dataAddress state val
              Hopen Henron Hlisten Hbuf Hids Ha Hd Hv Hr)
    as (s & frame & s' & c & H1 & H2 & _ & H3).
  by exists s, frame, s', c.
Qed.

Lemma write_echo_acknowledged_witness :
  ∃ s frame s' c,
    submit (λ _ _ _ b, Some b) (WriteRegister (Some 17) (Some 1) (Numbers 3))
      (Some (UserCallback 0)) engine0 = Done s
    ∧ client_written (_port s) = client_written (_port engine0) ++ [frame]
    ∧ calls s = calls engine0
    ∧ onData frame s = Done s'
    ∧ calls s' = calls engine0 ++ [c]
    ∧ callee c = 0%nat ∧ err c = None
    ∧ value <$> res c = Some (ResRegister 1 3)
    ∧ rx_buffer s' = [].
Proof.
  apply (write_echo_acknowledged (λ _ _ _ b, Some b) engine0
           (WriteRegister (Some 17) (Some 1) (Numbers 3)) (ResRegister 1 3) 0 17 1 true 3);
    try reflexivity; try lia.
  constructor 2. constructor 1.
Defined.

(** ** Refused requests *)

Lemma report_user k e m :
  report (Some (UserCallback k)) e m
  = Done (set_calls (calls m ++ [{| callee := k; err := Some e; res := None |}]) m).
Proof. unfold report. apply call_callback_user. Qed.

(** X11: every request method first checks the port, then its arguments,
    then the broadcast address: on a port that is not open the request is
    answered with the port-not-open error; on an open port with a missing
    unit or data address (or more than sixteen parameter numbers for FC65)
    with the bad-address error; and a request to unit 0 that is not one of
    the four writes with the broadcast-not-allowed error. The error goes to
    the caller's function, if there is one, and nothing else changes: no
    frame is sent and no transaction is registered. *)
Theorem request_refusals writeBit r next m :
  (isOpen m = false →
   submit writeBit r next m = report next new_PortNotOpenError m)
  ∧ (isOpen m = true → bad_address r = true →
     submit writeBit r next m = report next new_BadAddressError m)
  ∧ (isOpen m = true → bad_address r = false →
     unit_address r = Some BROADCAST_ADDRESS → takes_broadcast r = false →
     submit writeBit r next m = report next new_BroadcastNotAllowedError m)
  ∧ (∀ e k, next = Some (UserCallback k) →
       report next e m
       = Done (set_calls (calls m ++ [{| callee := k; err := Some e; res := None |}]) m))
  ∧ (∀ e, next = None → report next e m = Done m).
Proof.
  split; [|split; [|split; [|split]]].
  - intros Hopen.
    destruct r; unfold submit, writeFC1, writeFC2, writeFC3, writeFC4, writeFC5,
      writeFC6, writeFC7, writeFC15, writeFC16, writeFC20, writeFC43, writeFC65;
      by rewrite Hopen.
  - intros Hopen Hbad.
    destruct r; unfold submit, writeFC1, writeFC2, writeFC3, writeFC4, writeFC5,
      writeFC6, writeFC7, writeFC15, writeFC16, writeFC20, writeFC43, writeFC65;
      rewrite Hopen; cbn [negb]; cbn [bad_address] in Hbad;
      repeat match goal with
             | a : option Z |- _ => destruct a
             end; cbn in Hbad; try done.
    by rewrite Hbad.
  - intros Hopen Hbad Hunit Hb.
    destruct r; try done; cbn [unit_address] in Hunit; subst;
      unfold submit, writeFC1, writeFC2, writeFC3, writeFC4, writeFC5,
      writeFC6, writeFC7, writeFC15, writeFC16, writeFC20, writeFC43, writeFC65;
      rewrite Hopen; cbn [negb]; cbn [bad_address] in Hbad;
      repeat match goal with
             | a : option Z |- _ => destruct a
             end; cbn in Hbad; try done.
    by rewrite Hbad.
  - intros e k ->. apply report_user.
  - by intros e ->.
Qed.

Lemma request_refusals_witness :
  let closed := new_ModbusRTU new_RTUBufferedPort in
  submit (λ _ _ _ b, Some b) (ReadCoils (Some 17) (Some 0) 8) (Some (UserCallback 0)) closed
  = report (Some (UserCallback 0)) new_PortNotOpenError closed
  ∧ submit (λ _ _ _ b, Some b) (ReadCompressed (Some 0) (replicate 17 1))
      (Some (UserCallback 0)) engine0
    = report (Some (UserCallback 0)) new_BadAddressError engine0
  ∧ submit (λ _ _ _ b, Some b) (ReadCoils (Some 0) (Some 0) 8) (Some (UserCallback 0)) engine0
    = report (Some (UserCallback 0)) new_BroadcastNotAllowedError engine0
  ∧ report (Some (UserCallback 0)) new_PortNotOpenError closed
    = Done (set_calls (calls closed ++ [{| callee := 0; err := Some new_PortNotOpenError;
                                           res := None |}]) closed)
  ∧ report None new_PortNotOpenError closed = Done closed.
Proof.
  intros closed.
  split; [|split; [|split; [|split]]].
  - apply (request_refusals (λ _ _ _ b, Some b) (ReadCoils (Some 17) (Some 0) 8)
             (Some (UserCallback 0)) closed). reflexivity.
  - apply (request_refusals (λ _ _ _ b, Some b) (ReadCompressed (Some 0) (replicate 17 1))
             (Some (UserCallback 0)) engine0); reflexivity.
  - apply (request_refusals (λ _ _ _ b, Some b) (ReadCoils (Some 0) (Some 0) 8)
             (Some (UserCallback 0)) engine0); reflexivity.
  - apply (request_refusals (λ _ _ _ b, Some b) (ReadCoils (Some 17) (Some 0) 8)
             (Some (UserCallback 0)) closed). reflexivity.
  - apply (request_refusals (λ _ _ _ b, Some b) (ReadCoils (Some 17) (Some 0) 8)
             None closed). reflexivity.
Defined.

(** ** After [close] *)

Lemma onData_unheard data m :
  data_listener (_port m) = false →
  ∃ b, onData data m = Done (set_port (set_buffer b (_port m)) m).
Proof.
  intros Hl. unfold onData.
  destruct (onData_scan_port data (_port m)) as (b & Hb & _).
  destruct (onData_scan data (_port m)) as [p found]. cbn [fst] in Hb. subst p.
  destruct found as [[start length]|]; [|by eexists].
  unfold _emitData. cbn [_port set_port data_listener set_buffer]. rewrite Hl.
  cbn [and_then]. by eexists.
Qed.

(** X12: after [close] the chunks that the serial line still delivers reach
    the buffer of the port only: no function is called, no transaction and
    no timer changes, and every request is answered with the port-not-open
    error. *)
Theorem closed_engine_hears_nothing (chunks : list Buffer) m :
  ∃ s, receive_all (SerialData <$> chunks) (close m) = Done s
       ∧ calls s = calls m ∧ heap s = heap m ∧ _transactions s = _transactions m
       ∧ timers s = timers m ∧ isOpen s = false
       ∧ ∀ writeBit r next,
           submit writeBit r next s = report next new_PortNotOpenError s.
Proof.
  assert (H : ∀ m0, data_listener (_port m0) = false → isOpen m0 = false →
            ∃ s, receive_all (SerialData <$> chunks) m0 = Done s
                 ∧ calls s = calls m0 ∧ heap s = heap m0
                 ∧ _transactions s = _transactions m0
                 ∧ timers s = timers m0 ∧ isOpen s = false).
  { induction chunks as [|data chunks IH]; intros m0 Hl Ho; cbn [fmap list_fmap receive_all].
    - by exists m0.
    - cbn [receive]. destruct (onData_unheard data m0 Hl) as [b ->]. cbn [and_then].
      destruct (IH (set_port (set_buffer b (_port m0)) m0)) as (s & Hs & ?); [done|done|].
      exists s. split; [exact Hs|]. done. }
  destruct (H (close m)) as (s & Hs & Hc & Hh & Ht & Hti & Ho); [done|done|].
  exists s. split; [done|]. repeat (split; [done|]).
  intros writeBit r next.
  destruct r; unfold submit, writeFC1, writeFC2, writeFC3, writeFC4, writeFC5,
    writeFC6, writeFC7, writeFC15, writeFC16, writeFC20, writeFC43, writeFC65;
    by rewrite Ho.
Qed.

(** ** A frame cancels the timeout *)

Lemma timers_kept_after m s : timers_after m s → timers_kept m s.
Proof.
  intros [Hs|(d & tx & _ & _ & Hs)]; [exists []; by rewrite app_nil_r | by eexists].
Qed.

Lemma timers_kept_same m s : timers s = timers m → timers_kept m s.
Proof. intros Hs. exists []. by rewrite app_nil_r. Qed.

Lemma timers_kept_calls o m : (∃ cs, state_of o = set_calls cs m) → timers_kept m (state_of o).
Proof. intros [cs ->]. by apply timers_kept_same. Qed.

Lemma dispatch_timers code data tx t m : timers_kept m (state_of (dispatch code data tx t m)).
Proof.
  unfold dispatch, decoded.
  repeat match goal with
         | |- timers_kept _ (state_of (receive_next _ _ _ _)) =>
             apply timers_kept_calls, receive_next_state
         | |- timers_kept _ (state_of (call_callback _ _ _ _)) =>
             apply timers_kept_calls, call_callback_state
         | |- timers_kept _ (state_of (writeFC43 ?a ?d ?o ?n _)) =>
             apply timers_kept_after,
               (submit_timers_after (λ _ _ _ b, Some b) (ReadDeviceIdentification a d o) n)
         | |- timers_kept _ (state_of (Thrown _ _)) => by apply timers_kept_same
         | |- timers_kept _ (state_of (Done _)) => by apply timers_kept_same
         | |- timers_kept _ (state_of (if ?b then _ else _)) => destruct b
         | |- timers_kept _ (state_of (match ?x with _ => _ end)) => destruct x
         end.
Qed.

(** After its timeout is cancelled the receive procedure touches no timer
    that exists. *)
Lemma _onReceive_timers data m tx t0 :
  _transactions m !! _transactionIdRead (_port m) = Some tx →
  heap m !! tx = Some t0 →
  timers_kept (_cancelTimeout (_timeoutHandle t0) m) (state_of (_onReceive data m)).
Proof.
  intros Hslot Hheap. unfold _onReceive. rewrite Hslot, Hheap.
  set (t := set_timeout_fields _ _ _).
  set (m' := set_heap _ _).
  assert (Hm : timers m' = timers (_cancelTimeout (_timeoutHandle t0) m)) by done.
  unfold timers_kept. rewrite <- Hm.
  match goal with
  | |- ∃ more, timers (state_of ?o) = _ => change (timers_kept m' (state_of o))
  end.
  clearbody m' t. clear Hm. unfold fail.
  repeat match goal with
         | |- timers_kept _ (state_of (receive_next _ _ _ _)) =>
             apply timers_kept_calls, receive_next_state
         | |- timers_kept _ (state_of (dispatch _ _ _ _ _)) => apply dispatch_timers
         | |- timers_kept _ (state_of (Thrown _ _)) => by apply timers_kept_same
         | |- timers_kept _ (state_of (Done _)) => by apply timers_kept_same
         | |- timers_kept _ (state_of (if ?b then _ else _)) => destruct b
         | |- timers_kept _ (state_of (match ?x with _ => _ end)) => destruct x
         end.
Qed.

(** The transaction of the slot after the receive procedure: the frame is
    stashed in debug mode and the handle of the timeout is dropped; nothing
    else changes it, whatever the frame holds. *)
Lemma _onReceive_transaction data m tx t0 :
  _transactions m !! _transactionIdRead (_port m) = Some tx →
  heap m !! tx = Some t0 →
  heap (state_of (_onReceive data m)) !! tx
  = Some (set_timeout_fields (_timeoutFired t0) None (push_response data t0)).
Proof.
  intros Hslot Hheap.
  unfold _onReceive. rewrite Hslot, Hheap.
  set (t := set_timeout_fields _ _ _).
  set (m' := set_heap _ _).
  assert (Hm : heap m' !! tx = Some t).
  { subst m'. cbn [heap set_heap].
    apply list_lookup_insert_eq. by apply lookup_lt_Some in Hheap. }
  clearbody m' t.
  assert (Hkeep : ∀ o, (∃ cs, state_of o = set_calls cs m') →
            heap (state_of o) !! tx = Some t).
  { by intros o [cs ->]. }
  assert (Hfollow : ∀ a d o n, heap (state_of (writeFC43 a d o n m')) !! tx = Some t).
  { intros a d o n. unfold writeFC43.
    destruct (negb (isOpen m')); [apply Hkeep, report_state|].
    destruct a as [a|]; [|apply Hkeep, report_state].
    destruct (a =? BROADCAST_ADDRESS); [apply Hkeep, report_state|].
    cbv zeta. set (t2 := new_transaction _ _ _ _ _ _).
    destruct (frame_FC43 a 43 d o) as [buf|]; cbn [send].
    2:{ cbn [state_of heap set_slot set_heap set_transactions].
        by apply lookup_app_l_Some. }
    change (_writeBufferToPort buf _ (set_slot t2 m')) with (send (Some buf) (set_slot t2 m')).
    rewrite send_fresh. cbv zeta. change (expects_nothing t2) with false. cbv iota.
    change (arm_timeout _ t2 (set_slot t2 m')) with (set_slot t2 m').
    assert (Hst : heap (stash_request buf (List.length (heap m')) (set_slot t2 m')) !! tx
                  = Some t).
    { unfold stash_request, update_transaction.
      destruct (_debugEnabled (set_slot t2 m')); [|by apply lookup_app_l_Some].
      destruct (heap (set_slot t2 m') !! List.length (heap m')); [|by apply lookup_app_l_Some].
      cbn [heap set_heap set_slot set_transactions].
      rewrite list_lookup_insert_ne; [by apply lookup_app_l_Some|].
      apply lookup_lt_Some in Hm. lia. }
    set (m2 := stash_request _ _ _) in *.
    destruct (port_write_rest buf m2) as (Hh2 & _).
    destruct (port_write buf m2); cbn [and_then state_of] in *; by rewrite Hh2. }
  unfold fail, dispatch, decoded.
  repeat match goal with
         | |- heap (state_of (receive_next _ _ _ _)) !! _ = _ =>
             apply Hkeep, receive_next_state
         | |- heap (state_of (call_callback _ _ _ _)) !! _ = _ =>
             apply Hkeep, call_callback_state
         | |- heap (state_of (writeFC43 _ _ _ _ _)) !! _ = _ => apply Hfollow
         | |- heap (state_of (Thrown _ _)) !! _ = _ => exact Hm
         | |- heap (state_of (Done _)) !! _ = _ => exact Hm
         | |- heap (state_of (if ?b then _ else _)) !! _ = _ => destruct b
         | |- heap (state_of (match ?x with _ => _ end)) !! _ = _ => destruct x
         end.
Qed.

(** X5: any frame that comes in for the transaction in the slot clears the
    timer of that transaction, whatever the frame holds (a frame that fails
    the CRC check does so too): the transaction keeps no handle, and when
    the timer comes due nothing happens. *)
Theorem frame_cancels_timeout data m tx t0 h tm :
  _transactions m !! _transactionIdRead (_port m) = Some tx →
  heap m !! tx = Some t0 →
  _timeoutHandle t0 = Some h → timers m !! h = Some tm →
  let s := state_of (_onReceive data m) in
  timers s !! h = Some (set_timer_pending false tm)
  ∧ timer_fires h s = Done s
  ∧ ∃ t, heap s !! tx = Some t ∧ _timeoutHandle t = None.
Proof.
  intros Hslot Hheap Hh Htm s.
  destruct (_onReceive_timers data m tx t0 Hslot Hheap) as [more Hmore].
  fold s in Hmore.
  assert (Hs : timers s !! h = Some (set_timer_pending false tm)).
  { rewrite Hmore, Hh. unfold _cancelTimeout. rewrite Htm. cbn [timers set_timers].
    apply lookup_app_l_Some, list_lookup_insert_eq. by apply lookup_lt_Some in Htm. }
  split; [exact Hs|]. split; [unfold timer_fires; by rewrite Hs|].
  eexists. split; [by apply _onReceive_transaction|]. done.
Qed.

(** ** Errors while the follow-up request of FC43 is in the slot *)

(** The merging closure of [_readFC43] reads [data.data]: called with an
    error and no result it throws. *)
Lemma receive_next_merge tx t result tx' e m :
  heap m !! tx = Some t → next t = Some (FC43Merge result tx') →
  receive_next tx (Some e) None m = Thrown TypeError m.
Proof.
  intros Hh Hn. unfold receive_next, call_callback. rewrite Hh, Hn.
  destruct (has_debug t); by destruct (List.length (heap m)).
Qed.

(** X13: while the follow-up request of a read of the device identification
    is in the slot (its function [next] is the merging closure), a frame
    with a wrong CRC and an exception answer are not reported to the
    caller: the closure reads the field [data] of a result that is not
    there, a [TypeError] is thrown out of the receive procedure and no
    function of the caller is called. *)
Theorem followup_error_not_delivered m tx t0 result tx' :
  _transactions m !! _transactionIdRead (_port m) = Some tx →
  heap m !! tx = Some t0 →
  next t0 = Some (FC43Merge result tx') →
  _timeoutFired t0 ≠ Some true →
  (∀ data crcIn,
     readUInt16LE data (blen data - 2) = Some crcIn →
     crcIn ≠ crc16 (slice data 0 (-2)) →
     ∃ s, _onReceive data m = Thrown TypeError s ∧ calls s = calls m)
  ∧ (∀ data errorCode,
       5 <= blen data → passes_crc data →
       readUInt8 data 1 = Some (Z.lor 0x80 (nextCode t0)) →
       readUInt8 data 2 = Some errorCode →
       ∃ s, _onReceive data m = Thrown TypeError s ∧ calls s = calls m).
Proof.
  intros Hslot Hheap Hnext Hfired.
  split.
  - intros data crcIn Hcrc Hbad.
    destruct (_onReceive_prepared data m tx t0 Hslot Hheap)
      as (m' & t & Ht & Hm' & Hh' & Hc' & _ & _ & Hn' & Hf' & _).
    exists m'. split; [|done].
    unfold _onReceive. rewrite Hslot, Hheap. rewrite <- Ht, <- Hm'.
    rewrite bool_decide_eq_false_2 by congruence.
    assert (Hnt : next t = Some (FC43Merge result tx')) by congruence.
    destruct (negb (lengthUnknown t) && (blen data <? 5));
      [by eapply receive_next_merge|].
    rewrite Hcrc. destruct (Z.eqb_spec crcIn (crc16 (slice data 0 (-2)))); [done|].
    cbn [negb]. unfold fail. by eapply receive_next_merge.
  - intros data errorCode Hlen Hcrc Hcode Herr.
    destruct (_onReceive_prepared data m tx t0 Hslot Hheap)
      as (m' & t & Ht & Hm' & Hh' & Hc' & _ & _ & Hn' & Hf' & Hcode' & _).
    exists m'. split; [|done].
    unfold _onReceive. rewrite Hslot, Hheap. rewrite <- Ht, <- Hm'.
    rewrite bool_decide_eq_false_2 by congruence.
    destruct (Z.ltb_spec (blen data) 5); [lia|]. rewrite andb_false_r.
    unfold passes_crc in Hcrc. rewrite Hcrc, Z.eqb_refl. cbn [negb].
    assert (is_Some (readUInt8 data 0)) as [address Ha].
    { unfold readUInt8. rewrite in_range_true by lia. apply buf_get_Some. lia. }
    rewrite Ha, Hcode, Hcode', Z.eqb_refl.
    destruct (Z.leb_spec 5 (blen data)); [|lia]. cbn [andb]. rewrite Herr.
    by eapply receive_next_merge; [|rewrite Hn'].
Qed.

Lemma followup_error_not_delivered_witness :
  let first := [0x11; 0x2B; 0x0E; 0x01; 0x01; 0xFF; 0x02; 0x02;
                0x00; 0x03; 0x46; 0x6F; 0x6F; 0x01; 0x03; 0x42; 0x61; 0x72;
                0x9B; 0x97] in
  let m1 := state_of (writeFC43 (Some 17) 1 0 (Some (UserCallback 0)) engine0) in
  let m2 := state_of (_onReceive first m1) in
  (∃ s, _onReceive [0x11; 0x2B; 0x0E; 0x01; 0x01; 0x00; 0x00; 0x01;
                    0x02; 0x03; 0x42; 0x61; 0x7A; 0x00; 0x00] m2 = Thrown TypeError s
        ∧ calls s = calls m2)
  ∧ (∃ s, _onReceive [0x11; 0xAB; 0x04; 0x5F; 0x36] m2 = Thrown TypeError s
          ∧ calls s = calls m2).
Proof.
  intros first m1 m2.
  destruct (followup_error_not_delivered m2 1
              (new_transaction 17 None 43 None true
                 (Some (FC43Merge (<[1 := "Bar"%string]> (<[0 := "Foo"%string]> ∅)) 0)))
              (<[1 := "Bar"%string]> (<[0 := "Foo"%string]> ∅)) 0) as [H1 H2].
  - vm_compute. reflexivity.
  - vm_compute. reflexivity.
  - reflexivity.
  - simpl. discriminate.
  - split.
    + apply (H1 _ 0); [vm_compute; reflexivity | vm_compute; discriminate].
    + apply (H2 _ 4); [vm_compute; discriminate | vm_compute; reflexivity
                      | vm_compute; reflexivity | vm_compute; reflexivity].
Defined.

(** ** Debug mode *)




(** ** The loop of the register decoders *)

Lemma read_each_Some fuel read base length i (k : nat) (regs : list Z) :
  length - i = 2 * Z.of_nat k → (k <= fuel)%nat → List.length regs = k →
  (∀ j : nat, (j < k)%nat → read (i + 2 * Z.of_nat j + base) = regs !! j) →
  read_each fuel read 2 base length i = Some regs.
Proof.
  revert i k regs. induction fuel as [|fuel IH]; intros i k regs Hk Hf Hl Hr.
  - assert (k = 0%nat) as -> by lia. by destruct regs.
  - cbn [read_each]. destruct k as [|k].
    + destruct (Z.ltb_spec i length); [lia|]. by destruct regs.
    + destruct (Z.ltb_spec i length); [|lia].
      destruct regs as [|r regs]; [done|].
      pose proof (Hr 0%nat ltac:(lia)) as H0. cbn in H0.
      rewrite Z.add_0_r in H0. rewrite H0. cbn [mbind option_bind].
      rewrite (IH (i + 2) k regs); [done | lia | lia | by injection Hl |].
      intros j Hj. change (regs !! j) with ((r :: regs) !! S j).
      rewrite <- (Hr (S j)) by lia. f_equal. lia.
Qed.

Lemma read_each_None fuel read base length i (k j : nat) :
  length - i = 2 * Z.of_nat k → (k <= fuel)%nat → (j < k)%nat →
  read (i + 2 * Z.of_nat j + base) = None →
  read_each fuel read 2 base length i = None.
Proof.
  revert i k j. induction fuel as [|fuel IH]; intros i k j Hk Hf Hj Hr; [lia|].
  cbn [read_each]. destruct (Z.ltb_spec i length); [|lia].
  destruct (read (i + base)) as [reg|] eqn:H0; [|done]. cbn [mbind option_bind].
  destruct j as [|j].
  - cbn in Hr. rewrite Z.add_0_r in Hr. congruence.
  - destruct k as [|k]; [lia|].
    rewrite (IH (i + 2) k j); [done | lia | lia | lia |].
    rewrite <- Hr. f_equal. lia.
Qed.

Lemma buf_get_byte (data : Buffer) j x : bytes data → buf_get data j = Some x → 0 <= x < 256.
Proof.
  intros Hb Hg. unfold buf_get in Hg. destruct (j <? 0); [done|].
  unfold bytes in Hb. rewrite Forall_lookup in Hb. by apply Hb in Hg.
Qed.

Lemma readUInt8_byte (data : Buffer) j x : bytes data → readUInt8 data j = Some x → 0 <= x < 256.
Proof.
  intros Hb. unfold readUInt8. destruct (in_range data j 1); [|done]. by apply buf_get_byte.
Qed.

Lemma readUInt16BE_defined (data : Buffer) j :
  bytes data → 0 <= j → j + 2 <= blen data →
  ∃ v, readUInt16BE data j = Some v ∧ 0 <= v <= 65535.
Proof.
  intros Hb Hj Hl. unfold readUInt16BE. rewrite in_range_true by lia.
  destruct (buf_get_Some data j) as [hi Hhi]; [lia|].
  destruct (buf_get_Some data (j + 1)) as [lo Hlo]; [lia|].
  rewrite Hhi, Hlo. cbn [mbind option_bind]. eexists. split; [done|].
  apply (buf_get_byte _ _ _ Hb) in Hhi, Hlo. lia.
Qed.

Lemma readUInt16BE_outside (data : Buffer) j :
  blen data < j + 2 → readUInt16BE data j = None.
Proof.
  intros Hl. unfold readUInt16BE, in_range.
  destruct (Z.leb_spec (j + 2) (blen data)); [lia|]. by rewrite andb_false_r.
Qed.

(** X14: the register decoder on a frame whose byte count is [2 * n]: when the
    frame holds the [3 + 2 * n] bytes that the count announces, the result
    has [n] registers, register [j] being the 16-bit number, high byte
    first, at offset [3 + 2 * j], with the raw bytes beside them; when the
    frame is shorter, the decoder throws a [RangeError]. *)
Theorem registers_decoded data n :
  bytes data → readUInt8 data 2 = Some (2 * n) →
  (3 + 2 * n <= blen data →
   ∃ regs,
     _readFC3or4 data = Some (ResRegisters regs (slice data 3 (3 + 2 * n)))
     ∧ Z.of_nat (List.length regs) = n
     ∧ (∀ j : nat, Z.of_nat j < n → regs !! j = readUInt16BE data (3 + 2 * Z.of_nat j))
     ∧ Forall (λ v, 0 <= v <= 65535) regs
     ∧ blen (slice data 3 (3 + 2 * n)) = 2 * n)
  ∧ (blen data < 3 + 2 * n → _readFC3or4 data = None).
Proof.
  intros Hb Hcount.
  assert (Hn : 0 <= n) by (apply (readUInt8_byte _ _ _ Hb) in Hcount; lia).
  unfold _readFC3or4. rewrite Hcount. cbn [mbind option_bind].
  split.
  - intros Hlen.
    set (regs := (λ j : nat, default 0 (readUInt16BE data (3 + 2 * Z.of_nat j)))
                   <$> seq 0 (Z.to_nat n)).
    assert (Hl : List.length regs = Z.to_nat n).
    { subst regs. by rewrite length_fmap, length_seq. }
    assert (Hr : ∀ j : nat, Z.of_nat j < n →
              regs !! j = readUInt16BE data (3 + 2 * Z.of_nat j)
              ∧ ∃ v, regs !! j = Some v ∧ 0 <= v <= 65535).
    { intros j Hj. subst regs. rewrite list_lookup_fmap, lookup_seq_lt by lia.
      cbn [fmap option_fmap option_map Nat.add].
      destruct (readUInt16BE_defined data (3 + 2 * Z.of_nat j) Hb) as (v & -> & Hv);
        [lia | lia |]. split; [done|]. by exists v. }
    exists regs.
    rewrite (read_each_Some (Z.to_nat (2 * n)) (readUInt16BE data) 3 (2 * n) 0
               (Z.to_nat n) regs); [|lia|lia|done|].
    2:{ intros j Hj. destruct (Hr j) as [-> _]; [lia|]. f_equal. lia. }
    cbn [mbind option_bind]. split; [done|]. split; [lia|].
    split; [intros j Hj; by destruct (Hr j Hj)|].
    split.
    + apply Forall_lookup. intros j v Hv.
      destruct (Hr j) as (_ & v' & Hv' & Hrange).
      { apply lookup_lt_Some in Hv. lia. }
      congruence.
    + rewrite blen_slice by lia. lia.
  - intros Hshort. destruct (Z.eq_dec n 0) as [->|Hn0].
    { pose proof (blen_nonneg data). apply (f_equal (@is_Some Z)) in Hcount.
      exfalso. unfold readUInt8, in_range in Hcount.
      destruct (Z.leb_spec (2 + 1) (blen data)); [lia|]. cbn in Hcount.
      assert (is_Some (@None Z)) as [? ?]; [by rewrite Hcount; eexists | done]. }
    rewrite (read_each_None (Z.to_nat (2 * n)) (readUInt16BE data) 3 (2 * n) 0
               (Z.to_nat n) (Z.to_nat n - 1)); [done | lia | lia | lia |].
    apply readUInt16BE_outside. lia.
Qed.

Lemma registers_decoded_witness :
  let data := [0x11; 0x03; 0x04; 0xAE; 0x41; 0x56; 0x52; 0x25; 0x53] in
  (∃ regs,
     _readFC3or4 data = Some (ResRegisters regs (slice data 3 (3 + 2 * 2)))
     ∧ Z.of_nat (List.length regs) = 2
     ∧ (∀ j : nat, Z.of_nat j < 2 → regs !! j = readUInt16BE data (3 + 2 * Z.of_nat j))
     ∧ Forall (λ v, 0 <= v <= 65535) regs
     ∧ blen (slice data 3 (3 + 2 * 2)) = 2 * 2)
  ∧ _readFC3or4 [0x11; 0x03; 0x08; 0xAE; 0x41; 0x56; 0x52; 0x25; 0x53] = None.
Proof.
  intros data. split.
  - apply (registers_decoded data 2).
    + unfold bytes, data. repeat constructor; lia.
    + reflexivity.
    + vm_compute. discriminate.
  - apply (registers_decoded [0x11; 0x03; 0x08; 0xAE; 0x41; 0x56; 0x52; 0x25; 0x53] 4).
    + unfold bytes. repeat constructor; lia.
    + reflexivity.
    + vm_compute. reflexivity.
Defined.

(** ** Reading a buffer after a write *)

Lemma buf_get_writeUInt8 v offset (b b' : Buffer) j :
  writeUInt8 v offset b = Some b' →
  buf_get b' j = if decide (j = offset) then Some v else buf_get b j.
Proof.
  intros (Hv & Ho & Hl & ->)%writeUInt8_inv.
  destruct (decide (j = offset)) as [->|Hne].
  - apply buf_get_put_eq. lia.
  - by apply buf_get_put_ne.
Qed.

Lemma buf_get_writeUInt16BE v offset (b b' : Buffer) j :
  writeUInt16BE v offset b = Some b' →
  buf_get b' j = if decide (j = offset) then Some (v / 256)
                 else if decide (j = offset + 1) then Some (v mod 256)
                 else buf_get b j.
Proof.
  intros (Hv & Ho & Hl & ->)%writeUInt16BE_inv.
  destruct (decide (j = offset)) as [->|Hne].
  - rewrite buf_get_put_ne by lia. apply buf_get_put_eq. lia.
  - destruct (decide (j = offset + 1)) as [->|Hne'].
    + apply buf_get_put_eq. rewrite blen_put. lia.
    + by rewrite !buf_get_put_ne by lia.
Qed.

Lemma buf_get_writeUInt16LE v offset (b b' : Buffer) j :
  writeUInt16LE v offset b = Some b' →
  buf_get b' j = if decide (j = offset) then Some (v mod 256)
                 else if decide (j = offset + 1) then Some (v / 256)
                 else buf_get b j.
Proof.
  intros (Hv & Ho & Hl & ->)%writeUInt16LE_inv.
  destruct (decide (j = offset)) as [->|Hne].
  - rewrite buf_get_put_ne by lia. apply buf_get_put_eq. lia.
  - destruct (decide (j = offset + 1)) as [->|Hne'].
    + apply buf_get_put_eq. rewrite blen_put. lia.
    + by rewrite !buf_get_put_ne by lia.
Qed.

Lemma readUInt8_get (b : Buffer) j x :
  0 <= j → buf_get b j = Some x → readUInt8 b j = Some x.
Proof.
  intros Hj Hg. unfold readUInt8. rewrite in_range_true; [done | done |].
  unfold buf_get, blen in *. destruct (Z.ltb_spec j 0); [done|].
  apply lookup_lt_Some in Hg. lia.
Qed.

Lemma readUInt16BE_get (b : Buffer) j hi lo :
  0 <= j → buf_get b j = Some hi → buf_get b (j + 1) = Some lo →
  readUInt16BE b j = Some (hi * 256 + lo).
Proof.
  intros Hj Hhi Hlo. unfold readUInt16BE. rewrite in_range_true; [|done|].
  - by rewrite Hhi, Hlo.
  - unfold buf_get, blen in *. destruct (Z.ltb_spec (j + 1) 0); [done|].
    apply lookup_lt_Some in Hlo. lia.
Qed.

(** ** The loop that writes registers *)

Lemma write_registers_inv array offset (b b' : Buffer) :
  0 <= offset → write_registers array offset b = Some b' →
  Forall (λ v, 0 <= v <= 65535) array
  ∧ (array ≠ [] → offset + 2 * Z.of_nat (List.length array) <= blen b)
  ∧ (∀ j, j < offset ∨ offset + 2 * Z.of_nat (List.length array) <= j →
          buf_get b' j = buf_get b j)
  ∧ (∀ (i : nat) v, array !! i = Some v →
       readUInt16BE b' (offset + 2 * Z.of_nat i) = Some v).
Proof.
  revert offset b. induction array as [|v array IH]; intros offset b Ho; cbn [write_registers].
  - intros [= <-]. split; [constructor|]. split; [done|]. split; [done|].
    intros i v Hi. by rewrite lookup_nil in Hi.
  - destruct (writeUInt16BE v offset b) as [b1|] eqn:H1; [|done]. cbn [mbind option_bind].
    intros H2. pose proof (blen_write_registers _ _ _ _ H2) as Hlen2.
    pose proof (blen_writeUInt16BE _ _ _ _ H1) as Hlen1.
    destruct (IH (offset + 2) b1 ltac:(lia) H2) as (Hf & Hfit & Hout & Hin).
    pose proof (writeUInt16BE_inv _ _ _ _ H1) as (Hv & _ & Hl & _).
    split; [by constructor|]. split.
    { intros _. cbn [length]. destruct array as [|v' array']; [cbn; lia|].
      specialize (Hfit ltac:(done)). cbn [length] in *. lia. }
    split.
    { intros j Hj. cbn [length] in Hj. rewrite Hout by lia.
      rewrite (buf_get_writeUInt16BE _ _ _ _ j H1).
      destruct (decide (j = offset)); [lia|]. destruct (decide (j = offset + 1)); [lia|]. done. }
    intros i w Hi. destruct i as [|i].
    + injection Hi as ->. rewrite Z.mul_0_r, Z.add_0_r.
      rewrite (readUInt16BE_get b' offset (w / 256) (w mod 256)); [|lia| |].
      * f_equal. apply u16_join.
      * rewrite Hout by lia. rewrite (buf_get_writeUInt16BE _ _ _ _ offset H1).
        by destruct (decide (offset = offset)).
      * rewrite Hout by lia. rewrite (buf_get_writeUInt16BE _ _ _ _ (offset + 1) H1).
        destruct (decide (offset + 1 = offset)); [lia|].
        by destruct (decide (offset + 1 = offset + 1)).
    + cbn in Hi. rewrite <- (Hin i w Hi). f_equal. lia.
Qed.

Lemma write_registers_ok array offset (b : Buffer) :
  Forall (λ v, 0 <= v <= 65535) array → 0 <= offset →
  offset + 2 * Z.of_nat (List.length array) <= blen b →
  is_Some (write_registers array offset b).
Proof.
  intros Hf. revert offset b. induction Hf as [|v array Hv Hf IH]; intros offset b Ho Hl;
    cbn [write_registers]; [by eexists|].
  cbn [length] in Hl.
  rewrite writeUInt16BE_eq by lia. cbn [mbind option_bind].
  apply IH; [lia|]. rewrite !blen_put. lia.
Qed.

Lemma bytes_write_registers array offset (b b' : Buffer) :
  write_registers array offset b = Some b' → bytes b → bytes b'.
Proof.
  revert offset b. induction array as [|v array IH]; intros off b; cbn [write_registers].
  - by intros [= <-].
  - destruct (writeUInt16BE v off b) as [b1|] eqn:Hw; [|done]. cbn [mbind option_bind].
    intros Hr Hb. apply (IH (off + 2) b1 Hr).
    apply writeUInt16BE_inv in Hw as (Hv & _ & _ & ->).
    destruct (split_u16 v Hv). by repeat apply bytes_put.
Qed.

(** X15: the frame of a write of [n] registers can be built exactly when the
    unit address fits a byte, the data address and every value fit 16 bits
    and [n] is at most 127 (the byte count [2 * n] has one byte); it then
    has [9 + 2 * n] bytes: unit, function code, data address, [n], the byte
    count, the values high byte first as the register decoder reads them,
    and a CRC that the engine accepts. *)
Theorem registers_frame_layout address code dataAddress (array : list Z) :
  let n := Z.of_nat (List.length array) in
  (is_Some (frame_FC16 address code dataAddress (Numbers array))
   ↔ (0 <= address <= 255 ∧ 0 <= code <= 255 ∧ 0 <= dataAddress <= 65535 ∧ n <= 127
      ∧ Forall (λ v, 0 <= v <= 65535) array))
  ∧ ∀ f, frame_FC16 address code dataAddress (Numbers array) = Some f →
      blen f = 9 + 2 * n
      ∧ readUInt8 f 0 = Some address ∧ readUInt8 f 1 = Some code
      ∧ readUInt16BE f 2 = Some dataAddress ∧ readUInt16BE f 4 = Some n
      ∧ readUInt8 f 6 = Some (2 * n)
      ∧ read_each (Z.to_nat (2 * n)) (readUInt16BE f) 2 7 (2 * n) 0 = Some array
      ∧ passes_crc f.
Proof.
  intros n.
  assert (Hinv : ∀ f, frame_FC16 address code dataAddress (Numbers array) = Some f →
            (0 <= address <= 255 ∧ 0 <= code <= 255 ∧ 0 <= dataAddress <= 65535 ∧ n <= 127
             ∧ Forall (λ v, 0 <= v <= 65535) array)
            ∧ blen f = 9 + 2 * n
            ∧ readUInt8 f 0 = Some address ∧ readUInt8 f 1 = Some code
            ∧ readUInt16BE f 2 = Some dataAddress ∧ readUInt16BE f 4 = Some n
            ∧ readUInt8 f 6 = Some (2 * n)
            ∧ read_each (Z.to_nat (2 * n)) (readUInt16BE f) 2 7 (2 * n) 0 = Some array
            ∧ passes_crc f).
  { intros f Hf.
    assert (Hcrc : passes_crc f) by (apply request_frame_crc; by eapply frame_of_FC16).
    unfold frame_FC16 in Hf. cbv zeta in Hf. fold n in Hf.
    frame_writes Hf.
    pose proof (writeUInt8_inv _ _ _ _ Hw) as (Ha & _ & _ & _).
    pose proof (writeUInt8_inv _ _ _ _ Hw0) as (Hc & _ & _ & _).
    pose proof (writeUInt16BE_inv _ _ _ _ Hw1) as (Hd & _ & _ & _).
    pose proof (writeUInt16BE_inv _ _ _ _ Hw2) as (Hn2 & _ & _ & _).
    pose proof (writeUInt8_inv _ _ _ _ Hw3) as (Hn & _ & _ & _).
    destruct (write_registers_inv array 7 _ _ ltac:(lia) Hw4) as (Hfa & _ & Hout & Hin).
    assert (Hn0 : 0 <= n) by lia.
    replace (2 * n / 2) with n in * by (rewrite Z.mul_comm, Z.div_mul; lia).
    (* the bytes of the header, as the last write leaves them *)
    assert (Hget : ∀ j, 0 <= j < 7 → buf_get f j = buf_get l3 j).
    { intros j Hj. rewrite (buf_get_writeUInt16LE _ _ _ _ j Hf).
      destruct (decide (j = 7 + 2 * n)); [lia|].
      destruct (decide (j = 7 + 2 * n + 1)); [lia|]. apply Hout. lia. }
    assert (Hregs : ∀ (i : nat) v, array !! i = Some v →
              readUInt16BE f (7 + 2 * Z.of_nat i) = Some v).
    { intros i v Hi. rewrite <- (Hin i v Hi).
      pose proof (lookup_lt_Some _ _ _ Hi) as Hlt.
      unfold readUInt16BE, in_range.
      rewrite (blen_writeUInt16LE _ _ _ _ Hf).
      rewrite !(buf_get_writeUInt16LE _ _ _ _ _ Hf).
      repeat (destruct (decide _); [lia|]). done. }
    assert (H0 : buf_get l3 0 = Some address).
    { rewrite (buf_get_writeUInt8 _ _ _ _ 0 Hw3),
        (buf_get_writeUInt16BE _ _ _ _ 0 Hw2), (buf_get_writeUInt16BE _ _ _ _ 0 Hw1),
        (buf_get_writeUInt8 _ _ _ _ 0 Hw0), (buf_get_writeUInt8 _ _ _ _ 0 Hw). done. }
    assert (H1 : buf_get l3 1 = Some code).
    { rewrite (buf_get_writeUInt8 _ _ _ _ 1 Hw3),
        (buf_get_writeUInt16BE _ _ _ _ 1 Hw2), (buf_get_writeUInt16BE _ _ _ _ 1 Hw1),
        (buf_get_writeUInt8 _ _ _ _ 1 Hw0). done. }
    assert (H2 : buf_get l3 2 = Some (dataAddress / 256)
                 ∧ buf_get l3 3 = Some (dataAddress mod 256)).
    { rewrite !(buf_get_writeUInt8 _ _ _ _ _ Hw3),
        !(buf_get_writeUInt16BE _ _ _ _ _ Hw2), !(buf_get_writeUInt16BE _ _ _ _ _ Hw1).
      done. }
    assert (H4 : buf_get l3 4 = Some (n / 256) ∧ buf_get l3 5 = Some (n mod 256)).
    { rewrite !(buf_get_writeUInt8 _ _ _ _ _ Hw3),
        !(buf_get_writeUInt16BE _ _ _ _ _ Hw2). done. }
    assert (H6 : buf_get l3 6 = Some (2 * n)).
    { rewrite (buf_get_writeUInt8 _ _ _ _ 6 Hw3). done. }
    split; [repeat split; try lia; done|].
    split.
    { rewrite (blen_writeUInt16LE _ _ _ _ Hf), (blen_write_registers _ _ _ _ Hw4).
      frame_lengths.
      rewrite Hw3, Hw2, Hw1, Hw0, Hw, blen_alloc by lia. lia. }
    split; [apply readUInt8_get; [lia|]; by rewrite Hget by lia|].
    split; [apply readUInt8_get; [lia|]; by rewrite Hget by lia|].
    destruct H2 as [H2 H3]. destruct H4 as [H4 H5].
    split.
    { rewrite (readUInt16BE_get f 2 (dataAddress / 256) (dataAddress mod 256));
        [f_equal; apply u16_join | lia | by rewrite Hget by lia | by rewrite Hget by lia]. }
    split.
    { rewrite (readUInt16BE_get f 4 (n / 256) (n mod 256));
        [f_equal; apply u16_join | lia | by rewrite Hget by lia | by rewrite Hget by lia]. }
    split; [apply readUInt8_get; [lia|]; by rewrite Hget by lia|].
    split; [|done].
    apply (read_each_Some _ _ 7 (2 * n) 0 (List.length array)); [lia | lia | done |].
    intros j Hj. destruct (lookup_lt_is_Some_2 array j Hj) as [v Hv].
    rewrite Hv, <- (Hregs j v Hv). f_equal. lia. }
  split; [split|].
  - intros [f Hf]. by destruct (Hinv f Hf) as [? _].
  - intros (Ha & Hc & Hd & Hn & Hfa).
    unfold frame_FC16. cbv zeta. fold n.
    assert (Hn0 : 0 <= n) by lia.
    pose proof (blen_alloc (7 + 2 * n + 2) ltac:(lia)) as H0.
    destruct (writeUInt8_ok address 0 (alloc (7 + 2 * n + 2))) as (b1 & -> & H1 & Hb1);
      [lia | lia | lia | apply bytes_alloc |]; cbn [mbind option_bind].
    destruct (writeUInt8_ok code 1 b1) as (b2 & -> & H2 & Hb2);
      [lia | lia | lia | done |]; cbn [mbind option_bind].
    destruct (writeUInt16BE_ok dataAddress 2 b2) as (b3 & -> & H3 & Hb3);
      [lia | lia | lia | done |]; cbn [mbind option_bind].
    destruct (writeUInt16BE_ok (2 * n / 2) 4 b3) as (b4 & -> & H4 & Hb4);
      [rewrite Z.mul_comm, Z.div_mul by lia; lia | lia | lia | done |];
      cbn [mbind option_bind].
    destruct (writeUInt8_ok (2 * n) 6 b4) as (b5 & -> & H5 & Hb5);
      [lia | lia | lia | done |]; cbn [mbind option_bind].
    destruct (write_registers_ok array 7 b5 Hfa) as [b6 Hb6]; [lia | fold n; lia |].
    rewrite Hb6. cbn [mbind option_bind].
    pose proof (blen_write_registers _ _ _ _ Hb6) as H6.
    assert (bytes b6) as Hbytes6 by (by eapply bytes_write_registers).
    destruct (write_crc_ok (7 + 2 * n) b6) as (f & -> & _); [lia | lia | done |].
    by eexists.
  - intros f Hf. by destruct (Hinv f Hf) as [_ ?].
Qed.

(** ** Compressed reads (FC65) *)

(** The frame of [writeFC65] for a list of parameter numbers of 16 bits. *)
Lemma frame_FC65_ok address (parameterNumbers : list Z) :
  0 <= address <= 255 → Z.of_nat (List.length parameterNumbers) <= 16 →
  Forall (λ v, 0 <= v <= 65535) parameterNumbers →
  let q := Z.of_nat (List.length parameterNumbers) in
  ∃ f, frame_FC65 address 0x41 parameterNumbers = Some f
       ∧ blen f = 5 + 2 * q
       ∧ buf_get f 0 = Some address ∧ buf_get f 1 = Some 0x41
       ∧ buf_get f 2 = Some q.
Proof.
  intros Ha Hq Hf q. unfold frame_FC65. cbv zeta. fold q.
  assert (Hq0 : 0 <= q) by lia.
  pose proof (blen_alloc (3 + 2 * q + 2) ltac:(lia)) as H0.
  destruct (writeUInt8_ok address 0 (alloc (3 + 2 * q + 2))) as (b1 & Hw1 & H1 & Hb1);
    [lia | lia | lia | apply bytes_alloc |]; rewrite Hw1; cbn [mbind option_bind].
  destruct (writeUInt8_ok 0x41 1 b1) as (b2 & Hw2 & H2 & Hb2);
    [lia | lia | lia | done |]; rewrite Hw2; cbn [mbind option_bind].
  destruct (writeUInt8_ok q 2 b2) as (b3 & Hw3 & H3 & Hb3);
    [lia | lia | lia | done |]; rewrite Hw3; cbn [mbind option_bind].
  destruct (write_registers_ok parameterNumbers 3 b3 Hf) as [b4 Hw4]; [lia | fold q; lia |].
  rewrite Hw4. cbn [mbind option_bind].
  pose proof (blen_write_registers _ _ _ _ Hw4) as H4.
  destruct (write_crc_ok (3 + 2 * q) b4) as (f & Hw5 & H5 & _);
    [lia | lia | by eapply bytes_write_registers |].
  rewrite Hw5. exists f. split; [done|]. split; [lia|].
  destruct (write_registers_inv parameterNumbers 3 _ _ ltac:(lia) Hw4) as (_ & _ & Hout & _).
  assert (Hget : ∀ j, 0 <= j < 3 → buf_get f j = buf_get b3 j).
  { intros j Hj. rewrite (buf_get_writeUInt16LE _ _ _ _ j Hw5).
    destruct (decide (j = 3 + 2 * q)); [lia|].
    destruct (decide (j = 3 + 2 * q + 1)); [lia|]. apply Hout. lia. }
  rewrite !Hget by lia.
  rewrite !(buf_get_writeUInt8 _ _ _ _ _ Hw3), !(buf_get_writeUInt8 _ _ _ _ _ Hw2),
    !(buf_get_writeUInt8 _ _ _ _ _ Hw1). done.
Qed.

(** X16: for a request of [q] compressed parameters (FC65) the engine awaits
    [4 + 2 * q + 3] bytes while the buffered port cuts [4 + 2 * q + 2] bytes
    from the stream. A frame of the length that the port cuts is answered
    with an error or not at all: no result is delivered for it. *)
Theorem compressed_answer_lengths m address (parameterNumbers : list Z) k :
  isOpen m = true → 0 < address <= 255 →
  parameterNumbers ≠ [] → Z.of_nat (List.length parameterNumbers) <= 16 →
  Forall (λ v, 0 <= v <= 65535) parameterNumbers →
  _transactionIdRead (_port m) = _transactionIdWrite (_port m) →
  let q := Z.of_nat (List.length parameterNumbers) in
  ∃ s t,
    writeFC65 (Some address) parameterNumbers (Some (UserCallback k)) m = Done s
    ∧ _transactions s !! _transactionIdWrite (_port s) = Some (List.length (heap m))
    ∧ heap s !! List.length (heap m) = Some t
    ∧ nextCode t = 65 ∧ nextLength t = Some (4 + 2 * q + 3)
    ∧ _cmd (_port s) = 65 ∧ _length (_port s) = Known (4 + 2 * q + 2)
    ∧ ∀ data, blen data = 4 + 2 * q + 2 →
        ∃ new, calls (state_of (_onReceive data s)) = calls s ++ new
               ∧ Forall (λ c, res c = None) new.
Proof.
  intros Hopen Ha Hne Hq Hf Hids q.
  assert (Hq1 : 1 <= q).
  { subst q. destruct parameterNumbers; [done|]. cbn [length]. lia. }
  unfold writeFC65. rewrite Hopen. cbn [negb].
  destruct (Z.ltb_spec 16 (Z.of_nat (List.length parameterNumbers))); [lia|].
  destruct (Z.eqb_spec address BROADCAST_ADDRESS) as [Hb|_];
    [unfold BROADCAST_ADDRESS in Hb; lia|].
  cbv zeta. fold q.
  destruct (frame_FC65_ok address parameterNumbers) as (f & Hframe & Hlen & H0 & H1 & H2);
    [lia | done | done |].
  fold q in Hlen, H2. rewrite Hframe.
  set (t := new_transaction _ _ _ _ _ _).
  destruct (send_registered f t m) as (s & t' & p' & Hs & Hw & Hp & Htr & Hh & Hc & _ & _
    & _ & _ & Hna & _ & Hnc & Hnl & Hlu & Hnx & _ & Htm).
  { unfold MIN_DATA_LENGTH. lia. }
  { unfold expects_nothing. cbn. apply Z.eqb_neq. lia. }
  destruct (write_remembers f (_port m) address 65 (Known (4 + 2 * q + 2)))
    as (p2 & Hw2 & Hid & Hcmd & Hplen & _ & _ & _ & _ & Hir & Hiw).
  { unfold MIN_DATA_LENGTH. lia. } { done. } { done. }
  { unfold answer_length. cbn [Z.eqb Pos.eqb orb READ_FILE_RECORD_FUNCTION_CODE
      READ_DEVICE_IDENTIFICATION_FUNCTION_CODE READ_COMPRESSED_FUNCTION_CODE].
    rewrite (readUInt8_get f 2 q) by (lia || done). done. }
  rewrite Hw in Hw2. injection Hw2 as <-.
  assert (Hl1 : _transactions s !! _transactionIdRead (_port s) = Some (List.length (heap m))).
  { rewrite Htr, Hp, Hir, Hids. apply lookup_insert_eq. }
  assert (Hl2 : heap s !! List.length (heap m) = Some t').
  { rewrite Hh, lookup_app_r by lia. by rewrite Nat.sub_diag. }
  exists s, t'. split; [done|].
  split; [by rewrite Hp, Hiw, <- Hids, <- Hir, <- Hp|]. split; [done|].
  split; [by rewrite Hnc|]. split; [by rewrite Hnl|].
  split; [by rewrite Hp|]. split; [by rewrite Hp|].
  intros data Hdata.
  destruct (_onReceive_answers data s (List.length (heap m)) t' k Hl1 Hl2)
    as (new & Hnew & _ & Hall); [by rewrite Hnx|].
  exists new. split; [done|]. apply Forall_forall. intros c Hin.
  destruct (Hall c Hin) as (_ & _ & Hres).
  destruct (res c) eqn:Hrc; [|done]. exfalso.
  destruct Hres as (_ & _ & _ & _ & Hlen'); [by eexists|].
  destruct Hlen' as [_ Hlen']; [by rewrite Hlu|].
  rewrite Hnl in Hlen'. cbn in Hlen'. injection Hlen' as Hlen'. lia.
Qed.

Lemma compressed_answer_lengths_witness :
  ∃ s t,
    writeFC65 (Some 17) [1; 2; 3] (Some (UserCallback 0)) engine0 = Done s
    ∧ _transactions s !! _transactionIdWrite (_port s) = Some (List.length (heap engine0))
    ∧ heap s !! List.length (heap engine0) = Some t
    ∧ nextCode t = 65 ∧ nextLength t = Some (4 + 2 * 3 + 3)
    ∧ _cmd (_port s) = 65 ∧ _length (_port s) = Known (4 + 2 * 3 + 2)
    ∧ ∀ data, blen data = 4 + 2 * 3 + 2 →
        ∃ new, calls (state_of (_onReceive data s)) = calls s ++ new
               ∧ Forall (λ c, res c = None) new.
Proof.
  apply (compressed_answer_lengths engine0 17 [1; 2; 3] 0);
    try reflexivity; try lia; try discriminate.
  repeat constructor; lia.
Defined.

(** ** The layout of an FC43 answer *)

Lemma fc43_walk_list (before rest : Buffer) (objects : list (Z * Buffer)) bufferLength :
  Forall (λ o, o.2 ≠ []) objects →
  blen (before ++ fc43_list objects) <= bufferLength →
  fc43_walk (List.length objects) (before ++ fc43_list objects ++ rest) bufferLength
    (blen before)
  = (blen before + blen (fc43_list objects), true).
Proof.
  intros Hne. revert before.
  induction Hne as [|o objects Ho Hne IH]; intros before Hl; cbn [length fc43_walk].
  - cbn. by rewrite Z.add_0_r.
  - unfold fc43_list in *. cbn [mbind list_bind] in *. fold (fc43_list objects) in *.
    rewrite !blen_app in Hl. pose proof (blen_nonneg (fc43_list objects)).
    pose proof (blen_nonneg (fc43_object o)).
    pose proof (blen_nonneg before).
    destruct (Z.ltb_spec bufferLength (blen before)); [lia|].
    rewrite buf_get_app_r by lia.
    change (buf_get ((fc43_object o ++ fc43_list objects) ++ rest) 1) with (Some (blen o.2)).
    assert (Hlen : blen o.2 ≠ 0).
    { unfold blen. destruct o as [id [|x bytes]]; [done|]. cbn. lia. }
    specialize (IH (before ++ fc43_object o)).
    rewrite <- !app_assoc in IH.
    assert (Hb : blen (before ++ fc43_object o) = blen before + 2 + blen o.2).
    { rewrite blen_app. unfold fc43_object, blen. cbn [length]. lia. }
    rewrite Hb in IH. rewrite <- !app_assoc. rewrite IH.
    + rewrite !blen_app. rewrite !blen_app in Hb.
      destruct (Z.eqb_spec (blen o.2) 0); [done|]. f_equal. lia.
    + rewrite !blen_app in *. lia.
Qed.

Lemma fc43_objects_list (before rest : Buffer) (objects : list (Z * Buffer)) acc :
  fc43_objects (List.length objects) (before ++ fc43_list objects ++ rest)
    (blen before) acc
  = Some (fc43_map objects acc).
Proof.
  revert before acc. induction objects as [|o objects IH]; intros before acc;
    cbn [length fc43_objects]; [done|].
  unfold fc43_list. cbn [mbind list_bind]. fold (fc43_list objects).
  pose proof (blen_nonneg before). pose proof (blen_nonneg o.2).
  assert (Hid : readUInt8 (before ++ (fc43_object o ++ fc43_list objects) ++ rest)
                  (blen before) = Some o.1).
  { apply readUInt8_get; [done|]. by rewrite buf_get_app_r0. }
  assert (Hlen : readUInt8 (before ++ (fc43_object o ++ fc43_list objects) ++ rest)
                   (blen before + 1) = Some (blen o.2)).
  { apply readUInt8_get; [lia|]. by rewrite buf_get_app_r. }
  rewrite Hid, Hlen. cbn [mbind option_bind].
  assert (Hs : toString_ascii (before ++ (fc43_object o ++ fc43_list objects) ++ rest)
                 (blen before + 2) (blen before + 2 + blen o.2)
               = string_of_list_ascii (ascii_of_byte <$> o.2)).
  { unfold toString_ascii. f_equal. f_equal.
    pose proof (slice_app_middle (before ++ [o.1; blen o.2]) o.2 (fc43_list objects ++ rest))
      as Hsl.
    rewrite blen_app in Hsl. change (blen [o.1; blen o.2]) with 2 in Hsl.
    etrans; [|exact Hsl]. f_equal. unfold fc43_object. by rewrite <- !app_assoc. }
  rewrite Hs.
  specialize (IH (before ++ fc43_object o)
                (<[o.1 := string_of_list_ascii (ascii_of_byte <$> o.2)]> acc)).
  assert (Hb : blen (before ++ fc43_object o) = blen before + 2 + blen o.2).
  { rewrite blen_app. unfold fc43_object, blen. cbn [length]. lia. }
  rewrite Hb in IH. rewrite <- !app_assoc in *. exact IH.
Qed.

(** X17: an FC43 answer laid out as a header of eight bytes, the objects (id,
    length, bytes; none of them empty) and two CRC bytes: from the stream
    the port computes the end of the frame as the offset of the header plus
    its length, and from the frame the decoder reads the map from each
    object id to the text of its bytes, a later object replacing an
    earlier one of the same id. *)
Theorem FC43_layout (pre header rest : Buffer) (objects : list (Z * Buffer)) :
  blen header = 8 → Forall (λ o, o.2 ≠ []) objects → 2 <= blen rest →
  let frame := header ++ fc43_list objects ++ rest in
  let buffer := pre ++ frame in
  calculateFC43Length buffer (Z.of_nat (List.length objects)) (blen pre) (blen buffer)
  = {| hasAllData := true;
       bufLength := Some (blen pre + 8 + blen (fc43_list objects) + CRC_LENGTH) |}
  ∧ fc43_objects (List.length objects) frame 8 ∅ = Some (fc43_map objects ∅).
Proof.
  intros Hh Hne Hrest frame buffer. split.
  - unfold calculateFC43Length.
    pose proof (fc43_walk_list (pre ++ header) rest objects (blen buffer) Hne) as Hw.
    rewrite !blen_app, !Hh in Hw.
    replace (8 + blen pre) with (blen pre + 8) by lia.
    subst buffer frame. rewrite <- !app_assoc in Hw.
    assert (Hlen : blen (pre ++ header ++ fc43_list objects ++ rest)
                   = blen pre + 8 + blen (fc43_list objects) + blen rest).
    { rewrite !blen_app. lia. }
    pose proof (blen_nonneg (fc43_list objects)).
    destruct (Z.ltb_spec 0 (Z.of_nat (List.length objects))).
    + rewrite Nat2Z.id, Hw by (rewrite !blen_app in *; lia).
      rewrite Hlen. unfold CRC_LENGTH.
      destruct (Z.ltb_spec (blen pre + 8 + blen (fc43_list objects) + blen rest)
                  (blen pre + 8 + blen (fc43_list objects) + 2)); [lia|]. done.
    + assert (objects = []) as -> by (destruct objects; [done | cbn [length] in *; lia]).
      cbn. rewrite !blen_app. unfold CRC_LENGTH.
      change (blen []) with 0. rewrite Z.add_0_r.
      destruct (Z.ltb_spec (blen pre + (blen header + blen rest)) (blen pre + 8 + 2));
        [lia|]. done.
  - subst frame. rewrite <- Hh. apply fc43_objects_list.
Qed.

Lemma FC43_layout_witness :
  let header := [0x11; 0x2B; 0x0E; 0x01; 0x01; 0x00; 0x00; 0x02] in
  let objects := [(0, [0x46; 0x6F; 0x6F]); (1, [0x42; 0x61; 0x72])] in
  let frame := header ++ fc43_list objects ++ [0x9B; 0x97] in
  let buffer := [0xFF] ++ frame in
  calculateFC43Length buffer (Z.of_nat (List.length objects)) (blen [0xFF]) (blen buffer)
  = {| hasAllData := true;
       bufLength := Some (blen [0xFF] + 8 + blen (fc43_list objects) + CRC_LENGTH) |}
  ∧ fc43_objects (List.length objects) frame 8 ∅ = Some (fc43_map objects ∅).
Proof.
  intros header objects frame buffer.
  apply (FC43_layout [0xFF] header [0x9B; 0x97] objects).
  - reflexivity.
  - repeat constructor; discriminate.
  - vm_compute. discriminate.
Defined.

(** ** The promise API *)

(** X18: a method of the promise API that is called without a function on a
    client whose port is not open returns a promise that is rejected with
    the port-not-open error, and stays so whatever is logged later. With a
    value that does not fit 16 bits [writeRegister] throws a [RangeError]
    when it is given a function, and without one returns a promise rejected
    with that exception; the transaction is registered all the same. *)
Theorem promise_rejections writeBit m k :
  (isOpen m = false →
   ∀ c, ∃ s p,
     converted writeBit c None k m = (Done s, Some p)
     ∧ calls s = calls m ++ [{| callee := k; err := Some new_PortNotOpenError;
                                res := None |}]
     ∧ ∀ more, promise_state p (set_calls (calls s ++ more) s)
               = Some (Rejected new_PortNotOpenError))
  ∧ (isOpen m = true → _enron m = false → 0 < _unitID m <= 255 →
     ∀ dataAddress val next, 0 <= dataAddress <= 65535 → 65535 < val →
     let c := writeRegister (Some dataAddress) (Numbers val) in
     (∃ s, converted writeBit c (Some next) k m = (Thrown RangeError s, None))
     ∧ ∃ s p,
         converted writeBit c None k m = (Done s, Some p)
         ∧ calls s = calls m
         ∧ promise_state p s = Some (RejectedThrown RangeError)
         ∧ is_Some (_transactions s !! _transactionIdWrite (_port s))).
Proof.
  split.
  - intros Hopen c.
    assert (Hsub : submit writeBit (bound_call (_unitID m) c) (Some (UserCallback k)) m
                   = Done (set_calls (calls m ++ [{| callee := k;
                                                     err := Some new_PortNotOpenError;
                                                     res := None |}]) m)).
    { rewrite <- report_user.
      destruct c; unfold bound_call, submit, writeFC1, writeFC2, writeFC3, writeFC4, writeFC5,
        writeFC6, writeFC7, writeFC15, writeFC16, writeFC20, writeFC43, writeFC65;
        by rewrite Hopen. }
    unfold converted. rewrite Hsub. cbn [state_of calls set_calls].
    eexists _, _. split; [reflexivity|]. split; [reflexivity|].
    intros more. unfold promise_state, calls_of.
    cbn [calls set_calls promise_since promise_until promise_threw promise_cb].
    rewrite <- app_assoc, drop_app_length, length_app. cbn [length app].
    replace (List.length (calls m) + 1 - List.length (calls m))%nat with 1%nat by lia.
    cbn [take]. rewrite filter_cons_True by done. done.
  - intros Hopen Henron Hid dataAddress val next Hd Hv c.
    assert (Hsub : ∀ f, submit writeBit (bound_call (_unitID m) c) (Some f) m
              = Thrown RangeError
                  (set_slot (new_transaction (_unitID m) (Some dataAddress) 6 (Some 8)
                               false (Some f)) m)).
    { intros f. unfold c, bound_call, submit, writeFC6, enron_wide.
      rewrite Hopen, Henron. cbn [negb].
      destruct (Z.eqb_spec (_unitID m) BROADCAST_ADDRESS) as [Hb|_];
        [unfold BROADCAST_ADDRESS in Hb; lia|].
      cbv zeta. unfold frame_FC6.
      change (alloc (6 + 2)) with [0; 0; 0; 0; 0; 0; 0; 0].
      rewrite writeUInt8_eq by (done || lia || (vm_compute; congruence)).
      cbn [mbind option_bind].
      rewrite writeUInt8_eq by (done || lia || (vm_compute; congruence)).
      cbn [mbind option_bind].
      rewrite writeUInt16BE_eq by (done || lia || (vm_compute; congruence)).
      cbn [mbind option_bind].
      unfold writeUInt16BE at 1.
      destruct (Z.leb_spec val 65535); [lia|]. rewrite andb_false_r. done. }
    unfold converted. rewrite !Hsub. cbn [state_of].
    split; [by eexists|].
    eexists _, _. split; [reflexivity|]. split; [reflexivity|].
    split.
    + unfold promise_state, calls_of.
      cbn [calls set_slot set_transactions set_heap promise_since promise_until
           promise_threw promise_cb].
      rewrite Nat.sub_diag. by cbn [take].
    + cbn [_port set_slot set_transactions set_heap _transactions].
      rewrite lookup_insert_eq. by eexists.
Qed.

Lemma promise_rejections_witness :
  (∃ s p,
     converted (λ _ _ _ b, Some b) (readHoldingRegisters (Some 0x6B) 2) None 7
       (new_ModbusRTU new_RTUBufferedPort) = (Done s, Some p)
     ∧ calls s = calls (new_ModbusRTU new_RTUBufferedPort)
                 ++ [{| callee := 7; err := Some new_PortNotOpenError; res := None |}]
     ∧ ∀ more, promise_state p (set_calls (calls s ++ more) s)
               = Some (Rejected new_PortNotOpenError))
  ∧ (∃ s, converted (λ _ _ _ b, Some b) (writeRegister (Some 1) (Numbers 70000))
            (Some (UserCallback 0)) 7 engine0 = (Thrown RangeError s, None))
  ∧ ∃ s p,
      converted (λ _ _ _ b, Some b) (writeRegister (Some 1) (Numbers 70000)) None 7 engine0
      = (Done s, Some p)
      ∧ calls s = calls engine0
      ∧ promise_state p s = Some (RejectedThrown RangeError)
      ∧ is_Some (_transactions s !! _transactionIdWrite (_port s)).
Proof.
  destruct (promise_rejections (λ _ _ _ b, Some b) (new_ModbusRTU new_RTUBufferedPort) 7)
    as [H1 _].
  destruct (promise_rejections (λ _ _ _ b, Some b) engine0 7) as [_ H2].
  split; [apply H1; reflexivity|].
  apply (H2 eq_refl eq_refl ltac:(vm_compute; split; congruence) 1 70000 (UserCallback 0));
    lia.
Defined.

(** X19: the unit id set with [setID] goes out as the first byte of a request
    made through the promise API; a write of one register made without a
    function returns a promise that is pending while the request is under
    way and is fulfilled with the address and the value when the serial
    line brings the answer. *)
Theorem promise_fulfilled_by_echo writeBit m id dataAddress val k :
  isOpen m = true → _enron m = false →
  data_listener (_port m) = true → _buffer (_port m) = [] →
  _transactionIdRead (_port m) = _transactionIdWrite (_port m) →
  0 < id <= 255 → 0 <= dataAddress <= 65535 → 0 <= val <= 65535 →
  ∃ s p frame s' r,
    converted writeBit (writeRegister (Some dataAddress) (Numbers val)) None k (setID id m)
    = (Done s, Some p)
    ∧ client_written (_port s) = client_written (_port m) ++ [frame]
    ∧ buf_get frame 0 = Some (getID (setID id m)) ∧ getID (setID id m) = id
    ∧ promise_state p s = None
    ∧ onData frame s = Done s'
    ∧ promise_state p s' = Some (Fulfilled (Some r))
    ∧ value r = ResRegister dataAddress val.
Proof.
  intros Hopen Henron Hlisten Hbuf Hids Ha Hd Hv.
  destruct (write_echo writeBit (setID id m)
              (WriteRegister (Some id) (Some dataAddress) (Numbers val))
              (ResRegister dataAddress val) k id dataAddress true val)
    as (s & frame & s' & c & Hs & Hcw & Hf0 & Hc & Hon & Hc' & Hk & He & Hr & _);
    try done.
  { constructor 2. constructor 1. }
  unfold converted. cbn [bound_call _unitID setID]. rewrite Hs. cbn [state_of].
  destruct (res c) as [r|] eqn:Hres; [|done]. cbn in Hr. injection Hr as Hr.
  eexists s, _, frame, s', r. split; [reflexivity|]. split; [done|].
  split; [done|]. split; [done|].
  unfold promise_state, calls_of.
  cbn [promise_since promise_until promise_threw promise_cb calls setID].
  rewrite Hc, Hc'. cbn [calls setID]. rewrite Nat.sub_diag. cbn [take].
  rewrite drop_all, drop_app_length.
  split; [done|]. split; [done|]. split; [|done].
  change (filter (λ c0 : call, callee c0 = k) []) with (@nil call).
  rewrite filter_cons_True by done. cbn [head fmap option_fmap option_map].
  unfold cb. by rewrite He, Hres.
Qed.

Lemma promise_fulfilled_by_echo_witness :
  ∃ s p frame s' r,
    converted (λ _ _ _ b, Some b) (writeRegister (Some 1) (Numbers 3)) None 7
      (setID 17 engine0) = (Done s, Some p)
    ∧ client_written (_port s) = client_written (_port engine0) ++ [frame]
    ∧ buf_get frame 0 = Some (getID (setID 17 engine0)) ∧ getID (setID 17 engine0) = 17
    ∧ promise_state p s = None
    ∧ onData frame s = Done s'
    ∧ promise_state p s' = Some (Fulfilled (Some r))
    ∧ value r = ResRegister 1 3.
Proof.
  apply (promise_fulfilled_by_echo (λ _ _ _ b, Some b) engine0 17 1 3 7);
    try reflexivity; lia.
Defined.

(** ** Request frames, answers and resynchronisation *)

(** X1: every frame that a request method builds ends with the CRC of the
    bytes before it, low byte first: it passes the check that the receive
    procedure makes on the frames that come in. *)
Theorem request_frames_pass_crc f : request_frame f → passes_crc f.
Proof.
  apply request_frame_crc.
Qed.

Lemma request_frames_pass_crc_witness :
  passes_crc [0x11; 0x2B; 0x0E; 0x01; 0x00; 0xB1; 0xB4].
Proof.
  apply request_frames_pass_crc. apply (frame_of_FC43 17 43 1 0). vm_compute. reflexivity.
Defined.

(** X4: for a frame that comes in for a transaction with a caller's
    function, that function is called at most once, with an error or with a
    result and never with both; it is called with a result only if the
    timeout has not fired and the frame has the right CRC, the unit address
    and the function code of the transaction and, unless the length is
    unknown, the length that the transaction awaits. *)
Theorem result_only_for_accepted_frame data m tx t0 k :
  _transactions m !! _transactionIdRead (_port m) = Some tx →
  heap m !! tx = Some t0 →
  next t0 = Some (UserCallback k) →
  ∃ new,
    calls (state_of (_onReceive data m)) = calls m ++ new
    ∧ (List.length new <= 1)%nat
    ∧ ∀ c, c ∈ new →
        callee c = k
        ∧ (err c = None ↔ is_Some (res c))
        ∧ (is_Some (res c) → _timeoutFired t0 ≠ Some true ∧ accepted t0 data).
Proof.
  apply _onReceive_answers.
Qed.

Lemma result_only_for_accepted_frame_witness :
  let m1 := state_of (writeFC3 (Some 17) (Some 0x6B) 2 (Some (UserCallback 0)) engine0) in
  let t0 := set_timeout_fields (Some false) None
              (new_transaction 17 (Some 0x6B) 3 (Some 9) false (Some (UserCallback 0))) in
  let data := [0x11; 0x03; 0x04; 0xAE; 0x41; 0x56; 0x52; 0x25; 0x53] in
  ∃ new,
    calls (state_of (_onReceive data m1)) = calls m1 ++ new
    ∧ (List.length new <= 1)%nat
    ∧ ∀ c, c ∈ new →
        callee c = 0%nat
        ∧ (err c = None ↔ is_Some (res c))
        ∧ (is_Some (res c) → _timeoutFired t0 ≠ Some true ∧ accepted t0 data).
Proof.
  intros m1 t0 data.
  apply (result_only_for_accepted_frame data m1 0 t0 0); vm_compute; reflexivity.
Defined.

(** X8: a chunk that completes an answer of the expected length behind
    bytes that are not the unit id (the remembered function code being
    neither 20 nor 43, and no more than 256 bytes buffered): the scan emits
    the answer from the offset where it starts and the engine is handed
    exactly the answer. When the receive procedure returns, the bytes that
    came after the answer are what stays in the buffer; when it throws (a
    decoder reading past the end of the frame), the cut is skipped and the
    buffer keeps all that was received. *)
Theorem frame_found_after_garbage data m (garbage frame rest : Buffer) expectedLength :
  _length (_port m) = Known expectedLength → MIN_DATA_LENGTH <= expectedLength →
  _cmd (_port m) ≠ READ_FILE_RECORD_FUNCTION_CODE →
  _cmd (_port m) ≠ READ_DEVICE_IDENTIFICATION_FUNCTION_CODE →
  data_listener (_port m) = true →
  _buffer (_port m) ++ data = garbage ++ frame ++ rest →
  Forall (λ x, x ≠ _id (_port m)) garbage →
  buf_get frame 0 = Some (_id (_port m)) → buf_get frame 1 = Some (_cmd (_port m)) →
  blen frame = expectedLength →
  blen (garbage ++ frame ++ rest) <= MAX_BUFFER_LENGTH →
  let m0 := set_port (set_buffer (garbage ++ frame ++ rest) (_port m)) m in
  (onData_scan data (_port m)).2 = Some (blen garbage, expectedLength)
  ∧ onData data m
    = (do m1 <- _onReceive frame m0;
       Done (set_port (set_buffer rest (_port m1)) m1))
  ∧ (∀ s, onData data m = Done s → rx_buffer s = rest)
  ∧ (∀ e s, onData data m = Thrown e s → rx_buffer s = garbage ++ frame ++ rest)
  ∧ rx_buffer (state_of (onData data m))
    = match _onReceive frame m0 with
      | Done _ => rest
      | Thrown _ _ => garbage ++ frame ++ rest
      end.
Proof.
  intros Hlen Hmin H20 H43 Hlisten Hrecv Hg Hid Hcmd Hfl Hmax m0.
  destruct (onData_finds_frame data m garbage frame rest expectedLength
              Hlen Hmin H20 H43 Hlisten Hrecv Hg Hid Hcmd Hfl Hmax)
    as (Hscan & Ho & Hdone).
  fold m0 in Ho.
  split; [exact Hscan|]. split; [exact Ho|]. split; [exact Hdone|].
  pose proof (_onReceive_buffer frame m0) as Hb. unfold keeps in Hb.
  rewrite Ho.
  destruct (_onReceive frame m0) as [m1|e1 m1]; cbn [and_then state_of] in *.
  - split; [done|]. done.
  - split; [|exact Hb]. by intros e s [= _ <-].
Qed.

Lemma frame_found_after_garbage_witness :
  let m := state_of (writeFC3 (Some 17) (Some 0x6B) 2 (Some (UserCallback 0)) engine0) in
  let garbage := [0xFF; 0x00] in
  let frame := [0x11; 0x03; 0x04; 0xAE; 0x41; 0x56; 0x52; 0x25; 0x53] in
  let short := [0x11; 0x03; 0x08; 0xAE; 0x41; 0x56; 0x52; 0x35; 0x52] in
  let rest := [0x11; 0x03] in
  ((onData_scan (garbage ++ frame ++ rest) (_port m)).2 = Some (2, 9)
   ∧ ∃ s, onData (garbage ++ frame ++ rest) m = Done s ∧ rx_buffer s = rest)
  ∧ ((onData_scan (garbage ++ short ++ rest) (_port m)).2 = Some (2, 9)
     ∧ ∃ s, onData (garbage ++ short ++ rest) m = Thrown RangeError s
            ∧ rx_buffer s = garbage ++ short ++ rest).
Proof.
  intros m garbage frame short rest. split.
  - destruct (frame_found_after_garbage (garbage ++ frame ++ rest) m garbage frame rest 9)
      as (Hscan & _ & Hdone & _); try (vm_compute; congruence).
    { repeat constructor; vm_compute; congruence. }
    split; [exact Hscan|]. eexists. split; [vm_compute; reflexivity|].
    apply Hdone. vm_compute. reflexivity.
  - destruct (frame_found_after_garbage (garbage ++ short ++ rest) m garbage short rest 9)
      as (Hscan & _ & _ & Hthrown & _); try (vm_compute; congruence).
    { repeat constructor; vm_compute; congruence. }
    split; [exact Hscan|]. eexists. split; [vm_compute; reflexivity|].
    eapply Hthrown. vm_compute. reflexivity.
Defined.

Lemma frame_cancels_timeout_witness :
  let m := state_of (writeFC3 (Some 17) (Some 0x6B) 2 (Some (UserCallback 0))
                       (setTimeout (Some 100) engine0)) in
  let tm := {| timer_tx := 0; timer_duration := 100; timer_pending := true |} in
  let s := state_of (_onReceive [0x00; 0x01; 0x02] m) in
  timers s !! 0%nat = Some (set_timer_pending false tm)
  ∧ timer_fires 0 s = Done s
  ∧ ∃ t, heap s !! 0%nat = Some t ∧ _timeoutHandle t = None.
Proof.
  intros m tm.
  apply (frame_cancels_timeout [0x00; 0x01; 0x02] m 0
           (set_timeout_fields (Some false) (Some 0%nat)
              (new_transaction 17 (Some 0x6B) 3 (Some 9) false (Some (UserCallback 0))))
           0 tm); vm_compute; reflexivity.
Defined.

Lemma timeout_reported_for_request_witness :
  let m := setTimeout (Some 100) engine0 in
  let body := [17; 3; 0x6B / 256; 0x6B mod 256; 2 / 256; 2 mod 256] in
  let frame := body ++ [crc16 body mod 256; crc16 body / 256] in
  ∃ s s' e t,
    submit (λ _ _ _ b, Some b) (ReadHoldingRegisters (Some 17) (Some 0x6B) 2)
      (Some (UserCallback 0)) m = Done s
    ∧ timers s = timers m ++ [{| timer_tx := List.length (heap m); timer_duration := 100;
                                 timer_pending := true |}]
    ∧ timer_fires (List.length (timers m)) s = Done s'
    ∧ calls s' = calls m ++ [{| callee := 0; err := Some e; res := None |}]
    ∧ name e = TransactionTimedOutError
    ∧ message e = TRANSACTION_TIMED_OUT_MESSAGE
    ∧ (modbusRequest e, modbusResponses e)
      = (if _debugEnabled m then (Some frame, Some []) else (None, None))
    ∧ heap s' !! List.length (heap m) = Some t
    ∧ _timeoutFired t = Some true
    ∧ timers s' !! List.length (timers m)
      = Some {| timer_tx := List.length (heap m); timer_duration := 100;
                timer_pending := false |}.
Proof.
  intros m body frame.
  apply (timeout_reported_for_request (λ _ _ _ b, Some b) m
           (ReadHoldingRegisters (Some 17) (Some 0x6B) 2) 3 17 0x6B 2 0 100);
    try reflexivity; try lia.
  do 2 constructor 2. constructor 1.
Defined.

Lemma registers_frame_layout_witness :
  let array := [0x000A; 0x0102] in
  is_Some (frame_FC16 17 16 1 (Numbers array))
  ∧ ¬ is_Some (frame_FC16 17 16 1 (Numbers (replicate 128 0)))
  ∧ ∀ f, frame_FC16 17 16 1 (Numbers array) = Some f →
      blen f = 9 + 2 * 2
      ∧ readUInt8 f 0 = Some 17 ∧ readUInt8 f 1 = Some 16
      ∧ readUInt16BE f 2 = Some 1 ∧ readUInt16BE f 4 = Some 2
      ∧ readUInt8 f 6 = Some (2 * 2)
      ∧ read_each (Z.to_nat (2 * 2)) (readUInt16BE f) 2 7 (2 * 2) 0 = Some array
      ∧ passes_crc f.
Proof.
  intros array.
  destruct (registers_frame_layout 17 16 1 array) as [Hiff Hlay].
  destruct (registers_frame_layout 17 16 1 (replicate 128 0)) as [Hiff' _].
  split; [|split].
  - apply Hiff. repeat split; try lia; try (vm_compute; congruence).
    repeat constructor; lia.
  - intros Hs. apply Hiff' in Hs as (_ & _ & _ & Hn & _). vm_compute in Hn. by apply Hn.
  - exact Hlay.
Defined.

(** ** Read Device Identification: the follow-up and the accumulated map *)









